(** * lcp-decrypt: the decrypt-and-repackage engine of package [lcp]

    A shallow embedding of [pkg/lcp] (cipher strategies, licence and key
    derivation, encryption manifest parser, archive transcoder) together
    with the parts of the Go standard library it relies on.

    Go's [byte] is an 8-bit value and a Go [string] is an immutable byte
    sequence, so bytes are [ascii] and strings are [string]; [[]byte] is
    [list ascii]. *)

From Stdlib Require Import List String Ascii NArith ZArith Lia Bool Arith.
From stdpp Require Import base option list strings pretty gmap.

Import ListNotations.
Local Open Scope string_scope.
Local Open Scope list_scope.

Abbreviation byte := ascii (only parsing).
Abbreviation bytes := (list ascii) (only parsing).

(** ** Results of Go calls

    A Go call returns normally with a value, returns a non-nil [error], or
    panics (a run-time error such as an out-of-range slice expression). *)

Inductive error : Type :=
| Errorf (msg : string)                    (* fmt.Errorf / errors.New, no wrapped cause *)
| Wrap (msg : string) (cause : error)      (* fmt.Errorf(msg + ": %w", cause) *)
| WrapQ (msg quoted : string) (cause : error) (* fmt.Errorf(msg + " %q: %w", quoted, cause) *)
| KeySizeError (n : nat)                   (* crypto/aes *)
| CorruptInputError (offset : nat)         (* encoding/base64 *)
| InvalidByteError (b : byte)              (* encoding/hex *)
| ErrLength                                (* encoding/hex: odd length hex string *)
| EscapeError (s : string)                 (* net/url *)
| LibError (pkg msg : string).             (* any other error of a library call *)

Inductive panic : Type :=
| SliceBoundsOutOfRange
| IndexOutOfRange
| NilDereference
| PanicMsg (msg : string).

Inductive outcome (A : Type) : Type :=
| Ok (a : A)
| Err (e : error)
| Panic (p : panic).
Arguments Ok {A} a.
Arguments Err {A} e.
Arguments Panic {A} p.

Definition obind {A B} (x : outcome A) (k : A -> outcome B) : outcome B :=
  match x with
  | Ok a => k a
  | Err e => Err e
  | Panic p => Panic p
  end.

(** [wrapErr msg x]: the Go idiom
    [if err != nil { return fmt.Errorf(msg + ": %w", err) }]. *)
Definition wrapErr {A} (msg : string) (x : outcome A) : outcome A :=
  match x with
  | Err e => Err (Wrap msg e)
  | _ => x
  end.

(** ** crypto/aes: the AES block cipher (FIPS-197), decryption direction *)

Module AES.

Local Open Scope N_scope.

Definition BlockSize : nat := 16.

(** Arithmetic of GF(2^8) modulo x^8 + x^4 + x^3 + x + 1. *)
Definition xtime (b : N) : N :=
  let d := 2 * b in
  if 256 <=? d then N.lxor (d - 256) 27 else d.

Fixpoint gmul_aux (fuel : nat) (a b : N) : N :=
  match fuel with
  | O => 0
  | S f => N.lxor (if N.odd b then a else 0) (gmul_aux f (xtime a) (N.div2 b))
  end.

Definition gmul (a b : N) : N := gmul_aux 8 a b.

(** x^254, the multiplicative inverse (0 is mapped to 0). *)
Definition ginv (x : N) : N :=
  let x2 := gmul x x in
  let x4 := gmul x2 x2 in
  let x8 := gmul x4 x4 in
  let x16 := gmul x8 x8 in
  let x32 := gmul x16 x16 in
  let x64 := gmul x32 x32 in
  let x128 := gmul x64 x64 in
  gmul x128 (gmul x64 (gmul x32 (gmul x16 (gmul x8 (gmul x4 x2))))).

Definition rotl8 (b : N) (k : N) : N :=
  N.lor (N.shiftl b k) (N.shiftr b (8 - k)) mod 256.

Definition sbox_calc (x : N) : N :=
  let b := ginv x in
  N.lxor (N.lxor (N.lxor (N.lxor (N.lxor b (rotl8 b 1)) (rotl8 b 2)) (rotl8 b 3)) (rotl8 b 4)) 99.

Definition inv_sbox_calc (y : N) : N :=
  ginv (N.lxor (N.lxor (N.lxor (rotl8 y 1) (rotl8 y 3)) (rotl8 y 6)) 5).

(** The two substitution tables [sbox0] and [sbox1] of crypto/aes. *)
Definition sbox0 : list N :=
  Eval vm_compute in List.map (fun i => sbox_calc (N.of_nat i)) (seq 0 256).
Definition sbox1 : list N :=
  Eval vm_compute in List.map (fun i => inv_sbox_calc (N.of_nat i)) (seq 0 256).

Definition SubByte (b : N) : N := nth (N.to_nat b) sbox0 0.
Definition InvSubByte (b : N) : N := nth (N.to_nat b) sbox1 0.

Definition xorN (a b : list N) : list N :=
  List.map (fun p => N.lxor (fst p) (snd p)) (combine a b).

(** Key expansion.  Words are lists of four bytes; the schedule is built
    newest word first, so that [w(i-1)] is the head and [w(i-Nk)] the
    [Nk-1]-th element. *)
Definition RotWord (w : list N) : list N :=
  match w with
  | a :: r => r ++ [a]
  | [] => []
  end.

Definition SubWord (w : list N) : list N := List.map SubByte w.

Fixpoint chunks4 {A} (fuel : nat) (l : list A) : list (list A) :=
  match fuel with
  | O => []
  | S f =>
      match l with
      | [] => []
      | _ => firstn 4 l :: chunks4 f (skipn 4 l)
      end
  end.

Fixpoint expand (fuel : nat) (Nk i : nat) (rcon : N) (w : list (list N))
  : list (list N) :=
  match fuel with
  | O => w
  | S f =>
      let prev := nth 0 w [] in
      let back := nth (Nk - 1) w [] in
      if Nat.eqb (i mod Nk) 0 then
        let t := xorN (SubWord (RotWord prev)) [rcon; 0; 0; 0] in
        expand f Nk (S i) (xtime rcon) (xorN back t :: w)
      else if andb (Nat.ltb 6 Nk) (Nat.eqb (i mod Nk) 4) then
        expand f Nk (S i) rcon (xorN back (SubWord prev) :: w)
      else
        expand f Nk (S i) rcon (xorN back prev :: w)
  end.

(** Round keys, one 16-byte list per round, round 0 first. *)
Definition KeyExpansion (key : list N) : list (list N) :=
  let Nk := Nat.div (length key) 4 in
  let Nr := (Nk + 6)%nat in
  let w0 := rev (chunks4 Nk key) in
  let w := rev (expand (4 * (Nr + 1) - Nk) Nk Nk 1 w0) in
  List.map (@List.concat N) (chunks4 (Nr + 1) w).

(** The state is kept in input order: byte [r + 4c] is row [r], column [c]. *)
Definition InvShiftRows (s : list N) : list N :=
  List.map (fun i => let r := (i mod 4)%nat in let c := (i / 4)%nat in
                     nth (r + 4 * ((c + 4 - r) mod 4))%nat s 0)
           (seq 0 16).

Definition InvSubBytes (s : list N) : list N := List.map InvSubByte s.

Definition InvMixColumn (col : list N) : list N :=
  match col with
  | [a0; a1; a2; a3] =>
      [ N.lxor (N.lxor (gmul 14 a0) (gmul 11 a1)) (N.lxor (gmul 13 a2) (gmul 9 a3));
        N.lxor (N.lxor (gmul 9 a0) (gmul 14 a1)) (N.lxor (gmul 11 a2) (gmul 13 a3));
        N.lxor (N.lxor (gmul 13 a0) (gmul 9 a1)) (N.lxor (gmul 14 a2) (gmul 11 a3));
        N.lxor (N.lxor (gmul 11 a0) (gmul 13 a1)) (N.lxor (gmul 9 a2) (gmul 14 a3)) ]
  | _ => col
  end.

Definition InvMixColumns (s : list N) : list N :=
  List.concat (List.map InvMixColumn (chunks4 4 s)).

Definition AddRoundKey (s k : list N) : list N := xorN s k.

(** FIPS-197 5.3, InvCipher. [rks] are the round keys in reverse order
    (last round key first). *)
Fixpoint InvRounds (s : list N) (rks : list (list N)) : list N :=
  match rks with
  | [] => s
  | [k0] => AddRoundKey (InvSubBytes (InvShiftRows s)) k0
  | k :: rest =>
      InvRounds (InvMixColumns (AddRoundKey (InvSubBytes (InvShiftRows s)) k)) rest
  end.

Definition InvCipher (rk : list (list N)) (block : list N) : list N :=
  match rev rk with
  | [] => block
  | klast :: rest => InvRounds (AddRoundKey block klast) rest
  end.

(** [cipher.Block] as returned by [aes.NewCipher]: the expanded key. *)
Record Block : Type := { roundKeys : list (list N) }.

(** [aes.NewCipher]: the key must be 16, 24 or 32 bytes long
    (AES-128, AES-192, AES-256); otherwise [KeySizeError]. *)
Definition NewCipher (key : bytes) : outcome Block :=
  let k := length key in
  if (Nat.eqb k 16 || Nat.eqb k 24 || Nat.eqb k 32)%bool
  then Ok {| roundKeys := KeyExpansion (List.map N_of_ascii key) |}
  else Err (KeySizeError k).

(** [Block.Decrypt] on one 16-byte block. *)
Definition Decrypt (b : Block) (src : bytes) : bytes :=
  List.map ascii_of_N (InvCipher (roundKeys b) (List.map N_of_ascii src)).

End AES.

(** ** crypto/cipher: CBC decryption *)

Definition xorBytes (a b : bytes) : bytes :=
  List.map (fun p => ascii_of_N (N.lxor (N_of_ascii (fst p)) (N_of_ascii (snd p))))
           (combine a b).

Record cbcDecrypter : Type := { cbcBlock : AES.Block; cbcIV : bytes }.

(** [cipher.NewCBCDecrypter] panics unless the IV is one block long. *)
Definition NewCBCDecrypter (b : AES.Block) (iv : bytes) : outcome cbcDecrypter :=
  if Nat.eqb (length iv) AES.BlockSize
  then Ok {| cbcBlock := b; cbcIV := iv |}
  else Panic (PanicMsg "cipher.NewCBCDecrypter: IV length must equal block size").

Fixpoint cbcBlocks (b : AES.Block) (n : nat) (prev src : bytes) : bytes :=
  match n with
  | O => []
  | S n' =>
      let c := firstn AES.BlockSize src in
      xorBytes (AES.Decrypt b c) prev ++ cbcBlocks b n' c (skipn AES.BlockSize src)
  end.

(** [x.CryptBlocks(dst, src)] where [dst] is a fresh buffer of [dstLen]
    bytes; the result is the content of [dst] afterwards. *)
Definition CryptBlocks (x : cbcDecrypter) (dstLen : nat) (src : bytes) : outcome bytes :=
  if negb (Nat.eqb (length src mod AES.BlockSize) 0)
  then Panic (PanicMsg "crypto/cipher: input not full blocks")
  else if Nat.ltb dstLen (length src)
  then Panic (PanicMsg "crypto/cipher: output smaller than input")
  else if Nat.eqb (length src) 0
  then Ok (repeat zero dstLen)
  else Ok (cbcBlocks (cbcBlock x) (length src / AES.BlockSize) (cbcIV x) src
           ++ repeat zero (dstLen - length src)).

(** ** Cipher strategies *)

(** The statement [iv, cipherData := data[:n], data[n:]].  A slice
    expression panics when a bound is out of range: the upper bound of
    [data[:n]] is checked against the capacity of [data], the lower bound of
    [data[n:]] against its length.  The capacity is at least the length, so
    the statement panics exactly when [len(data) < n]. *)
Definition splitAt (n : nat) (data : bytes) : outcome (bytes * bytes) :=
  if Nat.ltb (length data) n
  then Panic SliceBoundsOutOfRange
  else Ok (firstn n data, skipn n data).

(** [res[len(res)-1]]. *)
Definition lastByte (res : bytes) : outcome byte :=
  match List.last (List.map Some res) None with
  | Some b => Ok b
  | None => Panic IndexOutOfRange
  end.

Definition decipherAES256CBC (data key : bytes) : outcome bytes :=
  obind (wrapErr "error creating cipher" (AES.NewCipher key)) (fun block =>
  obind (splitAt AES.BlockSize data) (fun '(iv, cipherData) =>
  if Nat.eqb (length data) 0 then Ok []
  else
    obind (NewCBCDecrypter block iv) (fun dec =>
    obind (CryptBlocks dec (length cipherData) cipherData) (fun res =>
    obind (lastByte res) (fun b =>
    let paddingLen := nat_of_ascii b in
    if Nat.ltb (length res) paddingLen
    then Err (Errorf ("invalid padding length " ++ pretty paddingLen
                      ++ " (data length is " ++ pretty (length res) ++ ")"))
    else Ok (firstn (length res - paddingLen) res)))))).

Definition decipherFontObfuscation (data key : bytes) : outcome bytes :=
  Ok data.

(** [decipher] of the earlier single-file program ([main.go]): the same
    statements under another name. *)
Definition decipher (data key : bytes) : outcome bytes :=
  obind (wrapErr "error creating cipher" (AES.NewCipher key)) (fun block =>
  obind (splitAt AES.BlockSize data) (fun '(iv, cipherData) =>
  if Nat.eqb (length data) 0 then Ok []
  else
    obind (NewCBCDecrypter block iv) (fun dec =>
    obind (CryptBlocks dec (length cipherData) cipherData) (fun res =>
    obind (lastByte res) (fun b =>
    let paddingLen := nat_of_ascii b in
    if Nat.ltb (length res) paddingLen
    then Err (Errorf ("invalid padding length " ++ pretty paddingLen
                      ++ " (data length is " ++ pretty (length res) ++ ")"))
    else Ok (firstn (length res - paddingLen) res)))))).

(** ** encoding/hex *)

(** [reverseHexTable]: the value of a hexadecimal digit, either case. *)
Definition fromHexChar (c : byte) : option N :=
  let n := N_of_ascii c in
  if ((48 <=? n) && (n <=? 57))%N then Some (n - 48)%N
  else if ((97 <=? n) && (n <=? 102))%N then Some (n - 87)%N
  else if ((65 <=? n) && (n <=? 70))%N then Some (n - 55)%N
  else None.

Fixpoint hex_Decode (src : bytes) : outcome bytes :=
  match src with
  | [] => Ok []
  | [p] =>
      match fromHexChar p with
      | None => Err (InvalidByteError p)
      | Some _ => Err ErrLength
      end
  | p :: q :: rest =>
      match fromHexChar p, fromHexChar q with
      | None, _ => Err (InvalidByteError p)
      | Some _, None => Err (InvalidByteError q)
      | Some a, Some b =>
          obind (hex_Decode rest) (fun r => Ok (ascii_of_N (16 * a + b) :: r))
      end
  end.

Definition hex_DecodeString (s : string) : outcome bytes :=
  hex_Decode (list_ascii_of_string s).

(** ** encoding/base64, [StdEncoding] (padded, not strict) *)

Definition b64val (c : byte) : option N :=
  let n := N_of_ascii c in
  if ((65 <=? n) && (n <=? 90))%N then Some (n - 65)%N
  else if ((97 <=? n) && (n <=? 122))%N then Some (n - 71)%N
  else if ((48 <=? n) && (n <=? 57))%N then Some (n + 4)%N
  else if (n =? 43)%N then Some 62%N
  else if (n =? 47)%N then Some 63%N
  else None.

Definition isNewline (c : byte) : bool :=
  ((N_of_ascii c =? 10) || (N_of_ascii c =? 13))%N.

Definition padChar : byte := "="%char.

(** Skip ['\n'] and ['\r']; returns the rest and the new offset. *)
Fixpoint skipNewlines (src : bytes) (si : nat) : bytes * nat :=
  match src with
  | c :: rest => if isNewline c then skipNewlines rest (S si) else (src, si)
  | [] => ([], si)
  end.

(** The bytes of a quantum of [dlen] sextets ([dlen] = 2, 3 or 4). *)
Definition quantumBytes (dbuf : list N) (dlen : nat) : bytes :=
  let val := (nth 0 dbuf 0 * 262144 + nth 1 dbuf 0 * 4096
              + nth 2 dbuf 0 * 64 + nth 3 dbuf 0)%N in
  firstn (dlen - 1)
    [ascii_of_N (val / 65536); ascii_of_N (val / 256); ascii_of_N val].

(** [Encoding.Decode]: [dbuf] holds the sextets of the quantum being read,
    [si] is the offset of the head of [src] in the whole input. *)
Fixpoint base64_Decode (src : bytes) (si : nat) (dbuf : list N) : outcome bytes :=
  match src with
  | [] =>
      match dbuf with
      | [] => Ok []
      | _ => Err (CorruptInputError (si - length dbuf))
      end
  | c :: rest =>
      match b64val c with
      | Some v =>
          if Nat.eqb (length dbuf) 3
          then obind (base64_Decode rest (S si) [])
                 (fun r => Ok (quantumBytes (dbuf ++ [v]) 4 ++ r))
          else base64_Decode rest (S si) (dbuf ++ [v])
      | None =>
          if isNewline c then base64_Decode rest (S si) dbuf
          else if negb (Ascii.eqb c padChar) then Err (CorruptInputError si)
          else
            match length dbuf with
            | 0 | 1 => Err (CorruptInputError si)
            | 2 =>
                let '(rest1, si1) := skipNewlines rest (S si) in
                match rest1 with
                | [] => Err (CorruptInputError si1)
                | c1 :: rest2 =>
                    if negb (Ascii.eqb c1 padChar) then Err (CorruptInputError (si1 - 1))
                    else
                      let '(rest3, si3) := skipNewlines rest2 (S si1) in
                      match rest3 with
                      | [] => Ok (quantumBytes dbuf 2)
                      | _ => Err (CorruptInputError si3)
                      end
                end
            | _ =>
                let '(rest1, si1) := skipNewlines rest (S si) in
                match rest1 with
                | [] => Ok (quantumBytes dbuf 3)
                | _ => Err (CorruptInputError si1)
                end
            end
      end
  end.

Definition base64_DecodeString (s : string) : outcome bytes :=
  base64_Decode (list_ascii_of_string s) 0 [].

(** Hexadecimal literals for the examples. *)
Definition hx (s : string) : bytes :=
  match hex_DecodeString s with
  | Ok b => b
  | _ => []
  end.

(** ** net/url: [PathUnescape] *)

Fixpoint unescapePath (s : bytes) : outcome bytes :=
  match s with
  | [] => Ok []
  | c :: rest =>
      if Ascii.eqb c "%"%char then
        match rest with
        | a :: b :: rest' =>
            match fromHexChar a, fromHexChar b with
            | Some x, Some y =>
                obind (unescapePath rest') (fun r => Ok (ascii_of_N (16 * x + y) :: r))
            | _, _ => Err (EscapeError (string_of_list_ascii (firstn 3 s)))
            end
        | _ => Err (EscapeError (string_of_list_ascii (firstn 3 s)))
        end
      else obind (unescapePath rest) (fun r => Ok (c :: r))
  end.

Definition url_PathUnescape (s : string) : outcome string :=
  obind (unescapePath (list_ascii_of_string s)) (fun r => Ok (string_of_list_ascii r)).

(** ** strings *)

Definition strings_HasSuffix (s suffix : string) : bool :=
  (String.length suffix <=? String.length s)%nat
  && String.eqb (substring (String.length s - String.length suffix)
                           (String.length suffix) s) suffix.

(** ** io: readers

    An [io.Reader] (an [fs.File], an [io.ReadCloser]) is described by what
    reading it to the end yields: the bytes it delivers, the error (other
    than EOF) that ends the reading if any, and the result of [Close]. *)

Record Reader : Type := {
  rdData : bytes;
  rdErr : option error;
  rdClose : option error
}.

Definition bytes_NewReader (data : bytes) : Reader :=
  {| rdData := data; rdErr := None; rdClose := None |}.

Definition io_ReadAll (r : Reader) : outcome bytes :=
  match rdErr r with
  | None => Ok (rdData r)
  | Some e => Err e
  end.

Definition Reader_Close (r : Reader) : outcome unit :=
  match rdClose r with
  | None => Ok tt
  | Some e => Err e
  end.

(** ** archive/zip: the source archive *)

Record zip_File : Type := {
  Name : string;
  fOpen : outcome Reader          (* f.Open() *)
}.

Record zip_Reader : Type := {
  File : list zip_File;
  Comment : string;
  Open : string -> outcome Reader (* the archive as an fs.FS *)
}.

(** ** archive/zip: the destination archive

    The writer is described by the archive it has produced so far: the
    comment, the entries in the order of their creation, each with the data
    written to it.  The underlying [io.Writer] is described by which of the
    operations reaching it fail: [wOut n] is the error of the [n]-th one. *)

Inductive zip_Method : Type := Store | Deflate.

Record zip_entry : Type := {
  hName : string;
  hMethod : zip_Method;
  body : bytes
}.

Record zip_Writer : Type := {
  wOut : nat -> option error;
  wTicks : nat;
  wComment : string;
  wDir : list zip_entry;
  wOpen : bool;                   (* w.last != nil && !w.last.closed *)
  wClosed : bool
}.

(** The [io.Writer] handed out by [CreateHeader]: [nil] on failure, a
    [fileWriter] for the entry of a given index, a [dirWriter] for a
    directory. *)
Inductive io_Writer : Type :=
| nilWriter
| fileWriter (idx : nat)
| dirWriter.

(** ** The state of one run

    [trace] records the calls [Decrypt] makes on its collaborators: the
    messages passed to the logger, the source entries it opens, and the
    entries it hands to the decryption pipeline. *)

Inductive event : Type :=
| LogMsg (msg : string)
| SrcOpen (name : string)
| DecryptFile (name : string) (alg : string).

Record world : Type := {
  outZip : option zip_Writer;
  trace : list event
}.

Definition M (A : Type) : Type := world -> outcome A * world.

Definition ret {A} (a : A) : M A := fun s => (Ok a, s).

Definition bind {A B} (c : M A) (k : A -> M B) : M B :=
  fun s =>
    match c s with
    | (Ok a, s') => k a s'
    | (Err e, s') => (Err e, s')
    | (Panic p, s') => (Panic p, s')
    end.

Definition lift {A} (x : outcome A) : M A := fun s => (x, s).

Definition wrapErrM {A} (msg : string) (c : M A) : M A :=
  fun s => let '(x, s') := c s in (wrapErr msg x, s').

Declare Scope lcp_scope.
Delimit Scope lcp_scope with lcp.
Notation "x <- c ;; k" := (bind c (fun x => k))
  (at level 100, c at next level, right associativity) : lcp_scope.
Notation "c ;;; k" := (bind c (fun _ => k))
  (at level 100, right associativity) : lcp_scope.
Local Open Scope lcp_scope.

Definition emit (e : event) : M unit :=
  fun s => (Ok tt, {| outZip := outZip s; trace := trace s ++ [e] |}).

Definition getWriter : M zip_Writer :=
  fun s => match outZip s with
           | Some w => (Ok w, s)
           | None => (Panic NilDereference, s)
           end.

Definition putWriter (w : zip_Writer) : M unit :=
  fun s => (Ok tt, {| outZip := Some w; trace := trace s |}).

Definition zip_NewWriter (out : nat -> option error) : M unit :=
  putWriter {| wOut := out; wTicks := 0; wComment := EmptyString; wDir := [];
               wOpen := false; wClosed := false |}.

Definition uint16max : N := 65535%N.

Definition SetComment (comment : string) : M unit :=
  w <- getWriter ;;
  if (uint16max <? N.of_nat (String.length comment))%N
  then lift (Err (LibError "zip" "Writer.Comment too long"))
  else putWriter {| wOut := wOut w; wTicks := wTicks w; wComment := comment;
                    wDir := wDir w; wOpen := wOpen w; wClosed := wClosed w |}.

(** One operation on the underlying [io.Writer]. *)
Definition tick : M unit :=
  w <- getWriter ;;
  putWriter {| wOut := wOut w; wTicks := S (wTicks w); wComment := wComment w;
               wDir := wDir w; wOpen := wOpen w; wClosed := wClosed w |} ;;;
  match wOut w (wTicks w) with
  | Some e => lift (Err e)
  | None => ret tt
  end.

Definition setOpen (b : bool) : M unit :=
  w <- getWriter ;;
  putWriter {| wOut := wOut w; wTicks := wTicks w; wComment := wComment w;
               wDir := wDir w; wOpen := b; wClosed := wClosed w |}.

(** [w.prepare]: the entry still open is finished first (its data
    descriptor is written). *)
Definition prepare : M unit :=
  w <- getWriter ;;
  if wOpen w then tick ;;; setOpen false else ret tt.

Definition appendEntry (e : zip_entry) : M nat :=
  w <- getWriter ;;
  putWriter {| wOut := wOut w; wTicks := wTicks w; wComment := wComment w;
               wDir := wDir w ++ [e]; wOpen := wOpen w; wClosed := wClosed w |} ;;;
  ret (length (wDir w)).

(** [Writer.CreateHeader] as a computation that fails with the error the Go
    method returns. *)
Definition createHeader (name : string) (method : zip_Method) : M io_Writer :=
  prepare ;;;
  let isDir := strings_HasSuffix name "/" in
  idx <- appendEntry {| hName := name;
                        hMethod := if isDir then Store else method;
                        body := [] |} ;;
  (if (uint16max <? N.of_nat (String.length name))%N
   then lift (Err (LibError "zip" "FileHeader.Name too long"))
   else tick) ;;;
  setOpen (negb isDir) ;;;
  ret (if isDir then dirWriter else fileWriter idx).

(** [Writer.CreateHeader] with its two results [(io.Writer, error)]. *)
Definition CreateHeader (name : string) (method : zip_Method)
  : M (io_Writer * option error) :=
  fun s =>
    match createHeader name method s with
    | (Ok h, s') => (Ok (h, None), s')
    | (Err e, s') => (Ok (nilWriter, Some e), s')
    | (Panic p, s') => (Panic p, s')
    end.

(** [Writer.Create(name)] is [CreateHeader] with method [Deflate]. *)
Definition Create (name : string) : M io_Writer := createHeader name Deflate.

Fixpoint appendBody (p : bytes) (dir : list zip_entry) : list zip_entry :=
  match dir with
  | [] => []
  | [e] => [{| hName := hName e; hMethod := hMethod e; body := body e ++ p |}]
  | e :: rest => e :: appendBody p rest
  end.

(** [dst.Write(p)]. *)
Definition Write (dst : io_Writer) (p : bytes) : M unit :=
  match dst with
  | nilWriter => lift (Panic NilDereference)
  | dirWriter =>
      match p with
      | [] => ret tt
      | _ => lift (Err (LibError "zip" "write to directory"))
      end
  | fileWriter idx =>
      w <- getWriter ;;
      if (wOpen w && Nat.eqb (S idx) (length (wDir w)))%bool then
        tick ;;;
        w <- getWriter ;;
        putWriter {| wOut := wOut w; wTicks := wTicks w; wComment := wComment w;
                     wDir := appendBody p (wDir w); wOpen := wOpen w;
                     wClosed := wClosed w |}
      else lift (Err (LibError "zip" "write to closed file"))
  end.

Definition io_WriteString (dst : io_Writer) (s : string) : M unit :=
  Write dst (list_ascii_of_string s).

(** [io.Copy(dst, src)]: what [src] delivers is written to [dst]; a source
    that delivers nothing causes no write. *)
Definition io_Copy (dst : io_Writer) (src : Reader) : M unit :=
  (match rdData src with
   | [] => ret tt
   | p => Write dst p
   end) ;;;
  match rdErr src with
  | Some e => lift (Err e)
  | None => ret tt
  end.

(** [Writer.Close]: finishes the open entry, then writes the central
    directory and flushes. *)
Definition Close : M unit :=
  prepare ;;;
  w <- getWriter ;;
  if wClosed w then lift (Err (LibError "zip" "writer closed twice"))
  else
    putWriter {| wOut := wOut w; wTicks := wTicks w; wComment := wComment w;
                 wDir := wDir w; wOpen := wOpen w; wClosed := true |} ;;;
    tick.

(** ** Package lcp *)

Definition EncryptionAlgorithm : Type := string.

Definition EncryptionAlgorithmAES256CBC : EncryptionAlgorithm :=
  "http://www.w3.org/2001/04/xmlenc#aes256-cbc".
Definition EncryptionAlgorithmFontObfuscation : EncryptionAlgorithm :=
  "http://www.idpf.org/2008/embedding".

Record FileEntry : Type := {
  Path : string;
  IsCompressed : bool;
  EncryptionAlgorithm_ : EncryptionAlgorithm
}.

(** The licence document, as far as [getContentKey] decodes it. *)
Record License : Type := {
  ID : string;
  EncryptedValue : string;        (* encryption.content_key.encrypted_value *)
  KeyCheck : string               (* encryption.user_key.key_check *)
}.

(** The encryption manifest, as far as [listEncryptedFiles] decodes it. *)
Record Compression : Type := { Method : Z }.
Record EncryptionProperty : Type := { Compression_ : list Compression }.
Record EncryptedData : Type := {
  Algorithm : string;             (* EncryptionMethod.Algorithm *)
  URI : string;                   (* CipherData.CipherReference.URI *)
  EncryptionProperty_ : list EncryptionProperty
}.
Record Encryption : Type := { EncryptedData_ : list EncryptedData }.

(** The [case] of the switch on the algorithm identifier in
    [listEncryptedFiles]. *)
Definition supportedAlgorithm (alg : string) : bool :=
  String.eqb alg EncryptionAlgorithmAES256CBC
  || String.eqb alg EncryptionAlgorithmFontObfuscation.

Definition groupFileEntriesByPath (strs : list FileEntry) : gmap string FileEntry :=
  fold_left (fun res s => <[Path s := s]> res) strs ∅.

(** The switch on [f.Name] at the head of the transcoding loop. *)
Definition skipped (name : string) : bool :=
  String.eqb name "META-INF/encryption.xml"
  || String.eqb name "META-INF/license.lcpl"
  || String.eqb name "mimetype".

Definition empty_world : world := {| outZip := None; trace := [] |}.

Section Lcp.

(** Decoders of the Go standard library that the package calls:
    [zip.NewReader], [json.NewDecoder(r).Decode], [xml.NewDecoder(r).Decode]
    and [flate.NewReader]. *)
Variable zip_NewReader : bytes -> Z -> outcome zip_Reader.
Variable json_Decode : Reader -> outcome License.
Variable xml_Decode : Reader -> outcome Encryption.
Variable flate_NewReader : Reader -> Reader.

Definition getContentKey (licenseFile : Reader) (userKey : bytes) : outcome bytes :=
  obind (wrapErr "error decoding json" (json_Decode licenseFile)) (fun license =>
  obind (wrapErr "error decoding key check" (base64_DecodeString (KeyCheck license)))
    (fun encryptedKeyCheck =>
  obind (wrapErr "error decrypting key check" (decipherAES256CBC encryptedKeyCheck userKey))
    (fun keyCheck =>
  if negb (String.eqb (string_of_list_ascii keyCheck) (ID license))
  then Err (Errorf ("decrypted key check (" ++ string_of_list_ascii keyCheck
                    ++ ") does not match license ID (" ++ ID license ++ ")"))
  else
    obind (wrapErr "error decoding content key"
             (base64_DecodeString (EncryptedValue license)))
      (fun encryptedContentKey =>
    wrapErr "error decrypting content key"
      (decipherAES256CBC encryptedContentKey userKey))))).

(** The labelled [PropertyLoop]. *)
Definition isCompressedOf (d : EncryptedData) : bool :=
  existsb (fun p => existsb (fun c => Z.eqb (Method c) 8) (Compression_ p))
          (EncryptionProperty_ d).

Fixpoint listLoop (ds : list EncryptedData) (res : list FileEntry)
  : outcome (list FileEntry) :=
  match ds with
  | [] => Ok res
  | d :: ds' =>
      match url_PathUnescape (URI d) with
      | Panic p => Panic p
      | Err e => Err (WrapQ "error decoding entry path" (URI d) e)
      | Ok path =>
          if supportedAlgorithm (Algorithm d)
          then
            listLoop ds' (res ++ [{| Path := path;
                                     IsCompressed := isCompressedOf d;
                                     EncryptionAlgorithm_ := Algorithm d |}])
          else Err (Errorf ("unsupported encryption algorithm for file "
                            ++ path ++ ": " ++ Algorithm d))
      end
  end.

Definition listEncryptedFiles (epubRoot : zip_Reader) : outcome (list FileEntry) :=
  obind (wrapErr "error opening file" (Open epubRoot "META-INF/encryption.xml"))
    (fun encFile =>
  obind (wrapErr "error decoding file" (xml_Decode encFile)) (fun encryption =>
  listLoop (EncryptedData_ encryption) [])).

Definition decryptFile (dst : io_Writer) (src : Reader) (contentKey : bytes)
    (encryptionAlgorithm : EncryptionAlgorithm) (isCompressed : bool) : M unit :=
  encryptedData <- lift (wrapErr "error reading data" (io_ReadAll src)) ;;
  decipherFunc <-
    lift (if String.eqb encryptionAlgorithm EncryptionAlgorithmAES256CBC
          then Ok decipherAES256CBC
          else if String.eqb encryptionAlgorithm EncryptionAlgorithmFontObfuscation
          then Ok decipherFontObfuscation
          else Err (Errorf ("invalid encryption algorithm: " ++ encryptionAlgorithm))) ;;
  data <- lift (wrapErr "error decrypting data" (decipherFunc encryptedData contentKey)) ;;
  let cleartextReader := bytes_NewReader data in
  let cleartextReader :=
    if isCompressed then flate_NewReader cleartextReader else cleartextReader in
  wrapErrM "error writing data" (io_Copy dst cleartextReader).

Definition log (logger : bool) (msg : string) : M unit :=
  if logger then emit (LogMsg msg) else ret tt.

(** The body of the loop over [inFile.File]. *)
Definition transcodeEntry (logger : bool) (contentKey : bytes)
    (encryptedFilesSet : gmap string FileEntry) (f : zip_File) : M unit :=
  if skipped (Name f) then ret tt
  else
    log logger ("Processing file " ++ Name f ++ "...") ;;;
    dstFile <- wrapErrM ("error appending file " ++ Name f ++ " to output zip file")
                 (Create (Name f)) ;;
    if strings_HasSuffix (Name f) "/" then ret tt
    else
      emit (SrcOpen (Name f)) ;;;
      srcFile <- lift (wrapErr ("error opening file " ++ Name f ++ " from input zip file")
                         (fOpen f)) ;;
      wrapErrM ("error copying data for file " ++ Name f ++ " to output zip file")
        (match encryptedFilesSet !! Name f with
         | Some fileEntry =>
             emit (DecryptFile (Name f) (EncryptionAlgorithm_ fileEntry)) ;;;
             decryptFile dstFile srcFile contentKey
               (EncryptionAlgorithm_ fileEntry) (IsCompressed fileEntry)
         | None => io_Copy dstFile srcFile
         end) ;;;
      lift (wrapErr ("error closing file " ++ Name f ++ " from input zip file")
              (Reader_Close srcFile)).

Fixpoint transcode (logger : bool) (contentKey : bytes)
    (encryptedFilesSet : gmap string FileEntry) (files : list zip_File) : M unit :=
  match files with
  | [] => ret tt
  | f :: rest =>
      transcodeEntry logger contentKey encryptedFilesSet f ;;;
      transcode logger contentKey encryptedFilesSet rest
  end.

(** The second half of [Decrypt], from [zip.NewWriter(out)] to the end. *)
Definition writeArchive (out : nat -> option error) (logger : bool)
    (inFile : zip_Reader) (contentKey : bytes) (encryptedFiles : list FileEntry)
  : M unit :=
  zip_NewWriter out ;;;
  wrapErrM "error setting output file comment" (SetComment (Comment inFile)) ;;;
  let encryptedFilesSet := groupFileEntriesByPath encryptedFiles in
  mimetype <- CreateHeader "mimetype" Store ;;
  let mimetypeFile := fst mimetype in
  wrapErrM "error appending mimetype file to output zip file"
    (io_WriteString mimetypeFile "application/epub+zip") ;;;
  transcode logger contentKey encryptedFilesSet (File inFile) ;;;
  wrapErrM "error finalizing output zip file" Close ;;;
  log logger "Decrypted ePUB".

(** The licence reader [getContentKey] is given: the one passed to
    [Decrypt], or else the archive's [META-INF/license.lcpl]. *)
Definition licenseSource (inFile : zip_Reader) (licenseFile : option Reader)
  : outcome Reader :=
  match licenseFile with
  | Some r => Ok r
  | None => wrapErr "error opening license file" (Open inFile "META-INF/license.lcpl")
  end.

(** [Decrypt(out, in, inSize, userKeyHex, licenseFile, opts...)].
    [licenseFile] is [None] for a nil reader; [logger] tells whether
    [WithLogger] was among the options. *)
Definition Decrypt (out : nat -> option error) (inp : bytes) (inSize : Z)
    (userKeyHex : string) (licenseFile : option Reader) (logger : bool) : M unit :=
  if String.eqb userKeyHex EmptyString then lift (Err (Errorf "user key not specified"))
  else
    userKey <- lift (wrapErr "error decoding user key" (hex_DecodeString userKeyHex)) ;;
    inFile <- lift (wrapErr "error opening input file" (zip_NewReader inp inSize)) ;;
    licenseFile <- lift (licenseSource inFile licenseFile) ;;
    contentKey <- lift (wrapErr "error getting content key"
                          (getContentKey licenseFile userKey)) ;;
    encryptedFiles <- lift (wrapErr "error listing encrypted files"
                              (listEncryptedFiles inFile)) ;;
    writeArchive out logger inFile contentKey encryptedFiles.

End Lcp.

(** ** Vocabulary of the statements about the transcoder *)

(** The source entries that get a destination entry. *)
Definition notSkipped (f : zip_File) : bool := negb (skipped (Name f)).

(** The first entry of every destination archive. *)
Definition mimetypeEntry : zip_entry :=
  {| hName := "mimetype"; hMethod := Store;
     body := list_ascii_of_string "application/epub+zip" |}.

(** The destination entry [e] is the one made from the source entry [f]:
    same name; nothing written for a directory marker; otherwise the source
    entry could be opened and, when no manifest record has its name, the
    data are the bytes its reader delivers. *)
Definition entryFor (m : gmap string FileEntry) (f : zip_File) (e : zip_entry) : Prop :=
  hName e = Name f
  /\ if strings_HasSuffix (Name f) "/"
     then hMethod e = Store /\ body e = []
     else hMethod e = Deflate
          /\ exists src, fOpen f = Ok src
                         /\ (m !! Name f = None -> body e = rdData src).

(** Reading a source entry and handing one to the decryption pipeline is
    only ever recorded for names that are not directory markers. *)
Definition eventOfFile (ev : event) : Prop :=
  match ev with
  | LogMsg _ => True
  | SrcOpen n | DecryptFile n _ => strings_HasSuffix n "/" = false
  end.

(** Sink, comment and closed flag are unchanged. *)
Definition sameArchive (wr wr' : zip_Writer) : Prop :=
  wOut wr' = wOut wr /\ wComment wr' = wComment wr /\ wClosed wr' = wClosed wr.

(** ** A sample book

    A protected EPUB with one encrypted chapter, one plain style sheet and
    a directory entry, used to exercise the definitions.  The user key is
    the AES-256 key of the FIPS-197 example vectors; the key check decrypts to the licence
    identifier [book-42]. *)

Module Sample.

Definition userKeyHex : string :=
  "000102030405060708090a0b0c0d0e0f101112131415161718191a1b1c1d1e1f".

Definition contentKey : bytes :=
  hx "603deb1015ca71be2b73aef0857d77811f352c073b6108d72d9810a30914dff4".

(** Texts are written with apostrophes in place of quotation marks. *)
Definition q (s : string) : bytes :=
  List.map (fun c => if Ascii.eqb c "'"%char then ascii_of_nat 34 else c)
           (list_ascii_of_string s).

Definition keyCheck64 : string := "Yn5NWGlhVH6BkKOyxdTn9o6it8pRZ0W/6vxJkEtJYIk=".
Definition encryptedValue64 : string :=
  "d56R+6c8upaolufvG9N7FnDHRBmYGTjdnL2Qb9s+ZX8QATIjVEV2Z5iJuqvczf7vjqK3ylFnRb/q/EmQS0lgiQ==".

Definition license : License :=
  {| ID := "book-42"; EncryptedValue := encryptedValue64; KeyCheck := keyCheck64 |}.
Definition licenseText : bytes :=
  q ("{'id':'book-42','encryption':{'content_key':{'encrypted_value':'"
     ++ encryptedValue64 ++ "'},'user_key':{'key_check':'" ++ keyCheck64 ++ "'}}}").

(** The same licence under another identifier: the key check fails. *)
Definition otherLicense : License :=
  {| ID := "book-43"; EncryptedValue := encryptedValue64; KeyCheck := keyCheck64 |}.
Definition otherLicenseText : bytes :=
  q ("{'id':'book-43','encryption':{'content_key':{'encrypted_value':'"
     ++ encryptedValue64 ++ "'},'user_key':{'key_check':'" ++ keyCheck64 ++ "'}}}").

Definition record (alg uri : string) : EncryptedData :=
  {| Algorithm := alg; URI := uri; EncryptionProperty_ := [] |}.
Definition recordText (alg uri : string) : string :=
  "<EncryptedData><EncryptionMethod Algorithm='" ++ alg
  ++ "'/><CipherData><CipherReference URI='" ++ uri
  ++ "'/></CipherData></EncryptedData>".

Definition manifest : Encryption :=
  {| EncryptedData_ := [record EncryptionAlgorithmAES256CBC "OEBPS/ch1.xhtml"] |}.
Definition manifestText : bytes :=
  q ("<encryption>" ++ recordText EncryptionAlgorithmAES256CBC "OEBPS/ch1.xhtml"
     ++ "</encryption>").

(** A manifest whose second record names an unknown algorithm. *)
Definition rc4 : string := "http://www.w3.org/2001/04/xmldsig-more#arcfour".
Definition unsupportedManifest : Encryption :=
  {| EncryptedData_ := [record EncryptionAlgorithmAES256CBC "OEBPS/ch1.xhtml";
                        record rc4 "OEBPS/ch%202.xhtml"] |}.
Definition unsupportedManifestText : bytes :=
  q ("<encryption>" ++ recordText EncryptionAlgorithmAES256CBC "OEBPS/ch1.xhtml"
     ++ recordText rc4 "OEBPS/ch%202.xhtml" ++ "</encryption>").

(** A manifest whose first record has a malformed percent escape and
    whose second record names an unknown algorithm. *)
Definition badPathManifest : Encryption :=
  {| EncryptedData_ := [record EncryptionAlgorithmAES256CBC "OEBPS/%zz.xhtml";
                        record rc4 "OEBPS/ch2.xhtml"] |}.
Definition badPathManifestText : bytes :=
  q ("<encryption>" ++ recordText EncryptionAlgorithmAES256CBC "OEBPS/%zz.xhtml"
     ++ recordText rc4 "OEBPS/ch2.xhtml" ++ "</encryption>").

Definition chapter : bytes :=
  hx "a3c0002d4e4b679b206542f8c5107d8100000000000000000000000000000000".

Definition file (name : string) (data : bytes) : zip_File :=
  {| Name := name; fOpen := Ok (bytes_NewReader data) |}.

Definition files (manifestData : bytes) : list zip_File :=
  [ file "mimetype" (list_ascii_of_string "application/epub+zip");
    file "META-INF/" [];
    file "META-INF/encryption.xml" manifestData;
    file "META-INF/license.lcpl" licenseText;
    file "OEBPS/ch1.xhtml" chapter;
    file "OEBPS/style.css" (list_ascii_of_string "p{}") ].

Definition open (fs : list zip_File) (name : string) : outcome Reader :=
  match List.find (fun f => String.eqb (Name f) name) fs with
  | Some f => fOpen f
  | None => Err (LibError "fs" "file does not exist")
  end.

Definition archive (manifestData : bytes) : zip_Reader :=
  {| File := files manifestData; Comment := "sample book";
     Open := open (files manifestData) |}.

(** Stand-ins for the decoders, defined on the documents above. *)
Definition decodeBy {A} (pkg : string) (table : list (bytes * A)) (data : bytes)
  : outcome A :=
  match List.find (fun p => String.eqb (string_of_list_ascii (fst p))
                                       (string_of_list_ascii data)) table with
  | Some p => Ok (snd p)
  | None => Err (LibError pkg "malformed document")
  end.

Definition epub (manifestData : bytes) : bytes :=
  list_ascii_of_string "PK" ++ manifestData.

Definition zip_NewReader (inp : bytes) (inSize : Z) : outcome zip_Reader :=
  decodeBy "zip" (List.map (fun m => (epub m, archive m))
                    [manifestText; unsupportedManifestText; badPathManifestText]) inp.

Definition json_Decode (r : Reader) : outcome License :=
  decodeBy "json" [(licenseText, license); (otherLicenseText, otherLicense)]
           (rdData r).

Definition xml_Decode (r : Reader) : outcome Encryption :=
  decodeBy "xml" [(manifestText, manifest);
                  (unsupportedManifestText, unsupportedManifest);
                  (badPathManifestText, badPathManifest)] (rdData r).

Definition flate_NewReader (r : Reader) : Reader :=
  {| rdData := []; rdErr := Some (LibError "flate" "corrupt input");
     rdClose := None |}.

Definition neverFails : nat -> option error := fun _ => None.

(** The test vectors of FIPS-197, appendix C. *)
Definition fipsPlain : bytes := hx "00112233445566778899aabbccddeeff".

Definition decryptBlock (key : string) (block : string) : outcome bytes :=
  obind (AES.NewCipher (hx key)) (fun b => Ok (AES.Decrypt b (hx block))).

(** An AES-128 key, and a blob (IV and one block) that decrypts under it
    to [book-42] followed by nine bytes of padding. *)
Definition key128 : bytes := hx "000102030405060708090a0b0c0d0e0f".
Definition blob128 : bytes :=
  hx "627e4d586961547e8190a3b2c5d4e7f669c4e0d86a7b0430d8cdb78070b4c55a".

(** A blob (IV and one block) whose last plaintext byte under the user
    key is larger than the plaintext. *)
Definition badPadding : bytes :=
  hx "000000000000000000000000000000008ea2b7ca516745bfeafc49904b496089".

(** A destination whose [n]-th operation fails. *)
Definition failsAt (n : nat) : nat -> option error :=
  fun k => if Nat.eqb k n then Some (LibError "io" "disk full") else None.

Definition fileEntries : list FileEntry :=
  [{| Path := "OEBPS/ch1.xhtml"; IsCompressed := false;
      EncryptionAlgorithm_ := EncryptionAlgorithmAES256CBC |}].

(** The state in which [Decrypt] creates the [mimetype] header. *)
Definition beforeMimetype (out : nat -> option error) : world :=
  {| outZip := Some {| wOut := out; wTicks := 0; wComment := "sample book";
                       wDir := []; wOpen := false; wClosed := false |};
     trace := [] |}.

(** [Decrypt] on the sample book with the embedded licence. *)
Definition runOn (out : nat -> option error) (manifestData : bytes)
    (licenseFile : option Reader) : outcome unit * world :=
  Decrypt zip_NewReader json_Decode xml_Decode flate_NewReader
    out (epub manifestData) 0 userKeyHex licenseFile true empty_world.

Definition run (manifestData : bytes) (licenseFile : option Reader)
  : outcome unit * world :=
  runOn neverFails manifestData licenseFile.

End Sample.

(** ** Vocabulary of the statements about decrypted entries *)

(** The strategy the switch of [decryptFile] selects. *)
Definition decipherFor (alg : EncryptionAlgorithm)
  : option (bytes -> bytes -> outcome bytes) :=
  if String.eqb alg EncryptionAlgorithmAES256CBC then Some decipherAES256CBC
  else if String.eqb alg EncryptionAlgorithmFontObfuscation
  then Some decipherFontObfuscation
  else None.

(** The reader [decryptFile] copies to the destination: the deciphered
    data, behind [flate.NewReader] when the entry is marked compressed. *)
Definition cleartextOf (flate_NewReader : Reader -> Reader) (isCompressed : bool)
    (data : bytes) : Reader :=
  if isCompressed then flate_NewReader (bytes_NewReader data) else bytes_NewReader data.

(** The manifest record [d] was turned into the entry [fe]. *)
Definition parsedAs (d : EncryptedData) (fe : FileEntry) : Prop :=
  url_PathUnescape (URI d) = Ok (Path fe)
  /\ EncryptionAlgorithm_ fe = Algorithm d
  /\ supportedAlgorithm (Algorithm d) = true
  /\ IsCompressed fe = isCompressedOf d.

(** The destination entry [e] is exactly the one a successful run makes
    from the source entry [f]. *)
Definition entryOf (flate_NewReader : Reader -> Reader) (contentKey : bytes)
    (m : gmap string FileEntry) (f : zip_File) (e : zip_entry) : Prop :=
  hName e = Name f
  /\ if strings_HasSuffix (Name f) "/"
     then hMethod e = Store /\ body e = []
     else hMethod e = Deflate
          /\ exists src,
              fOpen f = Ok src /\ rdErr src = None /\ rdClose src = None
              /\ match m !! Name f with
                 | None => body e = rdData src
                 | Some fe =>
                     exists decipherFunc data,
                       decipherFor (EncryptionAlgorithm_ fe) = Some decipherFunc
                       /\ decipherFunc (rdData src) contentKey = Ok data
                       /\ rdErr (cleartextOf flate_NewReader (IsCompressed fe) data) = None
                       /\ body e = rdData (cleartextOf flate_NewReader
                                                       (IsCompressed fe) data)
                 end.

(** What a successful run records for the source entry [f]. *)
Definition eventsOf (logger : bool) (m : gmap string FileEntry) (f : zip_File)
  : list event :=
  if skipped (Name f) then []
  else
    (if logger then [LogMsg ("Processing file " ++ Name f ++ "...")] else [])
    ++ (if strings_HasSuffix (Name f) "/" then []
        else SrcOpen (Name f)
             :: match m !! Name f with
                | Some fe => [DecryptFile (Name f) (EncryptionAlgorithm_ fe)]
                | None => []
                end).

(** ** A second sample book

    The book of [Sample] with a chapter that was deflated before it was
    encrypted, a font under the font-obfuscation algorithm whose manifest
    path needs percent-decoding, and a manifest record for a file the
    archive does not hold. *)

Module Book.

(** A raw DEFLATE stream made of one final stored block: the byte 1, the
    length and its complement (two bytes each, low byte first), the data.
    The stand-in for [flate.NewReader] inflates such streams and no
    others. *)
Definition inflateStored (data : bytes) : option bytes :=
  match data with
  | b0 :: l0 :: l1 :: n0 :: n1 :: rest =>
      let len := (N_of_ascii l0 + 256 * N_of_ascii l1)%N in
      let nlen := (N_of_ascii n0 + 256 * N_of_ascii n1)%N in
      if ((N_of_ascii b0 =? 1) && (len + nlen =? 65535)
          && (N.of_nat (length rest) =? len))%N
      then Some rest
      else None
  | _ => None
  end.

Definition flate_NewReader (r : Reader) : Reader :=
  match inflateStored (rdData r) with
  | Some data => bytes_NewReader data
  | None => {| rdData := []; rdErr := Some (LibError "flate" "corrupt input");
               rdClose := None |}
  end.

Definition compressedChapter : bytes :=
  hx "9eb93e93d84b38d5560b79d0b229788400000000000000000000000000000000".

Definition font : bytes := list_ascii_of_string "OTTO".

Definition method8 : list EncryptionProperty :=
  [{| Compression_ := [{| Method := 8 |}] |}].

Definition manifest : Encryption :=
  {| EncryptedData_ :=
       [ {| Algorithm := EncryptionAlgorithmAES256CBC; URI := "OEBPS/ch1.xhtml";
            EncryptionProperty_ := method8 |};
         {| Algorithm := EncryptionAlgorithmFontObfuscation;
            URI := "OEBPS/fonts/a%20b.otf"; EncryptionProperty_ := [] |};
         {| Algorithm := EncryptionAlgorithmAES256CBC; URI := "OEBPS/missing.xhtml";
            EncryptionProperty_ := [] |} ] |}.

Definition manifestText : bytes :=
  Sample.q ("<encryption><EncryptedData><EncryptionMethod Algorithm='"
            ++ EncryptionAlgorithmAES256CBC
            ++ "'/><CipherData><CipherReference URI='OEBPS/ch1.xhtml'/></CipherData>"
            ++ "<EncryptionProperties><EncryptionProperty>"
            ++ "<Compression Method='8' OriginalLength='9'/>"
            ++ "</EncryptionProperty></EncryptionProperties></EncryptedData>"
            ++ Sample.recordText EncryptionAlgorithmFontObfuscation "OEBPS/fonts/a%20b.otf"
            ++ Sample.recordText EncryptionAlgorithmAES256CBC "OEBPS/missing.xhtml"
            ++ "</encryption>").

Definition fileEntries : list FileEntry :=
  [ {| Path := "OEBPS/ch1.xhtml"; IsCompressed := true;
       EncryptionAlgorithm_ := EncryptionAlgorithmAES256CBC |};
    {| Path := "OEBPS/fonts/a b.otf"; IsCompressed := false;
       EncryptionAlgorithm_ := EncryptionAlgorithmFontObfuscation |};
    {| Path := "OEBPS/missing.xhtml"; IsCompressed := false;
       EncryptionAlgorithm_ := EncryptionAlgorithmAES256CBC |} ].

Definition files : list zip_File :=
  [ Sample.file "mimetype" (list_ascii_of_string "application/epub+zip");
    Sample.file "META-INF/encryption.xml" manifestText;
    Sample.file "META-INF/license.lcpl" Sample.licenseText;
    Sample.file "OEBPS/" [];
    Sample.file "OEBPS/ch1.xhtml" compressedChapter;
    Sample.file "OEBPS/fonts/a b.otf" font;
    Sample.file "OEBPS/style.css" (list_ascii_of_string "p{}") ].

Definition archive : zip_Reader :=
  {| File := files; Comment := "second book"; Open := Sample.open files |}.

Definition epub : bytes := list_ascii_of_string "PK2".

Definition zip_NewReader (inp : bytes) (inSize : Z) : outcome zip_Reader :=
  Sample.decodeBy "zip" [(epub, archive)] inp.

Definition xml_Decode (r : Reader) : outcome Encryption :=
  Sample.decodeBy "xml" [(manifestText, manifest)] (rdData r).

(** [Decrypt] on the second book, with or without a logger. *)
Definition run (logger : bool) : outcome unit * world :=
  Decrypt zip_NewReader Sample.json_Decode xml_Decode flate_NewReader
    Sample.neverFails epub 3 Sample.userKeyHex None logger empty_world.

End Book.

(** ** Vocabulary of the statement on when [Decrypt] succeeds *)

(** The destination writer exists, is not closed, its sink never fails;
    [o] tells whether an entry is open for data and [n] is the number of
    entries. *)
Definition writerState (s : world) (o : bool) (n : nat) : Prop :=
  exists wr, outZip s = Some wr
             /\ (forall k, wOut wr k = None)
             /\ wClosed wr = false
             /\ wOpen wr = o
             /\ length (wDir wr) = n.

(** The source entry [f] can be transcoded: its name fits a ZIP header
    and, unless it is a directory marker, it opens, reads and closes without
    error and, when the manifest lists it, its bytes decipher under the
    content key and the cleartext reader (inflating, if marked compressed)
    reads without error. *)
Definition entryReady (flate_NewReader : Reader -> Reader) (contentKey : bytes)
    (m : gmap string FileEntry) (f : zip_File) : Prop :=
  (N.of_nat (String.length (Name f)) <= uint16max)%N
  /\ (strings_HasSuffix (Name f) "/" = false ->
      exists src,
        fOpen f = Ok src /\ rdErr src = None /\ rdClose src = None
        /\ forall fe, m !! Name f = Some fe ->
             exists decipherFunc data,
               decipherFor (EncryptionAlgorithm_ fe) = Some decipherFunc
               /\ decipherFunc (rdData src) contentKey = Ok data
               /\ rdErr (cleartextOf flate_NewReader (IsCompressed fe) data) = None).

(** ** The wasm bridge: the table of handles

    [handles] maps the address of the first byte of a buffer to the buffer.
    A [*byte] is nil or an address; the address of a non-empty buffer is
    chosen by the allocator and is a parameter here. *)

Module Wasm.

Abbreviation ptr := (option positive).

Definition newHandle (addr : positive) (b : bytes) (handles : gmap ptr bytes)
  : ptr * gmap ptr bytes :=
  match b with
  | [] => (None, handles)
  | _ => (Some addr, <[Some addr := b]> handles)
  end.

(** [make([]byte, size)] panics for a negative size. *)
Definition newBytes (addr : positive) (size : Z) (handles : gmap ptr bytes)
  : outcome (ptr * gmap ptr bytes) :=
  if Z.eqb size 0 then Ok (None, handles)
  else if Z.ltb size 0 then Panic (PanicMsg "makeslice: len out of range")
  else Ok (newHandle addr (repeat zero (Z.to_nat size)) handles).

Definition freeBytes (p : ptr) (handles : gmap ptr bytes) : gmap ptr bytes :=
  delete p handles.

(** [len(handles[ptr])]; a missing key yields the nil slice. *)
Definition bytesSize (p : ptr) (handles : gmap ptr bytes) : Z :=
  Z.of_nat (length (default [] (handles !! p))).

(** What the table satisfies at all times: nil is no key and no registered
    buffer is empty. *)
Definition wellFormed (handles : gmap ptr bytes) : Prop :=
  handles !! None = None
  /\ forall p b, handles !! p = Some b -> b <> [].

End Wasm.

(** ** The command-line program ([cmd/lcp-decrypt])

    The file system is a map from paths to contents.  An open file is read
    when it is used, so what [Decrypt] reads is the content after the output
    file was created.  The bytes written into the output file are not kept
    in the map: they are the archive of the final [world]. *)

Module Cli.

(** What the operating system may refuse, apart from opening a file that
    does not exist. *)
Record Env : Type := {
  openErr : string -> option error;    (* os.Open *)
  statErr : option error;              (* inFd.Stat *)
  createErr : string -> option error;  (* os.Create *)
  removeFails : bool;                  (* os.Remove, whose error is ignored *)
  syncErr : option error;              (* outFd.Sync *)
  outSink : nat -> option error        (* writes to the output file *)
}.

Definition os_Open (env : Env) (fs : gmap string bytes) (name : string) : option error :=
  match openErr env name with
  | Some e => Some e
  | None =>
      match fs !! name with
      | Some _ => None
      | None => Some (LibError "os" "no such file or directory")
      end
  end.

Definition readFile (fs : gmap string bytes) (name : string) : bytes :=
  default [] (fs !! name).

(** [licenseFd] when no licence file is named: a nil [*os.File].  Passed as
    an [io.Reader] it is an interface value that is not nil, whose [Read]
    and [Close] return [os.ErrInvalid]. *)
Definition nilFile : Reader :=
  {| rdData := []; rdErr := Some (LibError "os" "invalid argument");
     rdClose := Some (LibError "os" "invalid argument") |}.

Section Run.

Variable zip_NewReader : bytes -> Z -> outcome zip_Reader.
Variable json_Decode : Reader -> outcome License.
Variable xml_Decode : Reader -> outcome Encryption.
Variable flate_NewReader : Reader -> Reader.

(** [run], with the values of the flags and arguments: [-userKey],
    [-licenseFile], and the two file names. *)
Definition run (env : Env) (userKeyHex licenseFileName inFilename outFilename : string)
    (fs : gmap string bytes) : outcome unit * gmap string bytes * world :=
  if String.eqb inFilename EmptyString
  then (Err (Errorf "no input file specified"), fs, empty_world)
  else if String.eqb outFilename EmptyString
  then (Err (Errorf "no output file specified"), fs, empty_world)
  else
    match os_Open env fs inFilename with
    | Some e => (Err (Wrap "error opening input file" e), fs, empty_world)
    | None =>
        match statErr env with
        | Some e => (Err (Wrap "error stating input file" e), fs, empty_world)
        | None =>
            let inSize := Z.of_nat (length (readFile fs inFilename)) in
            match createErr env outFilename with
            | Some e => (Err (Wrap "error creating output file" e), fs, empty_world)
            | None =>
                let fs1 := <[outFilename := []]> fs in
                let licenseFd :=
                  if String.eqb licenseFileName EmptyString then Ok nilFile
                  else
                    match os_Open env fs1 licenseFileName with
                    | Some e => Err (Wrap "error opening license file" e)
                    | None => Ok (bytes_NewReader (readFile fs1 licenseFileName))
                    end in
                match licenseFd with
                | Err e => (Err e, fs1, empty_world)
                | Panic p => (Panic p, fs1, empty_world)
                | Ok licenseFd =>
                    let '(r, w) :=
                      Decrypt zip_NewReader json_Decode xml_Decode flate_NewReader
                        (outSink env) (readFile fs1 inFilename) inSize userKeyHex
                        (Some licenseFd) true empty_world in
                    match r with
                    | Err e =>
                        (Err (Wrap "error decrypting file" e),
                         if removeFails env then fs1 else delete outFilename fs1, w)
                    | Panic p => (Panic p, fs1, w)
                    | Ok _ =>
                        match syncErr env with
                        | Some e => (Err (Wrap "error flushing output file" e), fs1, w)
                        | None => (Ok tt, fs1, w)
                        end
                    end
                end
            end
        end
    end.

End Run.

(** A sample: nothing is refused; the working directory holds the second
    sample book, a licence file, and an older output. *)
Definition permissive : Env :=
  {| openErr := fun _ => None; statErr := None; createErr := fun _ => None;
     removeFails := false; syncErr := None; outSink := fun _ => None |}.

Definition disk : gmap string bytes :=
  <["book.epub" := Book.epub]>
    (<["book.lcpl" := Sample.licenseText]>
       (<["out.epub" := list_ascii_of_string "an older output"]> ∅)).

(** A JSON decoder that fails with the error of the reader, as
    [json.Decoder] does when the first [Read] fails. *)
Definition json_Decode (r : Reader) : outcome License :=
  match rdErr r with
  | Some e => Err e
  | None => Sample.json_Decode r
  end.

Definition runSample (userKeyHex licenseFileName : string)
  : outcome unit * gmap string bytes * world :=
  run Book.zip_NewReader json_Decode Book.xml_Decode Book.flate_NewReader
      permissive userKeyHex licenseFileName "book.epub" "out.epub" disk.

End Cli.

(** ** The first program ([main.go])

    The program at the root of the repository reads the licence from the
    book itself and lists the encrypted files as a set of names. *)

Module Main.

(** [stringSet]: the map with a key for every string of the list. *)
Definition stringSet (strs : list string) : gmap string unit :=
  fold_left (fun res s => <[s := tt]> res) strs ∅.

Section GetContentKey.

Variable json_Decode : Reader -> outcome License.

(** [getContentKey(epubRoot, userKey)]; the error of the key check's
    decryption is not wrapped (the format has no verb for it). *)
Definition getContentKey (epubRoot : zip_Reader) (userKey : bytes) : outcome bytes :=
  obind (wrapErr "error opening license file" (Open epubRoot "META-INF/license.lcpl"))
    (fun licenseFile =>
  obind (wrapErr "error decoding json" (json_Decode licenseFile)) (fun license =>
  obind (wrapErr "error decoding key check" (base64_DecodeString (KeyCheck license)))
    (fun encryptedKeyCheck =>
  obind (match decipher encryptedKeyCheck userKey with
         | Err _ => Err (Errorf "error decrypting key check")
         | r => r
         end)
    (fun keyCheck =>
  if negb (String.eqb (string_of_list_ascii keyCheck) (ID license))
  then Err (Errorf ("decrypted key check (" ++ string_of_list_ascii keyCheck
                    ++ ") does not match license ID (" ++ ID license ++ ")"))
  else
    obind (wrapErr "error decoding content key"
             (base64_DecodeString (EncryptedValue license)))
      (fun encryptedContentKey =>
    wrapErr "error decrypting content key"
      (decipher encryptedContentKey userKey)))))).

End GetContentKey.

End Main.

(** The way of [Decrypt] to the content key when it is given no licence
    file: the licence is opened inside the book and handed to
    [getContentKey]. *)
Definition embeddedKey (json_Decode : Reader -> outcome License)
    (inFile : zip_Reader) (userKey : bytes) : outcome bytes :=
  obind (licenseSource inFile None) (fun lic => getContentKey json_Decode lic userKey).

(** * Properties *)

(** ** The embedded cipher agrees with FIPS-197, appendix C *)

Example fips197_vector_aes128 :
  Sample.decryptBlock "000102030405060708090a0b0c0d0e0f"
               "69c4e0d86a7b0430d8cdb78070b4c55a" = Ok Sample.fipsPlain.
Proof. vm_compute. reflexivity. Qed.

Example fips197_vector_aes192 :
  Sample.decryptBlock "000102030405060708090a0b0c0d0e0f1011121314151617"
               "dda97ca4864cdfe06eaf70a0ec0d7191" = Ok Sample.fipsPlain.
Proof. vm_compute. reflexivity. Qed.

Example fips197_vector_aes256 :
  Sample.decryptBlock Sample.userKeyHex "8ea2b7ca516745bfeafc49904b496089" = Ok Sample.fipsPlain.
Proof. vm_compute. reflexivity. Qed.

Example sample_key_check :
  obind (base64_DecodeString Sample.keyCheck64)
        (fun blob => decipherAES256CBC blob (hx Sample.userKeyHex))
  = Ok (list_ascii_of_string "book-42").
Proof. vm_compute. reflexivity. Qed.

Example sample_content_key :
  obind (base64_DecodeString Sample.encryptedValue64)
        (fun blob => decipherAES256CBC blob (hx Sample.userKeyHex))
  = Ok Sample.contentKey.
Proof. vm_compute. reflexivity. Qed.

Example sample_chapter :
  decipherAES256CBC Sample.chapter Sample.contentKey
  = Ok (list_ascii_of_string "<p>Hi</p>").
Proof. vm_compute. reflexivity. Qed.

(** ** Cipher strategies *)

Lemma NewCipher_ok_iff (key : bytes) :
  (exists b, AES.NewCipher key = Ok b)
  <-> (length key = 16 \/ length key = 24 \/ length key = 32)%nat.
Proof.
  unfold AES.NewCipher. split.
  - intros [b Hb].
    destruct (Nat.eqb_spec (length key) 16); [tauto|].
    destruct (Nat.eqb_spec (length key) 24); [tauto|].
    destruct (Nat.eqb_spec (length key) 32); [tauto|].
    discriminate.
  - intros [-> | [-> | ->]]; eexists; reflexivity.
Qed.

Lemma NewCipher_bad_length (key : bytes) :
  length key <> 16%nat -> length key <> 24%nat -> length key <> 32%nat ->
  AES.NewCipher key = Err (KeySizeError (length key)).
Proof.
  intros H16 H24 H32. unfold AES.NewCipher.
  destruct (Nat.eqb_spec (length key) 16); [contradiction|].
  destruct (Nat.eqb_spec (length key) 24); [contradiction|].
  destruct (Nat.eqb_spec (length key) 32); [contradiction|].
  reflexivity.
Qed.

(** What [decipherAES256CBC] does once the cipher exists and the blob is an
    IV followed by at least one whole block. *)
Lemma decipher_full_blocks (data key : bytes) (b : AES.Block) :
  AES.NewCipher key = Ok b ->
  (16 < length data)%nat ->
  (length data mod 16 = 0)%nat ->
  let res := cbcBlocks b ((length data - 16) / 16) (firstn 16 data) (skipn 16 data) in
  decipherAES256CBC data key =
    obind (lastByte res) (fun pb =>
      let paddingLen := nat_of_ascii pb in
      if Nat.ltb (length res) paddingLen
      then Err (Errorf ("invalid padding length " ++ pretty paddingLen
                        ++ " (data length is " ++ pretty (length res) ++ ")"))
      else Ok (firstn (length res - paddingLen) res)).
Proof.
  intros Hk Hlen Hmod res. unfold decipherAES256CBC.
  rewrite Hk. cbn [wrapErr obind]. unfold splitAt, AES.BlockSize.
  destruct (Nat.ltb_spec (length data) 16); [lia|]. cbn [obind].
  destruct (Nat.eqb_spec (length data) 0); [lia|].
  unfold NewCBCDecrypter, AES.BlockSize.
  rewrite length_firstn, Nat.min_l by lia. cbn [Nat.eqb obind].
  unfold CryptBlocks, AES.BlockSize. cbn [cbcBlock cbcIV].
  rewrite length_skipn.
  assert (Hm : ((length data - 16) mod 16 = 0)%nat).
  { replace (length data) with ((length data - 16) + 1 * 16)%nat in Hmod by lia.
    rewrite Nat.Div0.mod_add in Hmod. exact Hmod. }
  rewrite Hm. cbn [Nat.eqb negb]. rewrite Nat.ltb_irrefl.
  destruct (Nat.eqb_spec (length data - 16) 0); [lia|].
  rewrite Nat.sub_diag. cbn [repeat]. rewrite app_nil_r.
  cbn [obind]. reflexivity.
Qed.

Lemma decipher_same (data key : bytes) :
  decipher data key = decipherAES256CBC data key.
Proof. reflexivity. Qed.

Lemma decipher_short (data key : bytes) (b : AES.Block) :
  AES.NewCipher key = Ok b ->
  (length data < 16)%nat ->
  decipherAES256CBC data key = Panic SliceBoundsOutOfRange.
Proof.
  intros Hk Hlen. unfold decipherAES256CBC.
  rewrite Hk. cbn [wrapErr obind]. unfold splitAt, AES.BlockSize.
  destruct (Nat.ltb_spec (length data) 16); [reflexivity | lia].
Qed.

Lemma decipher_one_block (data key : bytes) (b : AES.Block) :
  AES.NewCipher key = Ok b ->
  length data = 16%nat ->
  decipherAES256CBC data key = Panic IndexOutOfRange.
Proof.
  intros Hk Hlen. unfold decipherAES256CBC.
  rewrite Hk. cbn [wrapErr obind]. unfold splitAt, AES.BlockSize.
  destruct (Nat.ltb_spec (length data) 16); [lia|]. cbn [obind].
  destruct (Nat.eqb_spec (length data) 0); [lia|].
  unfold NewCBCDecrypter, AES.BlockSize.
  rewrite length_firstn, Nat.min_l by lia. cbn [Nat.eqb obind].
  assert (Hs : skipn 16 data = []).
  { apply length_zero_iff_nil. rewrite length_skipn. lia. }
  rewrite Hs. reflexivity.
Qed.

Lemma decipher_ragged (data key : bytes) (b : AES.Block) :
  AES.NewCipher key = Ok b ->
  (16 <= length data)%nat ->
  (length data mod 16 <> 0)%nat ->
  decipherAES256CBC data key = Panic (PanicMsg "crypto/cipher: input not full blocks").
Proof.
  intros Hk Hlen Hmod. unfold decipherAES256CBC.
  rewrite Hk. cbn [wrapErr obind]. unfold splitAt, AES.BlockSize.
  destruct (Nat.ltb_spec (length data) 16); [lia|]. cbn [obind].
  destruct (Nat.eqb_spec (length data) 0); [lia|].
  unfold NewCBCDecrypter, AES.BlockSize.
  rewrite length_firstn, Nat.min_l by lia. cbn [Nat.eqb obind].
  unfold CryptBlocks, AES.BlockSize. rewrite length_skipn.
  assert (Hm : ((length data - 16) mod 16 <> 0)%nat).
  { intros Hm. apply Hmod.
    replace (length data) with ((length data - 16) + 1 * 16)%nat by lia.
    rewrite Nat.Div0.mod_add. exact Hm. }
  destruct (Nat.eqb_spec ((length data - 16) mod 16) 0); [contradiction|].
  reflexivity.
Qed.

(** C1 (code defect): once the cipher exists, a blob of an IV and whole
    blocks whose last plaintext byte exceeds the plaintext length yields the
    invalid-padding error; but the operation panics on every blob shorter
    than one block, on every blob of exactly one block, and on every blob
    that is not a whole number of blocks. *)
Theorem decipherAES256CBC_padding_and_panics (key : bytes) (b : AES.Block) :
  AES.NewCipher key = Ok b ->
  (forall data pb,
      (16 < length data)%nat -> (length data mod 16 = 0)%nat ->
      let res := cbcBlocks b ((length data - 16) / 16) (firstn 16 data) (skipn 16 data) in
      lastByte res = Ok pb ->
      (length res < nat_of_ascii pb)%nat ->
      decipherAES256CBC data key =
        Err (Errorf ("invalid padding length " ++ pretty (nat_of_ascii pb)
                     ++ " (data length is " ++ pretty (length res) ++ ")")))
  /\ (forall data, (length data < 16)%nat ->
        decipherAES256CBC data key = Panic SliceBoundsOutOfRange)
  /\ (forall data, length data = 16%nat ->
        decipherAES256CBC data key = Panic IndexOutOfRange)
  /\ (forall data, (16 <= length data)%nat -> (length data mod 16 <> 0)%nat ->
        decipherAES256CBC data key
        = Panic (PanicMsg "crypto/cipher: input not full blocks")).
Proof.
  intros Hk. repeat split.
  - intros data pb Hlen Hmod res Hpb Hpad.
    rewrite (decipher_full_blocks data key b Hk Hlen Hmod).
    fold res. rewrite Hpb. cbn [obind].
    destruct (Nat.ltb_spec (length res) (nat_of_ascii pb)); [reflexivity | lia].
  - intros data. apply decipher_short with b. exact Hk.
  - intros data. apply decipher_one_block with b. exact Hk.
  - intros data. apply decipher_ragged with b. exact Hk.
Qed.

Lemma decipherAES256CBC_padding_and_panics_witness :
  decipherAES256CBC Sample.badPadding (hx Sample.userKeyHex)
    = Err (Errorf "invalid padding length 255 (data length is 16)")
  /\ decipherAES256CBC (list_ascii_of_string "short") (hx Sample.userKeyHex)
     = Panic SliceBoundsOutOfRange
  /\ decipherAES256CBC (repeat zero 16) (hx Sample.userKeyHex)
     = Panic IndexOutOfRange
  /\ decipherAES256CBC (repeat zero 17) (hx Sample.userKeyHex)
     = Panic (PanicMsg "crypto/cipher: input not full blocks").
Proof.
  destruct (decipherAES256CBC_padding_and_panics (hx Sample.userKeyHex) _ eq_refl)
    as (Hpad & Hshort & Hone & Hragged).
  split; [| split; [| split]].
  - apply (Hpad Sample.badPadding (ascii_of_nat 255)).
    + apply Nat.ltb_lt. vm_compute. reflexivity.
    + vm_compute. reflexivity.
    + vm_compute. reflexivity.
    + apply Nat.ltb_lt. vm_compute. reflexivity.
  - apply Hshort. apply Nat.ltb_lt. vm_compute. reflexivity.
  - apply Hone. vm_compute. reflexivity.
  - apply Hragged.
    + apply Nat.leb_le. vm_compute. reflexivity.
    + vm_compute. discriminate.
Defined.

(** C2 (code defect): for every key the cipher constructor accepts, the
    empty blob makes [decipherAES256CBC] panic: the slice expressions come
    before the test for the empty blob. *)
Theorem decipherAES256CBC_empty_blob (key : bytes) (b : AES.Block) :
  AES.NewCipher key = Ok b ->
  decipherAES256CBC [] key = Panic SliceBoundsOutOfRange
  /\ decipher [] key = Panic SliceBoundsOutOfRange.
Proof.
  intros Hk.
  assert (H : decipherAES256CBC [] key = Panic SliceBoundsOutOfRange).
  { apply decipher_short with b; [exact Hk|]. cbn. lia. }
  split; [exact H|]. rewrite decipher_same. exact H.
Qed.

Lemma decipherAES256CBC_empty_blob_witness :
  (exists b, AES.NewCipher (hx Sample.userKeyHex) = Ok b)
  /\ decipherAES256CBC [] (hx Sample.userKeyHex) = Panic SliceBoundsOutOfRange
  /\ decipher [] (hx Sample.userKeyHex) = Panic SliceBoundsOutOfRange.
Proof.
  split; [eexists; reflexivity|].
  exact (decipherAES256CBC_empty_blob (hx Sample.userKeyHex) _ eq_refl).
Defined.

(** C8: the font-obfuscation strategy returns its data unchanged, without
    error, whatever the key. *)
Theorem decipherFontObfuscation_identity (data key : bytes) :
  decipherFontObfuscation data key = Ok data.
Proof. reflexivity. Qed.

(** C9, as stated, fails: a 16-byte key is accepted and decrypts. *)
Lemma decipherAES256CBC_key_not_32_decrypts :
  ~ (forall data key : bytes,
        length key <> 32%nat -> exists e, decipherAES256CBC data key = Err e).
Proof.
  intros H.
  destruct (H Sample.blob128 Sample.key128) as [e He].
  - vm_compute. discriminate.
  - vm_compute in He. discriminate.
Qed.

(** C9 (amended): a key whose length is none of 16, 24 and 32 makes the
    decipher operation fail with the key-size error of the cipher
    constructor, whatever the data. *)
Theorem decipherAES256CBC_key_length (data key : bytes) :
  length key <> 16%nat -> length key <> 24%nat -> length key <> 32%nat ->
  decipherAES256CBC data key
  = Err (Wrap "error creating cipher" (KeySizeError (length key))).
Proof.
  intros H16 H24 H32. unfold decipherAES256CBC.
  rewrite NewCipher_bad_length by assumption. reflexivity.
Qed.

Lemma decipherAES256CBC_key_length_witness :
  decipherAES256CBC Sample.chapter (list_ascii_of_string "too short")
  = Err (Wrap "error creating cipher" (KeySizeError 9)).
Proof.
  apply (decipherAES256CBC_key_length Sample.chapter (list_ascii_of_string "too short"));
    cbn; lia.
Defined.

(** ** The encryption manifest *)

Lemma unescapePath_returns (n : nat) :
  forall s, (length s <= n)%nat -> forall p, unescapePath s <> Panic p.
Proof.
  induction n as [|n IH]; intros s Hlen p.
  - destruct s; [discriminate | cbn in Hlen; lia].
  - destruct s as [|c rest]; [discriminate|].
    cbn [unescapePath]. cbn in Hlen.
    destruct (Ascii.eqb c "%"%char).
    + destruct rest as [|a [|b rest']]; try discriminate.
      destruct (fromHexChar a); [| discriminate].
      destruct (fromHexChar b); [| discriminate].
      destruct (unescapePath rest') eqn:E; try discriminate.
      exfalso. apply (IH rest' ltac:(cbn in Hlen; lia) p0). exact E.
    + destruct (unescapePath rest) eqn:E; try discriminate.
      exfalso. apply (IH rest ltac:(lia) p0). exact E.
Qed.

Lemma url_PathUnescape_returns (s : string) (p : panic) :
  url_PathUnescape s <> Panic p.
Proof.
  unfold url_PathUnescape.
  destruct (unescapePath (list_ascii_of_string s)) eqn:E; try discriminate.
  exfalso. exact (unescapePath_returns _ _ (Nat.le_refl _) _ E).
Qed.

Lemma listLoop_unsupported_fails (ds : list EncryptedData) :
  forall res d,
    In d ds -> supportedAlgorithm (Algorithm d) = false ->
    exists e, listLoop ds res = Err e.
Proof.
  induction ds as [|d0 ds IH]; intros res d Hin Hd; [destruct Hin|].
  cbn [listLoop].
  destruct (url_PathUnescape (URI d0)) as [path|e|p] eqn:E.
  - destruct (supportedAlgorithm (Algorithm d0)) eqn:Es.
    + destruct Hin as [-> | Hin]; [congruence|]. eapply IH; eassumption.
    + eexists; reflexivity.
  - eexists; reflexivity.
  - exfalso. exact (url_PathUnescape_returns _ _ E).
Qed.

Lemma listLoop_first_unsupported (pre post : list EncryptedData) (d : EncryptedData)
      (path : string) :
  Forall (fun x => supportedAlgorithm (Algorithm x) = true) pre ->
  Forall (fun x => exists p, url_PathUnescape (URI x) = Ok p) pre ->
  supportedAlgorithm (Algorithm d) = false ->
  url_PathUnescape (URI d) = Ok path ->
  forall res,
    listLoop (pre ++ d :: post) res
    = Err (Errorf ("unsupported encryption algorithm for file "
                   ++ path ++ ": " ++ Algorithm d)).
Proof.
  intros Hsup Hdec Hd Hpath.
  induction pre as [|x pre IH]; intros res; cbn [app listLoop].
  - rewrite Hpath, Hd. reflexivity.
  - inversion Hsup as [|? ? Hx Hsup']; subst.
    inversion Hdec as [|? ? [p Hp] Hdec']; subst.
    rewrite Hp, Hx. apply IH; assumption.
Qed.

Lemma listLoop_first_undecodable (pre post : list EncryptedData) (x : EncryptedData)
      (e : error) :
  Forall (fun y => supportedAlgorithm (Algorithm y) = true) pre ->
  Forall (fun y => exists p, url_PathUnescape (URI y) = Ok p) pre ->
  url_PathUnescape (URI x) = Err e ->
  forall res,
    listLoop (pre ++ x :: post) res
    = Err (WrapQ "error decoding entry path" (URI x) e).
Proof.
  intros Hsup Hdec Hx.
  induction pre as [|y pre IH]; intros res; cbn [app listLoop].
  - rewrite Hx. reflexivity.
  - inversion Hsup as [|? ? Hy Hsup']; subst.
    inversion Hdec as [|? ? [p Hp] Hdec']; subst.
    rewrite Hp, Hy. apply IH; assumption.
Qed.

(** ** The state monad and the destination archive *)

Lemma bind_Ok {A B} (c : M A) (k : A -> M B) s b s'' :
  bind c k s = (Ok b, s'') ->
  exists a s', c s = (Ok a, s') /\ k a s' = (Ok b, s'').
Proof.
  unfold bind. destruct (c s) as [[a|e|p] s']; intros H; try discriminate.
  exists a, s'. split; [reflexivity | exact H].
Qed.

Lemma wrapErrM_Ok {A} msg (c : M A) s a s' :
  wrapErrM msg c s = (Ok a, s') -> c s = (Ok a, s').
Proof.
  unfold wrapErrM. destruct (c s) as [[a0|e|p] s0]; cbn; intros H; congruence.
Qed.

Lemma lift_Ok {A} (x : outcome A) s a s' :
  lift x s = (Ok a, s') -> x = Ok a /\ s' = s.
Proof. unfold lift. intros H. injection H as -> ->. split; reflexivity. Qed.

Lemma wrapErr_Ok {A} msg (x : outcome A) a : wrapErr msg x = Ok a -> x = Ok a.
Proof. destruct x; cbn; congruence. Qed.

Ltac mops := unfold prepare, tick, setOpen, appendEntry, getWriter, putWriter, bind, ret, lift in *.

Lemma prepare_Ok s s' :
  prepare s = (Ok tt, s') ->
  exists wr wr', outZip s = Some wr /\ outZip s' = Some wr'
    /\ wDir wr' = wDir wr /\ wOpen wr' = false /\ sameArchive wr wr'
    /\ trace s' = trace s.
Proof.
  destruct s as [[wr|] tr]; mops; cbn; [|discriminate].
  destruct (wOpen wr) eqn:Eo; cbn.
  - destruct (wOut wr (wTicks wr)); [discriminate|].
    intros H; injection H as <-. do 2 eexists. cbn. unfold sameArchive. cbn. auto 10.
  - intros H; injection H as <-. do 2 eexists. cbn. unfold sameArchive. auto 10.
Qed.

Lemma appendBody_nil dir : appendBody [] dir = dir.
Proof.
  induction dir as [|e [|e' rest] IH].
  - reflexivity.
  - destruct e. cbn. rewrite app_nil_r. reflexivity.
  - change (appendBody [] (e :: e' :: rest)) with (e :: appendBody [] (e' :: rest)).
    rewrite IH. reflexivity.
Qed.

Lemma appendBody_last p dir e :
  appendBody p (dir ++ [e])
  = dir ++ [{| hName := hName e; hMethod := hMethod e; body := body e ++ p |}].
Proof.
  induction dir as [|x dir IH]; [reflexivity|].
  cbn [app]. destruct dir as [|y dir].
  - reflexivity.
  - change (appendBody p (x :: (y :: dir) ++ [e]))
      with (x :: appendBody p ((y :: dir) ++ [e])).
    rewrite IH. reflexivity.
Qed.

Lemma sameArchive_refl wr : sameArchive wr wr.
Proof. unfold sameArchive. auto. Qed.

Lemma sameArchive_trans a b c : sameArchive a b -> sameArchive b c -> sameArchive a c.
Proof. unfold sameArchive. intros (? & ? & ?) (? & ? & ?). repeat split; congruence. Qed.

Lemma createHeader_Ok name method s h s' :
  createHeader name method s = (Ok h, s') ->
  exists wr wr', outZip s = Some wr /\ outZip s' = Some wr'
    /\ wDir wr' = wDir wr ++ [{| hName := name;
                                 hMethod := if strings_HasSuffix name "/"
                                            then Store else method;
                                 body := [] |}]
    /\ wOpen wr' = negb (strings_HasSuffix name "/")
    /\ sameArchive wr wr'
    /\ trace s' = trace s
    /\ h = (if strings_HasSuffix name "/" then dirWriter
            else fileWriter (length (wDir wr))).
Proof.
  unfold createHeader. intros H.
  apply bind_Ok in H as ([] & s1 & Hprep & H).
  apply prepare_Ok in Hprep as (wr & wr1 & Hs & Hs1 & Hdir & Hopen & Hsame & Htr).
  destruct s1 as [o1 tr1]. cbn in Hs1, Htr. subst o1 tr1.
  mops. cbn in H.
  destruct (uint16max <? N.of_nat (String.length name))%N; [discriminate|].
  cbn in H. destruct (wOut wr1 (wTicks wr1)); [discriminate|].
  injection H as <- <-.
  exists wr. eexists. cbn. rewrite Hdir.
  repeat split; try reflexivity; try assumption; apply Hsame.
Qed.

Lemma Write_file_Ok idx p s s' :
  Write (fileWriter idx) p s = (Ok tt, s') ->
  exists wr wr', outZip s = Some wr /\ outZip s' = Some wr'
    /\ wDir wr' = appendBody p (wDir wr)
    /\ wOpen wr' = wOpen wr
    /\ sameArchive wr wr'
    /\ trace s' = trace s.
Proof.
  unfold Write. destruct s as [[wr|] tr]; mops; cbn [outZip trace]; [|discriminate].
  destruct (wOpen wr && Nat.eqb (S idx) (length (wDir wr)))%bool; [|discriminate].
  cbn [outZip trace]. destruct (wOut wr (wTicks wr)); [discriminate|].
  intros H. injection H as <-. do 2 eexists. cbn [outZip trace wDir wOpen].
  repeat split; reflexivity.
Qed.

Lemma io_Copy_file_Ok idx src s s' :
  io_Copy (fileWriter idx) src s = (Ok tt, s') ->
  forall wr, outZip s = Some wr ->
  exists wr', outZip s' = Some wr'
    /\ wDir wr' = appendBody (rdData src) (wDir wr)
    /\ wOpen wr' = wOpen wr
    /\ sameArchive wr wr'
    /\ trace s' = trace s
    /\ rdErr src = None.
Proof.
  unfold io_Copy. intros H wr Hwr.
  apply bind_Ok in H as ([] & s1 & Hw & H).
  destruct (rdErr src) eqn:Eerr; [discriminate|].
  unfold ret in H. injection H as <-.
  destruct (rdData src) as [|c p] eqn:Edata.
  - injection Hw as <-. exists wr. rewrite appendBody_nil.
    repeat split; try reflexivity; assumption.
  - apply Write_file_Ok in Hw as (wr0 & wr' & Hs & Hs' & Hdir & Hopen & Hsame & Htr).
    rewrite Hwr in Hs. injection Hs as <-.
    exists wr'. repeat split; try assumption; apply Hsame.
Qed.

Lemma Close_Ok s s' :
  Close s = (Ok tt, s') ->
  exists wr wr', outZip s = Some wr /\ outZip s' = Some wr'
    /\ wDir wr' = wDir wr /\ wComment wr' = wComment wr /\ wClosed wr' = true
    /\ trace s' = trace s.
Proof.
  unfold Close. intros H.
  apply bind_Ok in H as ([] & s1 & Hprep & H).
  apply prepare_Ok in Hprep as (wr & wr1 & Hs & Hs1 & Hdir & Hopen & Hsame & Htr).
  destruct s1 as [o1 tr1]. cbn in Hs1, Htr. subst o1 tr1.
  mops. cbn in H. destruct (wClosed wr1); [discriminate|].
  cbn in H. destruct (wOut wr1 (wTicks wr1)); [discriminate|].
  injection H as <-. exists wr. eexists. cbn.
  repeat split; try reflexivity; try assumption; apply Hsame.
Qed.

Section Transcoder.

Variable flate_NewReader : Reader -> Reader.

Lemma decryptFile_file_Ok idx src key alg comp s s' :
decryptFile flate_NewReader (fileWriter idx) src key alg comp s = (Ok tt, s') ->
forall wr, outZip s = Some wr ->
exists wr' data, outZip s' = Some wr'
  /\ wDir wr' = appendBody data (wDir wr)
  /\ wOpen wr' = wOpen wr
  /\ sameArchive wr wr'
  /\ trace s' = trace s.
Proof.
unfold decryptFile. intros H wr Hwr.
apply bind_Ok in H as (encryptedData & s1 & H1 & H).
apply lift_Ok in H1 as [_ ->].
apply bind_Ok in H as (decipherFunc & s1 & H1 & H).
apply lift_Ok in H1 as [_ ->].
apply bind_Ok in H as (data & s1 & H1 & H).
apply lift_Ok in H1 as [_ ->].
apply wrapErrM_Ok in H.
eapply io_Copy_file_Ok in H as (wr' & ? & ? & ? & ? & ? & ?); [|eassumption].
exists wr'. eexists. repeat (split; [eassumption|]). eassumption.
Qed.

Lemma emit_Ok ev s s' :
emit ev s = (Ok tt, s') -> outZip s' = outZip s /\ trace s' = trace s ++ [ev].
Proof. unfold emit. intros H. injection H as <-. split; reflexivity. Qed.

Lemma log_Ok logger msg s s' :
log logger msg s = (Ok tt, s') ->
outZip s' = outZip s
/\ exists evs, trace s' = trace s ++ evs /\ Forall eventOfFile evs.
Proof.
unfold log. destruct logger; intros H.
- apply emit_Ok in H as [Ho Ht]. split; [exact Ho|].
  exists [LogMsg msg]. split; [exact Ht|]. repeat constructor.
- injection H as <-. split; [reflexivity|].
  exists []. rewrite app_nil_r. split; [reflexivity | constructor].
Qed.

Lemma transcodeEntry_Ok logger key m f s s' :
transcodeEntry flate_NewReader logger key m f s = (Ok tt, s') ->
if skipped (Name f) then s' = s
else exists wr wr' e evs,
    outZip s = Some wr /\ outZip s' = Some wr'
    /\ wDir wr' = wDir wr ++ [e]
    /\ entryFor m f e
    /\ sameArchive wr wr'
    /\ trace s' = trace s ++ evs
    /\ Forall eventOfFile evs.
Proof.
unfold transcodeEntry. destruct (skipped (Name f)) eqn:Esk; intros H.
{ injection H as <-. reflexivity. }
apply bind_Ok in H as ([] & s1 & Hlog & H).
apply log_Ok in Hlog as (Ho1 & evs1 & Ht1 & Hev1).
apply bind_Ok in H as (dstFile & s2 & Hcreate & H).
apply wrapErrM_Ok in Hcreate. unfold Create in Hcreate.
apply createHeader_Ok in Hcreate
  as (wr & wr2 & Hs1 & Hs2 & Hdir2 & Hopen2 & Hsame2 & Ht2 & Hdst).
rewrite Ho1 in Hs1.
unfold entryFor.
destruct (strings_HasSuffix (Name f) "/") eqn:Edir.
- injection H as <-.
  exists wr, wr2. eexists. exists evs1.
  repeat split; try eassumption; try reflexivity.
  + apply Hsame2. + apply Hsame2. + apply Hsame2. + congruence.
- apply bind_Ok in H as ([] & s3 & Hemit & H).
  apply emit_Ok in Hemit as [Ho3 Ht3].
  apply bind_Ok in H as (srcFile & s4 & Hopen & H).
  apply lift_Ok in Hopen as [Hopen ->]. apply wrapErr_Ok in Hopen.
  apply bind_Ok in H as ([] & s5 & Hcopy & H).
  apply lift_Ok in H as [_ ->].
  apply wrapErrM_Ok in Hcopy. subst dstFile.
  rewrite <- Ho3 in Hs2.
  destruct (m !! Name f) as [fileEntry|] eqn:Elook.
  + apply bind_Ok in Hcopy as ([] & s6 & Hemit & Hcopy).
    apply emit_Ok in Hemit as [Ho6 Ht6].
    rewrite <- Ho6 in Hs2.
    eapply decryptFile_file_Ok in Hcopy
      as (wr5 & data & Hs5 & Hdir5 & Hopen5 & Hsame5 & Ht5); [|exact Hs2].
    rewrite Hdir2, appendBody_last in Hdir5. cbn [hName hMethod body] in Hdir5.
    exists wr, wr5. eexists.
    exists (evs1 ++ [SrcOpen (Name f);
                     DecryptFile (Name f) (EncryptionAlgorithm_ fileEntry)]).
    repeat split; try eassumption; try reflexivity.
    * exists srcFile. split; [exact Hopen | discriminate].
    * etransitivity; [apply Hsame5 | apply Hsame2].
    * etransitivity; [apply Hsame5 | apply Hsame2].
    * etransitivity; [apply Hsame5 | apply Hsame2].
    * rewrite Ht5, Ht6, Ht3, Ht2, Ht1, <- !app_assoc. reflexivity.
    * apply Forall_app. split; [exact Hev1|].
      repeat constructor; exact Edir.
  + eapply io_Copy_file_Ok in Hcopy
      as (wr5 & Hs5 & Hdir5 & Hopen5 & Hsame5 & Ht5 & Herr); [|exact Hs2].
    rewrite Hdir2, appendBody_last in Hdir5. cbn [hName hMethod body] in Hdir5.
    exists wr, wr5. eexists.
    exists (evs1 ++ [SrcOpen (Name f)]).
    repeat split; try eassumption; try reflexivity.
    * exists srcFile. split; [exact Hopen | reflexivity].
    * etransitivity; [apply Hsame5 | apply Hsame2].
    * etransitivity; [apply Hsame5 | apply Hsame2].
    * etransitivity; [apply Hsame5 | apply Hsame2].
    * rewrite Ht5, Ht3, Ht2, Ht1, <- !app_assoc. reflexivity.
    * apply Forall_app. split; [exact Hev1|].
      repeat constructor; exact Edir.
Qed.

Lemma transcode_Ok logger key m files :
forall s s' wr,
  transcode flate_NewReader logger key m files s = (Ok tt, s') ->
  outZip s = Some wr ->
  exists wr' es evs,
    outZip s' = Some wr'
    /\ wDir wr' = wDir wr ++ es
    /\ Forall2 (entryFor m) (List.filter notSkipped files) es
    /\ sameArchive wr wr'
    /\ trace s' = trace s ++ evs
    /\ Forall eventOfFile evs.
Proof.
induction files as [|f files IH]; intros s s' wr H Hwr.
- injection H as <-. exists wr, [], [].
  rewrite !app_nil_r.
  split; [exact Hwr|]. split; [reflexivity|]. split; [constructor|].
  split; [apply sameArchive_refl|]. split; [reflexivity | constructor].
- cbn [transcode] in H.
  apply bind_Ok in H as ([] & s1 & Hentry & H).
  apply transcodeEntry_Ok in Hentry.
  cbn [List.filter]. unfold notSkipped at 1.
  destruct (skipped (Name f)); cbn [negb].
  + subst s1. eapply IH; eassumption.
  + destruct Hentry as (wr0 & wr1 & e & evs1 & Hs & Hs1 & Hdir1 & Hent & Hsame1 & Ht1 & Hev1).
    rewrite Hwr in Hs. injection Hs as <-.
    destruct (IH s1 s' wr1 H Hs1) as (wr' & es & evs & Hs' & Hdir' & Hall & Hsame' & Ht' & Hev').
    exists wr', (e :: es), (evs1 ++ evs).
    split; [exact Hs'|].
    split; [rewrite Hdir', Hdir1, <- app_assoc; reflexivity|].
    split; [constructor; assumption|].
    split; [eapply sameArchive_trans; eassumption|].
    split; [rewrite Ht', Ht1, <- app_assoc; reflexivity|].
    apply Forall_app. split; assumption.
Qed.

Lemma SetComment_Ok comment s s' :
SetComment comment s = (Ok tt, s') ->
exists wr wr', outZip s = Some wr /\ outZip s' = Some wr'
  /\ wComment wr' = comment /\ wDir wr' = wDir wr /\ wOpen wr' = wOpen wr
  /\ wClosed wr' = wClosed wr /\ trace s' = trace s.
Proof.
unfold SetComment. destruct s as [[wr|] tr]; mops; cbn [outZip trace]; [|discriminate].
destruct (uint16max <? N.of_nat (String.length comment))%N; [discriminate|].
intros H. injection H as <-. do 2 eexists. cbn. repeat split; reflexivity.
Qed.

Lemma writeArchive_Ok out logger inFile key encryptedFiles w :
writeArchive flate_NewReader out logger inFile key encryptedFiles empty_world
  = (Ok tt, w) ->
exists wr es,
  outZip w = Some wr
  /\ wComment wr = Comment inFile
  /\ wClosed wr = true
  /\ wDir wr = mimetypeEntry :: es
  /\ Forall2 (entryFor (groupFileEntriesByPath encryptedFiles))
             (List.filter notSkipped (File inFile)) es
  /\ Forall eventOfFile (trace w).
Proof.
unfold writeArchive. intros H.
apply bind_Ok in H as ([] & s1 & Hnew & H).
unfold zip_NewWriter, putWriter, empty_world in Hnew. cbn [trace] in Hnew.
injection Hnew as <-.
apply bind_Ok in H as ([] & s2 & Hcomment & H).
apply wrapErrM_Ok, SetComment_Ok in Hcomment
  as (wr1 & wr2 & Hs1 & Hs2 & Hc2 & Hdir2 & Hopen2 & Hclosed2 & Ht2).
cbn [outZip] in Hs1. injection Hs1 as <-. cbn in Hdir2, Hopen2, Hclosed2, Ht2.
apply bind_Ok in H as (mimetype & s3 & Hcreate & H).
unfold CreateHeader in Hcreate.
destruct (createHeader "mimetype" Store s2) as [[h|e|p] s3'] eqn:Ech;
  try discriminate; injection Hcreate as <- <-; cbn [fst] in H.
2:{ apply bind_Ok in H as ([] & s4 & Hw & _). discriminate. }
apply createHeader_Ok in Ech
  as (wr2' & wr3 & Hs2' & Hs3 & Hdir3 & Hopen3 & Hsame3 & Ht3 & Hh).
rewrite Hs2 in Hs2'. injection Hs2' as <-.
change (strings_HasSuffix "mimetype" "/") with false in Hdir3, Hh.
subst h. rewrite Hdir2 in Hdir3. cbn [app] in Hdir3.
apply bind_Ok in H as ([] & s4 & Hw & H).
apply wrapErrM_Ok in Hw. unfold io_WriteString in Hw.
apply Write_file_Ok in Hw as (wr3' & wr4 & Hs3' & Hs4 & Hdir4 & Hopen4 & Hsame4 & Ht4).
rewrite Hs3 in Hs3'. injection Hs3' as <-.
rewrite Hdir3 in Hdir4. cbn [appendBody hName hMethod body app] in Hdir4.
apply bind_Ok in H as ([] & s5 & Htrans & H).
destruct (transcode_Ok _ _ _ _ _ _ _ Htrans Hs4)
  as (wr5 & es & evs & Hs5 & Hdir5 & Hall & Hsame5 & Ht5 & Hev5).
apply bind_Ok in H as ([] & s6 & Hclose & H).
apply wrapErrM_Ok, Close_Ok in Hclose
  as (wr5' & wr6 & Hs5' & Hs6 & Hdir6 & Hc6 & Hclosed6 & Ht6).
rewrite Hs5 in Hs5'. injection Hs5' as <-.
apply log_Ok in H as (Ho & evsl & Htl & Hevl).
exists wr6, es.
split; [congruence|].
split.
{ rewrite Hc6. destruct Hsame5 as (_ & -> & _). destruct Hsame4 as (_ & -> & _).
  destruct Hsame3 as (_ & -> & _). exact Hc2. }
split; [exact Hclosed6|].
split; [rewrite Hdir6, Hdir5, Hdir4; reflexivity|].
split; [exact Hall|].
rewrite Htl, Ht6, Ht5, Ht4, Ht3, Ht2. cbn [app].
apply Forall_app. split; assumption.
Qed.
End Transcoder.

Section Properties.

Variable zip_NewReader : bytes -> Z -> outcome zip_Reader.
Variable json_Decode : Reader -> outcome License.
Variable xml_Decode : Reader -> outcome Encryption.
Variable flate_NewReader : Reader -> Reader.

(** Everything [Decrypt] does before it creates the destination archive
    leaves the state untouched. *)
Lemma Decrypt_before_writer out inp inSize userKeyHex licenseFile logger :
  forall r w,
    Decrypt zip_NewReader json_Decode xml_Decode flate_NewReader
            out inp inSize userKeyHex licenseFile logger empty_world = (r, w) ->
    (r <> Ok tt /\ w = empty_world)
    \/ (exists userKey inFile lic contentKey encryptedFiles,
           String.eqb userKeyHex EmptyString = false
           /\ hex_DecodeString userKeyHex = Ok userKey
           /\ zip_NewReader inp inSize = Ok inFile
           /\ licenseSource inFile licenseFile = Ok lic
           /\ getContentKey json_Decode lic userKey = Ok contentKey
           /\ listEncryptedFiles xml_Decode inFile = Ok encryptedFiles
           /\ writeArchive flate_NewReader out logger inFile contentKey
                encryptedFiles empty_world = (r, w)).
Proof.
  intros r w Hrun. unfold Decrypt in Hrun.
  destruct (String.eqb userKeyHex EmptyString) eqn:Ekey.
  { left. injection Hrun as <- <-. split; [discriminate | reflexivity]. }
  unfold bind at 1 in Hrun. unfold lift at 1 in Hrun.
  destruct (hex_DecodeString userKeyHex) as [userKey|e|p] eqn:Ehex;
    cbn [wrapErr] in Hrun;
    try (left; injection Hrun as <- <-; split; [discriminate | reflexivity]).
  unfold bind at 1 in Hrun. unfold lift at 1 in Hrun.
  destruct (zip_NewReader inp inSize) as [inFile|e|p] eqn:Ezip;
    cbn [wrapErr] in Hrun;
    try (left; injection Hrun as <- <-; split; [discriminate | reflexivity]).
  unfold bind at 1 in Hrun. unfold lift at 1 in Hrun.
  destruct (licenseSource inFile licenseFile) as [lic|e|p] eqn:Elic;
    try (left; injection Hrun as <- <-; split; [discriminate | reflexivity]).
  unfold bind at 1 in Hrun. unfold lift at 1 in Hrun.
  destruct (getContentKey json_Decode lic userKey) as [contentKey|e|p] eqn:Eck;
    cbn [wrapErr] in Hrun;
    try (left; injection Hrun as <- <-; split; [discriminate | reflexivity]).
  unfold bind at 1 in Hrun. unfold lift at 1 in Hrun.
  destruct (listEncryptedFiles xml_Decode inFile) as [encryptedFiles|e|p] eqn:Elist;
    cbn [wrapErr] in Hrun;
    try (left; injection Hrun as <- <-; split; [discriminate | reflexivity]).
  right. exists userKey, inFile, lic, contentKey, encryptedFiles. tauto.
Qed.


Lemma Decrypt_Ok out inp inSize userKeyHex licenseFile logger w :
  Decrypt zip_NewReader json_Decode xml_Decode flate_NewReader
          out inp inSize userKeyHex licenseFile logger empty_world = (Ok tt, w) ->
  exists inFile encryptedFiles wr es,
    zip_NewReader inp inSize = Ok inFile
    /\ listEncryptedFiles xml_Decode inFile = Ok encryptedFiles
    /\ outZip w = Some wr
    /\ wComment wr = Comment inFile
    /\ wClosed wr = true
    /\ wDir wr = mimetypeEntry :: es
    /\ Forall2 (entryFor (groupFileEntriesByPath encryptedFiles))
               (List.filter notSkipped (File inFile)) es
    /\ Forall eventOfFile (trace w).
Proof.
  intros Hrun.
  destruct (Decrypt_before_writer _ _ _ _ _ _ _ _ Hrun)
    as [[Hne _] | (userKey & inFile & lic & contentKey & encryptedFiles
                   & _ & _ & Hzip & _ & _ & Hlist & Hwrite)].
  { exfalso. apply Hne. reflexivity. }
  apply writeArchive_Ok in Hwrite as (wr & es & H).
  exists inFile, encryptedFiles, wr, es. tauto.
Qed.

(** C3: when the key check decrypts to bytes other than those of the
    licence identifier, [getContentKey] returns the mismatch error, and a
    [Decrypt] that gets that far returns it wrapped, with no destination
    archive created and nothing read or written. *)
Theorem getContentKey_key_check_mismatch
        (licenseFile : Reader) (userKey : bytes) (license : License)
        (encryptedKeyCheck keyCheck : bytes) :
  json_Decode licenseFile = Ok license ->
  base64_DecodeString (KeyCheck license) = Ok encryptedKeyCheck ->
  decipherAES256CBC encryptedKeyCheck userKey = Ok keyCheck ->
  keyCheck <> list_ascii_of_string (ID license) ->
  let mismatch :=
    Errorf ("decrypted key check (" ++ string_of_list_ascii keyCheck
            ++ ") does not match license ID (" ++ ID license ++ ")") in
  getContentKey json_Decode licenseFile userKey = Err mismatch
  /\ forall out inp inSize userKeyHex lf logger inFile,
      userKeyHex <> EmptyString ->
      hex_DecodeString userKeyHex = Ok userKey ->
      zip_NewReader inp inSize = Ok inFile ->
      licenseSource inFile lf = Ok licenseFile ->
      Decrypt zip_NewReader json_Decode xml_Decode flate_NewReader
              out inp inSize userKeyHex lf logger empty_world
      = (Err (Wrap "error getting content key" mismatch), empty_world).
Proof.
  intros Hjson Hb64 Hdec Hne mismatch.
  assert (Hck : getContentKey json_Decode licenseFile userKey = Err mismatch).
  { unfold getContentKey. rewrite Hjson. cbn [wrapErr obind].
    rewrite Hb64. cbn [wrapErr obind]. rewrite Hdec. cbn [wrapErr obind].
    destruct (String.eqb_spec (string_of_list_ascii keyCheck) (ID license)) as [Heq|_].
    - exfalso. apply Hne. rewrite <- Heq.
      symmetry. apply list_ascii_of_string_of_list_ascii.
    - reflexivity. }
  split; [exact Hck|].
  intros out inp inSize userKeyHex lf logger inFile Hkey Hhex Hzip Hlic.
  unfold Decrypt.
  destruct (String.eqb_spec userKeyHex EmptyString); [contradiction|].
  unfold bind, lift. rewrite Hhex. cbn [wrapErr]. rewrite Hzip. cbn [wrapErr].
  rewrite Hlic, Hck. reflexivity.
Qed.

(** C4 (amended): a manifest with a record whose algorithm identifier is
    neither of the two known ones makes [listEncryptedFiles] fail; when the
    cipher-reference URIs of the records up to and including the first
    such record percent-decode, the error names the decoded path and the
    raw identifier of that record, and otherwise it is the path-decoding
    error of the first URI that does not; and [Decrypt] then does not
    succeed, creates no destination archive and opens no source entry. *)
Theorem listEncryptedFiles_unsupported_algorithm
        (epubRoot : zip_Reader) (encFile : Reader) (enc : Encryption)
        (pre post : list EncryptedData) (d : EncryptedData) :
  Open epubRoot "META-INF/encryption.xml" = Ok encFile ->
  xml_Decode encFile = Ok enc ->
  EncryptedData_ enc = pre ++ d :: post ->
  Forall (fun x => supportedAlgorithm (Algorithm x) = true) pre ->
  supportedAlgorithm (Algorithm d) = false ->
  (exists e, listEncryptedFiles xml_Decode epubRoot = Err e)
  /\ (forall path,
         Forall (fun x => exists p, url_PathUnescape (URI x) = Ok p) pre ->
         url_PathUnescape (URI d) = Ok path ->
         listEncryptedFiles xml_Decode epubRoot
         = Err (Errorf ("unsupported encryption algorithm for file "
                        ++ path ++ ": " ++ Algorithm d)))
  /\ (forall pre1 x pre2 e,
         pre ++ [d] = pre1 ++ x :: pre2 ->
         Forall (fun y => exists p, url_PathUnescape (URI y) = Ok p) pre1 ->
         url_PathUnescape (URI x) = Err e ->
         listEncryptedFiles xml_Decode epubRoot
         = Err (WrapQ "error decoding entry path" (URI x) e))
  /\ (forall out inp inSize userKeyHex lf logger r w,
         zip_NewReader inp inSize = Ok epubRoot ->
         Decrypt zip_NewReader json_Decode xml_Decode flate_NewReader
                 out inp inSize userKeyHex lf logger empty_world = (r, w) ->
         r <> Ok tt /\ w = empty_world).
Proof.
  intros Hopen Hxml Hrecs Hpre Hd.
  assert (Hfail : exists e, listEncryptedFiles xml_Decode epubRoot = Err e).
  { unfold listEncryptedFiles. rewrite Hopen. cbn [wrapErr obind].
    rewrite Hxml. cbn [wrapErr obind]. rewrite Hrecs.
    apply listLoop_unsupported_fails with d; [|exact Hd].
    apply in_or_app. right. left. reflexivity. }
  split; [exact Hfail|]. split; [|split].
  - intros path Hdec Hpath.
    unfold listEncryptedFiles. rewrite Hopen. cbn [wrapErr obind].
    rewrite Hxml. cbn [wrapErr obind]. rewrite Hrecs.
    apply listLoop_first_unsupported; assumption.
  - intros pre1 x pre2 e Hsplit Hdec Hx.
    unfold listEncryptedFiles. rewrite Hopen. cbn [wrapErr obind].
    rewrite Hxml. cbn [wrapErr obind]. rewrite Hrecs.
    replace (pre ++ d :: post) with (pre1 ++ x :: (pre2 ++ post)).
    + apply listLoop_first_undecodable; [|exact Hdec|exact Hx].
      induction pre2 as [|y pre2' _] using rev_ind.
      * apply app_inj_tail in Hsplit as [-> _]. exact Hpre.
      * change (pre1 ++ x :: pre2' ++ [y]) with (pre1 ++ (x :: pre2') ++ [y]) in Hsplit.
        rewrite app_assoc in Hsplit.
        apply app_inj_tail in Hsplit as [-> _].
        apply Forall_app in Hpre as [Hpre _]. exact Hpre.
    + change (pre1 ++ x :: pre2 ++ post) with (pre1 ++ (x :: pre2) ++ post).
      rewrite app_assoc, <- Hsplit, <- app_assoc. reflexivity.
  - intros out inp inSize userKeyHex lf logger r w Hzip Hrun.
    destruct (Decrypt_before_writer _ _ _ _ _ _ _ _ Hrun)
      as [H | (userKey & inFile & lic & contentKey & encryptedFiles
               & _ & _ & Hzip' & _ & _ & Hlist & _)]; [exact H|].
    exfalso. rewrite Hzip in Hzip'. injection Hzip' as <-.
    destruct Hfail as [e He]. congruence.
Qed.

Lemma Forall2_entry_names m fs es :
  Forall2 (entryFor m) fs es -> List.map hName es = List.map Name fs.
Proof.
  induction 1 as [|f e fs es [Hn _] _ IH]; [reflexivity|].
  cbn. rewrite Hn, IH. reflexivity.
Qed.

Lemma Forall2_entry_source m fs es e :
  Forall2 (entryFor m) fs es -> In e es -> exists f, In f fs /\ entryFor m f e.
Proof.
  induction 1 as [|f e0 fs es He _ IH]; intros Hin; [destruct Hin|].
  destruct Hin as [-> | Hin].
  - exists f. split; [left; reflexivity | exact He].
  - destruct (IH Hin) as (f' & Hf' & He'). exists f'. split; [right|]; assumption.
Qed.

(** C5 (amended): on success the destination archive is complete and its
    first entry is named [mimetype], is stored uncompressed, and holds the
    20 bytes of [application/epub+zip]. *)
Theorem Decrypt_mimetype_first out inp inSize userKeyHex licenseFile logger w :
  Decrypt zip_NewReader json_Decode xml_Decode flate_NewReader
          out inp inSize userKeyHex licenseFile logger empty_world = (Ok tt, w) ->
  exists wr es,
    outZip w = Some wr
    /\ wClosed wr = true
    /\ wDir wr = {| hName := "mimetype"; hMethod := Store;
                    body := list_ascii_of_string "application/epub+zip" |} :: es
    /\ length (list_ascii_of_string "application/epub+zip") = 20%nat.
Proof.
  intros Hrun.
  apply Decrypt_Ok in Hrun
    as (inFile & encryptedFiles & wr & es & _ & _ & Hw & _ & Hclosed & Hdir & _).
  exists wr, es. repeat split; assumption.
Qed.

(** C6: on success the destination carries the comment of the source; its
    entries are [mimetype] followed by the source entries other than the
    three skipped names, under their names and in their order; an entry
    whose name ends in a slash holds no data, and no entry of such a name
    is read from the source or handed to the decryption pipeline. *)
Theorem Decrypt_entries_and_comment out inp inSize userKeyHex licenseFile logger w :
  Decrypt zip_NewReader json_Decode xml_Decode flate_NewReader
          out inp inSize userKeyHex licenseFile logger empty_world = (Ok tt, w) ->
  exists inFile wr,
    zip_NewReader inp inSize = Ok inFile
    /\ outZip w = Some wr
    /\ wComment wr = Comment inFile
    /\ List.map hName (wDir wr)
       = "mimetype" :: List.map Name
                         (List.filter (fun f => negb (skipped (Name f))) (File inFile))
    /\ (forall e, In e (tl (wDir wr)) -> skipped (hName e) = false)
    /\ (forall e, In e (wDir wr) ->
                  strings_HasSuffix (hName e) "/" = true -> body e = [])
    /\ (forall name, strings_HasSuffix name "/" = true ->
                     ~ In (SrcOpen name) (trace w)
                     /\ forall alg, ~ In (DecryptFile name alg) (trace w)).
Proof.
  intros Hrun.
  apply Decrypt_Ok in Hrun
    as (inFile & encryptedFiles & wr & es & Hzip & _ & Hw & Hc & _ & Hdir & Hall & Hev).
  exists inFile, wr.
  split; [exact Hzip|]. split; [exact Hw|]. split; [exact Hc|].
  split; [|split; [|split]].
  - rewrite Hdir. cbn [List.map mimetypeEntry hName].
    rewrite (Forall2_entry_names _ _ _ Hall). reflexivity.
  - intros e Hin. rewrite Hdir in Hin. cbn [tl] in Hin.
    destruct (Forall2_entry_source _ _ _ _ Hall Hin) as (f & Hf & Hn & _).
    apply List.filter_In in Hf as [_ Hf]. unfold notSkipped in Hf.
    rewrite Hn. destruct (skipped (Name f)); [discriminate | reflexivity].
  - intros e Hin Hslash. rewrite Hdir in Hin. destruct Hin as [<- | Hin].
    + discriminate Hslash.
    + destruct (Forall2_entry_source _ _ _ _ Hall Hin) as (f & _ & Hn & Hf).
      rewrite <- Hn, Hslash in Hf. apply Hf.
  - intros name Hslash. rewrite List.Forall_forall in Hev. split.
    + intros Hin. apply Hev in Hin. cbn in Hin. congruence.
    + intros alg Hin. apply Hev in Hin. cbn in Hin. congruence.
Qed.

Lemma group_lookup_None (l : list FileEntry) (k : string) :
  (forall fe, In fe l -> Path fe <> k) ->
  groupFileEntriesByPath l !! k = None.
Proof.
  unfold groupFileEntriesByPath.
  assert (G : forall (m : gmap string FileEntry),
             m !! k = None ->
             (forall fe, In fe l -> Path fe <> k) ->
             fold_left (fun res s => <[Path s := s]> res) l m !! k = None).
  { induction l as [|x l IH]; intros m Hm Hall; [exact Hm|].
    cbn [fold_left]. apply IH.
    - rewrite lookup_insert_ne; [exact Hm|]. apply Hall. left. reflexivity.
    - intros fe Hin. apply Hall. right. exact Hin. }
  intros Hall. apply G; [apply lookup_empty | exact Hall].
Qed.

(** C7: on success, a source entry that is not skipped, is not a
    directory marker and whose name is the path of no manifest record is
    found in the destination, one place further (after [mimetype]), with
    exactly the bytes its reader delivers. *)
Theorem Decrypt_plain_entries_copied out inp inSize userKeyHex licenseFile logger w :
  Decrypt zip_NewReader json_Decode xml_Decode flate_NewReader
          out inp inSize userKeyHex licenseFile logger empty_world = (Ok tt, w) ->
  exists inFile encryptedFiles wr,
    zip_NewReader inp inSize = Ok inFile
    /\ listEncryptedFiles xml_Decode inFile = Ok encryptedFiles
    /\ outZip w = Some wr
    /\ forall (i : nat) (f : zip_File),
        List.filter (fun f => negb (skipped (Name f))) (File inFile) !! i = Some f ->
        strings_HasSuffix (Name f) "/" = false ->
        (forall fe, In fe encryptedFiles -> Path fe <> Name f) ->
        exists src,
          fOpen f = Ok src
          /\ wDir wr !! S i = Some {| hName := Name f; hMethod := Deflate;
                                      body := rdData src |}.
Proof.
  intros Hrun.
  apply Decrypt_Ok in Hrun
    as (inFile & encryptedFiles & wr & es & Hzip & Hlist & Hw & _ & _ & Hdir & Hall & _).
  exists inFile, encryptedFiles, wr.
  split; [exact Hzip|]. split; [exact Hlist|]. split; [exact Hw|].
  intros i f Hi Hfile Habsent.
  destruct (Forall2_lookup_l _ _ _ _ _ Hall Hi) as (e & He & Hn & Hf).
  rewrite Hfile in Hf. destruct Hf as (Hm & src & Hopen & Hbody).
  exists src. split; [exact Hopen|].
  rewrite Hdir. change ((mimetypeEntry :: es) !! S i) with (es !! i).
  rewrite He. f_equal. destruct e as [n m b]. cbn in *.
  rewrite Hn, Hm, Hbody; [reflexivity|].
  apply group_lookup_None. exact Habsent.
Qed.


(** C10: the error of the creation of the [mimetype] header is dropped.
    From the state in which the header is created, when that creation
    fails [Decrypt] does not return its error: the writer it got is nil and
    the write of the content panics; when it succeeds and the write of the
    content fails, [Decrypt] returns the error of the write. *)
Theorem Decrypt_mimetype_header_error_discarded
        out inp inSize userKeyHex lf logger
        (userKey : bytes) (inFile : zip_Reader) (lic : Reader)
        (contentKey : bytes) (encryptedFiles : list FileEntry) :
  userKeyHex <> EmptyString ->
  hex_DecodeString userKeyHex = Ok userKey ->
  zip_NewReader inp inSize = Ok inFile ->
  licenseSource inFile lf = Ok lic ->
  getContentKey json_Decode lic userKey = Ok contentKey ->
  listEncryptedFiles xml_Decode inFile = Ok encryptedFiles ->
  (N.of_nat (String.length (Comment inFile)) <= uint16max)%N ->
  let s := {| outZip := Some {| wOut := out; wTicks := 0;
                                wComment := Comment inFile; wDir := [];
                                wOpen := false; wClosed := false |};
              trace := [] |} in
  let run := Decrypt zip_NewReader json_Decode xml_Decode flate_NewReader
                     out inp inSize userKeyHex lf logger empty_world in
  (forall e s', createHeader "mimetype" Store s = (Err e, s') ->
                CreateHeader "mimetype" Store s = (Ok (nilWriter, Some e), s')
                /\ run = (Panic NilDereference, s'))
  /\ (forall h e s' s'',
         createHeader "mimetype" Store s = (Ok h, s') ->
         io_WriteString h "application/epub+zip" s' = (Err e, s'') ->
         run = (Err (Wrap "error appending mimetype file to output zip file" e), s'')).
Proof.
  intros Hkey Hhex Hzip Hlic Hck Hlist Hcomment s run.
  assert (Hrun : run = (mimetype <- CreateHeader "mimetype" Store ;;
                        let mimetypeFile := fst mimetype in
                        wrapErrM "error appending mimetype file to output zip file"
                          (io_WriteString mimetypeFile "application/epub+zip") ;;;
                        transcode flate_NewReader logger contentKey
                          (groupFileEntriesByPath encryptedFiles) (File inFile) ;;;
                        wrapErrM "error finalizing output zip file" Close ;;;
                        log logger "Decrypted ePUB") s).
  { unfold run, Decrypt.
    destruct (String.eqb_spec userKeyHex EmptyString); [contradiction|].
    unfold bind at 1. unfold lift at 1. rewrite Hhex. cbn [wrapErr].
    unfold bind at 1. unfold lift at 1. rewrite Hzip. cbn [wrapErr].
    unfold bind at 1. unfold lift at 1. rewrite Hlic.
    unfold bind at 1. unfold lift at 1. rewrite Hck. cbn [wrapErr].
    unfold bind at 1. unfold lift at 1. rewrite Hlist. cbn [wrapErr].
    unfold writeArchive.
    unfold bind at 1. unfold zip_NewWriter, putWriter, empty_world. cbn [trace].
    unfold bind at 1. unfold wrapErrM at 1, SetComment.
    unfold bind at 1. unfold getWriter at 1. cbn [outZip].
    destruct (N.ltb_spec uint16max (N.of_nat (String.length (Comment inFile))));
      [lia|].
    unfold putWriter. cbn [wrapErr wOut wTicks wDir wOpen wClosed trace].
    reflexivity. }
  split.
  - intros e s' Hcreate.
    assert (HCH : CreateHeader "mimetype" Store s = (Ok (nilWriter, Some e), s')).
    { unfold CreateHeader. rewrite Hcreate. reflexivity. }
    split; [exact HCH|].
    rewrite Hrun. unfold bind at 1. rewrite HCH. reflexivity.
  - intros h e s' s'' Hcreate Hwrite.
    rewrite Hrun. unfold bind at 1. unfold CreateHeader. rewrite Hcreate.
    cbn [fst]. unfold bind at 1. unfold wrapErrM at 1. rewrite Hwrite.
    reflexivity.
Qed.

End Properties.

(** ** The statements at the sample book *)

Lemma getContentKey_key_check_mismatch_witness :
  Sample.json_Decode (bytes_NewReader Sample.otherLicenseText) = Ok Sample.otherLicense
  /\ getContentKey Sample.json_Decode (bytes_NewReader Sample.otherLicenseText)
                   (hx Sample.userKeyHex)
     = Err (Errorf "decrypted key check (book-42) does not match license ID (book-43)")
  /\ Sample.run Sample.manifestText (Some (bytes_NewReader Sample.otherLicenseText))
     = (Err (Wrap "error getting content key"
               (Errorf "decrypted key check (book-42) does not match license ID (book-43)")),
        empty_world).
Proof.
  assert (Hjson : Sample.json_Decode (bytes_NewReader Sample.otherLicenseText)
                  = Ok Sample.otherLicense) by (vm_compute; reflexivity).
  split; [exact Hjson|].
  destruct (getContentKey_key_check_mismatch
              Sample.zip_NewReader Sample.json_Decode Sample.xml_Decode
              Sample.flate_NewReader
              (bytes_NewReader Sample.otherLicenseText) (hx Sample.userKeyHex)
              Sample.otherLicense
              (hx "627e4d586961547e8190a3b2c5d4e7f68ea2b7ca516745bfeafc49904b496089")
              (list_ascii_of_string "book-42")
              Hjson
              ltac:(vm_compute; reflexivity)
              ltac:(vm_compute; reflexivity)
              ltac:(vm_compute; discriminate)) as [Hck Hrun].
  split; [exact Hck|].
  apply (Hrun Sample.neverFails (Sample.epub Sample.manifestText) 0%Z Sample.userKeyHex
              (Some (bytes_NewReader Sample.otherLicenseText)) true
              (Sample.archive Sample.manifestText)).
  - discriminate.
  - vm_compute. reflexivity.
  - vm_compute. reflexivity.
  - reflexivity.
Defined.

(** C4, as stated, fails: the manifest [Sample.badPathManifest] has a record
    with an unknown algorithm, yet the error of [listEncryptedFiles] names no
    algorithm identifier: it is the error of the malformed path before it. *)
Lemma listEncryptedFiles_unsupported_not_named :
  ~ (forall (xml_Decode : Reader -> outcome Encryption) (epubRoot : zip_Reader)
            (encFile : Reader) (enc : Encryption),
        Open epubRoot "META-INF/encryption.xml" = Ok encFile ->
        xml_Decode encFile = Ok enc ->
        (exists d, In d (EncryptedData_ enc)
                   /\ supportedAlgorithm (Algorithm d) = false) ->
        exists d path,
          In d (EncryptedData_ enc)
          /\ supportedAlgorithm (Algorithm d) = false
          /\ listEncryptedFiles xml_Decode epubRoot
             = Err (Errorf ("unsupported encryption algorithm for file "
                            ++ path ++ ": " ++ Algorithm d))).
Proof.
  intros H.
  destruct (H Sample.xml_Decode (Sample.archive Sample.badPathManifestText)
              (bytes_NewReader Sample.badPathManifestText) Sample.badPathManifest)
    as (d & path & _ & _ & Herr).
  - vm_compute. reflexivity.
  - vm_compute. reflexivity.
  - exists (Sample.record Sample.rc4 "OEBPS/ch2.xhtml"). split.
    + right. left. reflexivity.
    + vm_compute. reflexivity.
  - assert (Hreal : listEncryptedFiles Sample.xml_Decode
                      (Sample.archive Sample.badPathManifestText)
                    = Err (WrapQ "error decoding entry path" "OEBPS/%zz.xhtml"
                             (EscapeError "%zz"))) by (vm_compute; reflexivity).
    rewrite Hreal in Herr. discriminate Herr.
Qed.

Lemma listEncryptedFiles_unsupported_algorithm_witness :
  supportedAlgorithm Sample.rc4 = false
  /\ listEncryptedFiles Sample.xml_Decode (Sample.archive Sample.unsupportedManifestText)
     = Err (Errorf ("unsupported encryption algorithm for file OEBPS/ch 2.xhtml: "
                    ++ Sample.rc4))
  /\ fst (Sample.run Sample.unsupportedManifestText None) <> Ok tt
  /\ snd (Sample.run Sample.unsupportedManifestText None) = empty_world.
Proof.
  assert (Hrc4 : supportedAlgorithm Sample.rc4 = false) by (vm_compute; reflexivity).
  split; [exact Hrc4|].
  destruct (listEncryptedFiles_unsupported_algorithm
              Sample.zip_NewReader Sample.json_Decode Sample.xml_Decode
              Sample.flate_NewReader
              (Sample.archive Sample.unsupportedManifestText)
              (bytes_NewReader Sample.unsupportedManifestText)
              Sample.unsupportedManifest
              [Sample.record EncryptionAlgorithmAES256CBC "OEBPS/ch1.xhtml"] []
              (Sample.record Sample.rc4 "OEBPS/ch%202.xhtml")
              ltac:(vm_compute; reflexivity)
              ltac:(vm_compute; reflexivity)
              eq_refl
              ltac:(repeat constructor)
              Hrc4) as (_ & Hnamed & _ & Hrun).
  split.
  - apply (Hnamed "OEBPS/ch 2.xhtml").
    + repeat constructor. exists "OEBPS/ch1.xhtml". vm_compute. reflexivity.
    + vm_compute. reflexivity.
  - apply (Hrun Sample.neverFails (Sample.epub Sample.unsupportedManifestText) 0%Z
                Sample.userKeyHex None true).
    + vm_compute. reflexivity.
    + vm_compute. reflexivity.
Defined.

(** C5, as stated, fails: the sample book is decrypted and the content of
    its first entry is [application/epub+zip], which is not 21 bytes long. *)
Lemma Decrypt_mimetype_not_21_bytes :
  ~ (forall zip_NewReader json_Decode xml_Decode flate_NewReader
            out inp inSize userKeyHex licenseFile logger w,
        Decrypt zip_NewReader json_Decode xml_Decode flate_NewReader
                out inp inSize userKeyHex licenseFile logger empty_world = (Ok tt, w) ->
        exists wr e es,
          outZip w = Some wr
          /\ wDir wr = e :: es
          /\ hName e = "mimetype"
          /\ hMethod e = Store
          /\ body e = list_ascii_of_string "application/epub+zip"
          /\ length (body e) = 21%nat).
Proof.
  intros H.
  destruct (H Sample.zip_NewReader Sample.json_Decode Sample.xml_Decode
              Sample.flate_NewReader Sample.neverFails
              (Sample.epub Sample.manifestText) 0%Z Sample.userKeyHex None true
              (snd (Sample.run Sample.manifestText None))
              ltac:(vm_compute; reflexivity))
    as (wr & e & es & _ & _ & _ & _ & Hbody & Hlen).
  rewrite Hbody in Hlen. discriminate Hlen.
Qed.

Lemma Decrypt_mimetype_first_witness :
  fst (Sample.run Sample.manifestText None) = Ok tt
  /\ exists wr es,
      outZip (snd (Sample.run Sample.manifestText None)) = Some wr
      /\ wClosed wr = true
      /\ wDir wr = {| hName := "mimetype"; hMethod := Store;
                      body := list_ascii_of_string "application/epub+zip" |} :: es
      /\ length (list_ascii_of_string "application/epub+zip") = 20%nat.
Proof.
  split; [vm_compute; reflexivity|].
  apply (Decrypt_mimetype_first
           Sample.zip_NewReader Sample.json_Decode Sample.xml_Decode
           Sample.flate_NewReader Sample.neverFails
           (Sample.epub Sample.manifestText) 0%Z Sample.userKeyHex None true).
  vm_compute. reflexivity.
Defined.

Lemma Decrypt_entries_and_comment_witness :
  fst (Sample.run Sample.manifestText None) = Ok tt
  /\ exists wr,
      outZip (snd (Sample.run Sample.manifestText None)) = Some wr
      /\ wComment wr = "sample book"
      /\ List.map hName (wDir wr)
         = ["mimetype"; "META-INF/"; "OEBPS/ch1.xhtml"; "OEBPS/style.css"].
Proof.
  split; [vm_compute; reflexivity|].
  destruct (Decrypt_entries_and_comment
              Sample.zip_NewReader Sample.json_Decode Sample.xml_Decode
              Sample.flate_NewReader Sample.neverFails
              (Sample.epub Sample.manifestText) 0%Z Sample.userKeyHex None true
              (snd (Sample.run Sample.manifestText None))
              ltac:(vm_compute; reflexivity))
    as (inFile & wr & Hzip & Hw & Hc & Hnames & _).
  assert (HinFile : inFile = Sample.archive Sample.manifestText).
  { assert (Hz : Sample.zip_NewReader (Sample.epub Sample.manifestText) 0
                 = Ok (Sample.archive Sample.manifestText)) by (vm_compute; reflexivity).
    rewrite Hz in Hzip. injection Hzip as <-. reflexivity. }
  subst inFile.
  exists wr. split; [exact Hw|]. split; [exact Hc|]. exact Hnames.
Defined.

Lemma Decrypt_plain_entries_copied_witness :
  fst (Sample.run Sample.manifestText None) = Ok tt
  /\ exists wr,
      outZip (snd (Sample.run Sample.manifestText None)) = Some wr
      /\ wDir wr !! 3%nat = Some {| hName := "OEBPS/style.css"; hMethod := Deflate;
                                    body := list_ascii_of_string "p{}" |}.
Proof.
  split; [vm_compute; reflexivity|].
  destruct (Decrypt_plain_entries_copied
              Sample.zip_NewReader Sample.json_Decode Sample.xml_Decode
              Sample.flate_NewReader Sample.neverFails
              (Sample.epub Sample.manifestText) 0%Z Sample.userKeyHex None true
              (snd (Sample.run Sample.manifestText None))
              ltac:(vm_compute; reflexivity))
    as (inFile & encryptedFiles & wr & Hzip & Hlist & Hw & Hcopy).
  assert (HinFile : inFile = Sample.archive Sample.manifestText).
  { assert (Hz : Sample.zip_NewReader (Sample.epub Sample.manifestText) 0
                 = Ok (Sample.archive Sample.manifestText)) by (vm_compute; reflexivity).
    rewrite Hz in Hzip. injection Hzip as <-. reflexivity. }
  subst inFile.
  assert (Hfiles : encryptedFiles = Sample.fileEntries).
  { assert (Hl : listEncryptedFiles Sample.xml_Decode (Sample.archive Sample.manifestText)
                 = Ok Sample.fileEntries) by (vm_compute; reflexivity).
    rewrite Hl in Hlist. injection Hlist as <-. reflexivity. }
  subst encryptedFiles.
  destruct (Hcopy 2%nat (Sample.file "OEBPS/style.css" (list_ascii_of_string "p{}")))
    as (src & Hopen & Hentry).
  - vm_compute. reflexivity.
  - vm_compute. reflexivity.
  - intros fe [<- | []]. discriminate.
  - injection Hopen as <-. exists wr. split; [exact Hw | exact Hentry].
Defined.

Lemma Decrypt_mimetype_header_error_discarded_witness :
  fst (Sample.runOn (Sample.failsAt 0) Sample.manifestText None) = Panic NilDereference
  /\ fst (Sample.runOn (Sample.failsAt 1) Sample.manifestText None)
     = Err (Wrap "error appending mimetype file to output zip file"
              (LibError "io" "disk full")).
Proof.
  pose proof (fun out =>
              Decrypt_mimetype_header_error_discarded
                Sample.zip_NewReader Sample.json_Decode Sample.xml_Decode
                Sample.flate_NewReader
                out (Sample.epub Sample.manifestText) 0%Z Sample.userKeyHex None true
                (hx Sample.userKeyHex) (Sample.archive Sample.manifestText)
                (bytes_NewReader Sample.licenseText) Sample.contentKey Sample.fileEntries
                ltac:(discriminate)
                ltac:(vm_compute; reflexivity)
                ltac:(vm_compute; reflexivity)
                ltac:(vm_compute; reflexivity)
                ltac:(vm_compute; reflexivity)
                ltac:(vm_compute; reflexivity)
                ltac:(vm_compute; discriminate)) as Hthm.
  split.
  - destruct (Hthm (Sample.failsAt 0)) as [Hfail _].
    destruct (Hfail (LibError "io" "disk full")
                    (snd (createHeader "mimetype" Store
                            (Sample.beforeMimetype (Sample.failsAt 0))))
                    ltac:(vm_compute; reflexivity)) as [_ Hrun].
    unfold Sample.runOn. rewrite Hrun. reflexivity.
  - destruct (Hthm (Sample.failsAt 1)) as [_ Hwrite].
    unfold Sample.runOn.
    rewrite (Hwrite (fileWriter 0) (LibError "io" "disk full")
                    (snd (createHeader "mimetype" Store
                            (Sample.beforeMimetype (Sample.failsAt 1))))
                    (snd (io_WriteString (fileWriter 0) "application/epub+zip"
                            (snd (createHeader "mimetype" Store
                                    (Sample.beforeMimetype (Sample.failsAt 1))))))
                    ltac:(vm_compute; reflexivity)
                    ltac:(vm_compute; reflexivity)).
    reflexivity.
Defined.

(** ** Length of what the cipher returns *)

Lemma xorN_length a b : length (AES.xorN a b) = Nat.min (length a) (length b).
Proof. unfold AES.xorN. rewrite length_map, length_combine. reflexivity. Qed.

Lemma InvShiftRows_length s : length (AES.InvShiftRows s) = 16%nat.
Proof. unfold AES.InvShiftRows. rewrite length_map, length_seq. reflexivity. Qed.

Lemma InvRounds_length mid :
  forall s k0, length (AES.InvRounds s (mid ++ [k0])) = Nat.min 16 (length k0).
Proof.
  induction mid as [|k mid IH]; intros s k0.
  - cbn [app AES.InvRounds]. unfold AES.AddRoundKey, AES.InvSubBytes.
    rewrite xorN_length, length_map, InvShiftRows_length. reflexivity.
  - destruct mid as [|k' mid'].
    + cbn [app AES.InvRounds]. unfold AES.AddRoundKey at 1, AES.InvSubBytes at 1.
      rewrite xorN_length, length_map, InvShiftRows_length. reflexivity.
    + change (AES.InvRounds s ((k :: k' :: mid') ++ [k0]))
        with (AES.InvRounds
                (AES.InvMixColumns
                   (AES.AddRoundKey (AES.InvSubBytes (AES.InvShiftRows s)) k))
                ((k' :: mid') ++ [k0])).
      apply IH.
Qed.

Lemma InvCipher_length k0 k1 rest block :
  length k0 = 16%nat ->
  length (AES.InvCipher (k0 :: k1 :: rest) block) = 16%nat.
Proof.
  intros Hk0. unfold AES.InvCipher.
  change (k0 :: k1 :: rest) with ([k0] ++ (k1 :: rest)).
  rewrite rev_app_distr. cbn [rev app].
  destruct (rev rest ++ [k1]) as [|klast mid] eqn:E.
  - destruct (rev rest); discriminate E.
  - cbn [app]. rewrite InvRounds_length, Hk0. reflexivity.
Qed.

Lemma expand_app fuel Nk :
  forall i rcon w,
    exists new, AES.expand fuel Nk i rcon w = new ++ w /\ length new = fuel.
Proof.
  induction fuel as [|f IH]; intros i rcon w.
  - exists []. split; reflexivity.
  - cbn [AES.expand].
    destruct (Nat.eqb (i mod Nk) 0);
      [| destruct (andb (Nat.ltb 6 Nk) (Nat.eqb (i mod Nk) 4))];
      match goal with
      | |- context [AES.expand f Nk (S i) ?r (?x :: w)] =>
          destruct (IH (S i) r (x :: w)) as (new & -> & Hlen);
          exists (new ++ [x]); split;
          [rewrite <- app_assoc; reflexivity | rewrite length_app; cbn; lia]
      end.
Qed.

Lemma KeyExpansion_head (key : list N) :
  (length key = 16 \/ length key = 24 \/ length key = 32)%nat ->
  exists k0 k1 rest,
    AES.KeyExpansion key = k0 :: k1 :: rest /\ length k0 = 16%nat.
Proof.
  intros Hlen. unfold AES.KeyExpansion. cbv zeta.
  destruct Hlen as [Hlen | [Hlen | Hlen]]; rewrite Hlen.
  - change (16 / 4)%nat with 4%nat. change (4 + 6 + 1)%nat with 11%nat.
    destruct (expand_app (4 * 11 - 4) 4 4 1%N (rev (AES.chunks4 4 key)))
      as (new & -> & Hnew).
    rewrite rev_app_distr, rev_involutive.
    do 16 (destruct key as [|? key]; [discriminate Hlen|]).
    destruct key; [|discriminate Hlen].
    cbn [AES.chunks4 firstn skipn app].
    destruct (rev new) as [|x rn] eqn:E.
    { apply (f_equal (@length _)) in E. rewrite length_rev, Hnew in E. discriminate E. }
    cbn [AES.chunks4 firstn skipn app List.map List.concat].
    do 3 eexists. split; reflexivity.
  - change (24 / 4)%nat with 6%nat. change (6 + 6 + 1)%nat with 13%nat.
    destruct (expand_app (4 * 13 - 6) 6 6 1%N (rev (AES.chunks4 6 key)))
      as (new & -> & Hnew).
    rewrite rev_app_distr, rev_involutive.
    do 24 (destruct key as [|? key]; [discriminate Hlen|]).
    destruct key; [|discriminate Hlen].
    cbn [AES.chunks4 firstn skipn app List.map List.concat].
    do 3 eexists. split; reflexivity.
  - change (32 / 4)%nat with 8%nat. change (8 + 6 + 1)%nat with 15%nat.
    destruct (expand_app (4 * 15 - 8) 8 8 1%N (rev (AES.chunks4 8 key)))
      as (new & -> & Hnew).
    rewrite rev_app_distr, rev_involutive.
    do 32 (destruct key as [|? key]; [discriminate Hlen|]).
    destruct key; [|discriminate Hlen].
    cbn [AES.chunks4 firstn skipn app List.map List.concat].
    do 3 eexists. split; reflexivity.
Qed.

Lemma AES_Decrypt_length (key : bytes) (b : AES.Block) (src : bytes) :
  AES.NewCipher key = Ok b -> length (AES.Decrypt b src) = 16%nat.
Proof.
  intros Hk.
  assert (Hlen : (length key = 16 \/ length key = 24 \/ length key = 32)%nat).
  { apply NewCipher_ok_iff. exists b. exact Hk. }
  unfold AES.NewCipher in Hk.
  destruct (Nat.eqb (length key) 16 || Nat.eqb (length key) 24
            || Nat.eqb (length key) 32)%bool; [|discriminate Hk].
  injection Hk as <-. unfold AES.Decrypt. cbn [AES.roundKeys].
  rewrite length_map.
  destruct (KeyExpansion_head (List.map N_of_ascii key)) as (k0 & k1 & rest & -> & Hk0).
  { rewrite length_map. exact Hlen. }
  apply InvCipher_length. exact Hk0.
Qed.

Lemma xorBytes_length a b : length (xorBytes a b) = Nat.min (length a) (length b).
Proof. unfold xorBytes. rewrite length_map, length_combine. reflexivity. Qed.

Lemma cbcBlocks_length (key : bytes) (b : AES.Block) :
  AES.NewCipher key = Ok b ->
  forall n prev src,
    length prev = 16%nat -> (16 * n <= length src)%nat ->
    length (cbcBlocks b n prev src) = (16 * n)%nat.
Proof.
  intros Hk. induction n as [|n IH]; intros prev src Hprev Hsrc; [reflexivity|].
  cbn [cbcBlocks]. unfold AES.BlockSize.
  rewrite length_app, xorBytes_length, (AES_Decrypt_length key b _ Hk), Hprev.
  rewrite IH.
  - cbn [Nat.min]. lia.
  - rewrite length_firstn. lia.
  - rewrite length_skipn. lia.
Qed.

(** X1: [decipherAES256CBC] returns a plaintext exactly when the key has an
    AES length, the blob is an IV followed by one or more whole blocks, and
    the last byte [p] of the CBC plaintext is at most its length; the result
    is then that plaintext without its last [p] bytes, so it is
    [len(data) - 16 - p] bytes long.  Only the last byte is looked at: the
    other padding bytes are not compared, and [p] may be 0 or exceed 16. *)
Theorem decipherAES256CBC_Ok_iff (data key out : bytes) :
  decipherAES256CBC data key = Ok out
  <-> exists b pb,
      AES.NewCipher key = Ok b
      /\ (16 < length data)%nat
      /\ (length data mod 16 = 0)%nat
      /\ let res := cbcBlocks b ((length data - 16) / 16)
                      (firstn 16 data) (skipn 16 data) in
         length res = (length data - 16)%nat
         /\ lastByte res = Ok pb
         /\ (nat_of_ascii pb <= length res)%nat
         /\ out = firstn (length res - nat_of_ascii pb) res
         /\ length out = (length data - 16 - nat_of_ascii pb)%nat.
Proof.
  split.
  - intros Hok.
    destruct (AES.NewCipher key) as [b|e|p] eqn:Hk.
    2:{ unfold decipherAES256CBC in Hok. rewrite Hk in Hok. discriminate Hok. }
    2:{ unfold AES.NewCipher in Hk.
        destruct (Nat.eqb (length key) 16 || Nat.eqb (length key) 24
                  || Nat.eqb (length key) 32)%bool; discriminate Hk. }
    destruct (Nat.lt_ge_cases (length data) 16) as [Hshort|Hge].
    { rewrite (decipher_short data key b Hk Hshort) in Hok. discriminate Hok. }
    destruct (Nat.eq_dec (length data mod 16) 0) as [Hmod|Hmod].
    2:{ rewrite (decipher_ragged data key b Hk Hge Hmod) in Hok. discriminate Hok. }
    destruct (Nat.eq_dec (length data) 16) as [Hone|Hne].
    { rewrite (decipher_one_block data key b Hk Hone) in Hok. discriminate Hok. }
    assert (Hlen : (16 < length data)%nat) by lia.
    rewrite (decipher_full_blocks data key b Hk Hlen Hmod) in Hok.
    set (res := cbcBlocks b ((length data - 16) / 16) (firstn 16 data) (skipn 16 data))
      in *.
    assert (Hres : length res = (length data - 16)%nat).
    { unfold res. rewrite (cbcBlocks_length key b Hk).
      - apply Nat.Div0.div_exact in Hmod.
        assert (Hm : ((length data - 16) mod 16 = 0)%nat).
        { rewrite Hmod.
          replace (16 * (length data / 16) - 16)%nat
            with (((length data / 16) - 1) * 16)%nat by lia.
          apply Nat.Div0.mod_mul. }
        apply Nat.Div0.div_exact in Hm. lia.
      - rewrite length_firstn. lia.
      - rewrite length_skipn.
        pose proof (Nat.Div0.mul_div_le (length data - 16) 16). lia. }
    destruct (lastByte res) as [pb|e|p] eqn:Hpb; try discriminate Hok.
    cbn [obind] in Hok.
    destruct (Nat.ltb_spec (length res) (nat_of_ascii pb)) as [Hbad|Hgood];
      [discriminate Hok|].
    injection Hok as <-.
    exists b, pb. repeat (split; [assumption || reflexivity|]).
    rewrite length_firstn. lia.
  - intros (b & pb & Hk & Hlen & Hmod & Hres & Hpb & Hle & -> & _).
    rewrite (decipher_full_blocks data key b Hk Hlen Hmod).
    rewrite Hpb. cbn [obind].
    destruct (Nat.ltb_spec
                (length (cbcBlocks b ((length data - 16) / 16)
                           (firstn 16 data) (skipn 16 data)))
                (nat_of_ascii pb)); [lia | reflexivity].
Qed.

Lemma decipherAES256CBC_Ok_iff_witness :
  decipherAES256CBC Sample.chapter Sample.contentKey
    = Ok (list_ascii_of_string "<p>Hi</p>")
  /\ length (list_ascii_of_string "<p>Hi</p>") = (length Sample.chapter - 16 - 7)%nat.
Proof.
  assert (H : decipherAES256CBC Sample.chapter Sample.contentKey
              = Ok (list_ascii_of_string "<p>Hi</p>")) by (vm_compute; reflexivity).
  split; [exact H|].
  destruct (proj1 (decipherAES256CBC_Ok_iff _ _ _) H)
    as (b & pb & Hk & _ & _ & _ & Hpb & _ & _ & Hlen).
  assert (Hb : AES.NewCipher Sample.contentKey
               = Ok {| AES.roundKeys :=
                         AES.KeyExpansion (List.map N_of_ascii Sample.contentKey) |})
    by reflexivity.
  rewrite Hb in Hk. injection Hk as <-.
  assert (Hp : pb = ascii_of_nat 7).
  { vm_compute in Hpb. injection Hpb as <-. reflexivity. }
  subst pb. exact Hlen.
Defined.

(** ** The path lookup *)

Lemma group_fold_lookup (l : list FileEntry) (k : string) :
  forall m : gmap string FileEntry,
    fold_left (fun res s => <[Path s := s]> res) l m !! k
    = match last (List.filter (fun fe => String.eqb (Path fe) k) l) with
      | Some fe => Some fe
      | None => m !! k
      end.
Proof.
  induction l as [|x l IH]; intros m; [reflexivity|].
  cbn [fold_left List.filter]. rewrite IH.
  destruct (String.eqb_spec (Path x) k) as [Heq|Hne].
  - rewrite last_cons.
    destruct (last (List.filter (fun fe => String.eqb (Path fe) k) l));
      [reflexivity|].
    rewrite <- Heq. apply lookup_insert_eq.
  - destruct (last (List.filter (fun fe => String.eqb (Path fe) k) l));
      [reflexivity|].
    apply lookup_insert_ne. exact Hne.
Qed.

Lemma group_lookup_last (l : list FileEntry) (k : string) :
  groupFileEntriesByPath l !! k
  = last (List.filter (fun fe => String.eqb (Path fe) k) l).
Proof.
  unfold groupFileEntriesByPath. rewrite group_fold_lookup.
  destruct (last _); [reflexivity | apply lookup_empty].
Qed.

(** X2: the lookup built by [groupFileEntriesByPath] maps a path to the
    last entry of the list that has this path, and to nothing when no entry
    has it; in particular an entry appended to the list replaces any earlier
    one of the same path. *)
Theorem groupFileEntriesByPath_last_wins (l : list FileEntry) (k : string) :
  groupFileEntriesByPath l !! k
  = last (List.filter (fun fe => String.eqb (Path fe) k) l)
  /\ (groupFileEntriesByPath l !! k = None <-> forall fe, In fe l -> Path fe <> k)
  /\ (forall fe, groupFileEntriesByPath (l ++ [fe]) !! Path fe = Some fe).
Proof.
  split; [apply group_lookup_last|]. split.
  - rewrite group_lookup_last, last_None. split.
    + intros Hnil fe Hin Hp.
      assert (Hf : In fe (List.filter (fun fe => String.eqb (Path fe) k) l)).
      { apply List.filter_In. split; [exact Hin|]. apply String.eqb_eq. exact Hp. }
      rewrite Hnil in Hf. destruct Hf.
    + intros Hall.
      destruct (List.filter (fun fe => String.eqb (Path fe) k) l) as [|x t] eqn:E;
        [reflexivity|].
      assert (Hx : In x (List.filter (fun fe => String.eqb (Path fe) k) l))
        by (rewrite E; left; reflexivity).
      apply List.filter_In in Hx as [Hin Hp]. apply String.eqb_eq in Hp.
      exfalso. exact (Hall x Hin Hp).
  - intros fe. rewrite group_lookup_last, List.filter_app. cbn [List.filter].
    rewrite String.eqb_refl. apply last_snoc.
Qed.

(** ** The manifest parser, on success *)

Lemma listLoop_Ok_iff (ds : list EncryptedData) :
  forall res out,
    listLoop ds res = Ok out
    <-> exists fes, out = res ++ fes /\ Forall2 parsedAs ds fes.
Proof.
  induction ds as [|d ds IH]; intros res out; cbn [listLoop].
  - split.
    + intros H. injection H as <-. exists []. rewrite app_nil_r.
      split; [reflexivity | constructor].
    + intros (fes & -> & Hall). inversion Hall. rewrite app_nil_r. reflexivity.
  - split.
    + intros H.
      destruct (url_PathUnescape (URI d)) as [path|e|p] eqn:Hpath; try discriminate H.
      destruct (supportedAlgorithm (Algorithm d)) eqn:Hsup; [|discriminate H].
      apply IH in H as (fes & -> & Hall).
      eexists (_ :: fes). split; [rewrite <- app_assoc; reflexivity|].
      constructor; [|exact Hall]. repeat split; assumption.
    + intros (fes & -> & Hall).
      inversion Hall as [|? fe ? fes' (Hpath & Halg & Hsup & Hcomp) Hall']; subst.
      rewrite Hpath, Hsup. apply IH. exists fes'.
      split; [|exact Hall'].
      rewrite <- app_assoc. cbn [app]. do 2 f_equal.
      destruct fe as [p c a]. cbn in *. congruence.
Qed.

Lemma isCompressedOf_true_iff (d : EncryptedData) :
  isCompressedOf d = true
  <-> exists p c, In p (EncryptionProperty_ d) /\ In c (Compression_ p)
                  /\ Method c = 8%Z.
Proof.
  unfold isCompressedOf. rewrite existsb_exists. split.
  - intros (p & Hp & Hc). apply existsb_exists in Hc as (c & Hc & Hm).
    exists p, c. repeat split; try assumption. apply Z.eqb_eq. exact Hm.
  - intros (p & c & Hp & Hc & Hm). exists p. split; [exact Hp|].
    apply existsb_exists. exists c. split; [exact Hc|]. apply Z.eqb_eq. exact Hm.
Qed.

Section ManifestParser.

Variable xml_Decode : Reader -> outcome Encryption.

(** X3: once the manifest is opened and decoded, [listEncryptedFiles]
    succeeds exactly when every record names one of the two known
    algorithms and has a cipher-reference URI that percent-decodes; the
    result then has one entry per record, in the order of the records, with
    the decoded path, the raw algorithm identifier, and the compressed flag
    set exactly when some compression sub-record of the record has method
    8. *)
Theorem listEncryptedFiles_Ok_iff (epubRoot : zip_Reader) (encFile : Reader)
        (enc : Encryption) (fes : list FileEntry) :
  Open epubRoot "META-INF/encryption.xml" = Ok encFile ->
  xml_Decode encFile = Ok enc ->
  (listEncryptedFiles xml_Decode epubRoot = Ok fes
   <-> Forall2 parsedAs (EncryptedData_ enc) fes)
  /\ (forall d fe, parsedAs d fe ->
        (IsCompressed fe = true
         <-> exists p c, In p (EncryptionProperty_ d) /\ In c (Compression_ p)
                         /\ Method c = 8%Z)).
Proof.
  intros Hopen Hxml. split.
  - unfold listEncryptedFiles. rewrite Hopen. cbn [wrapErr obind].
    rewrite Hxml. cbn [wrapErr obind]. rewrite listLoop_Ok_iff. split.
    + intros (fes' & -> & Hall). exact Hall.
    + intros Hall. exists fes. split; [reflexivity | exact Hall].
  - intros d fe (_ & _ & _ & ->). apply isCompressedOf_true_iff.
Qed.

End ManifestParser.

(** ** Key derivation, on success *)

Section KeyDerivation.

Variable json_Decode : Reader -> outcome License.

Lemma getContentKey_Ok_inv (licenseFile : Reader) (userKey contentKey : bytes) :
  getContentKey json_Decode licenseFile userKey = Ok contentKey ->
  exists license encryptedKeyCheck encryptedContentKey,
    json_Decode licenseFile = Ok license
    /\ base64_DecodeString (KeyCheck license) = Ok encryptedKeyCheck
    /\ decipherAES256CBC encryptedKeyCheck userKey
       = Ok (list_ascii_of_string (ID license))
    /\ base64_DecodeString (EncryptedValue license) = Ok encryptedContentKey
    /\ decipherAES256CBC encryptedContentKey userKey = Ok contentKey.
Proof.
  unfold getContentKey. intros H.
  destruct (json_Decode licenseFile) as [license|e|p] eqn:Hjson; try discriminate H.
  cbn [wrapErr obind] in H.
  destruct (base64_DecodeString (KeyCheck license)) as [ekc|e|p] eqn:Hekc;
    try discriminate H.
  cbn [wrapErr obind] in H.
  destruct (decipherAES256CBC ekc userKey) as [kc|e|p] eqn:Hkc; try discriminate H.
  cbn [wrapErr obind] in H.
  destruct (String.eqb_spec (string_of_list_ascii kc) (ID license)) as [Hid|Hid];
    [|discriminate H].
  cbn [negb] in H.
  destruct (base64_DecodeString (EncryptedValue license)) as [eck|e|p] eqn:Heck;
    try discriminate H.
  cbn [wrapErr obind] in H. apply wrapErr_Ok in H.
  exists license, ekc, eck. split; [reflexivity|]. split; [exact Hekc|].
  split; [|split; [exact Heck | exact H]].
  rewrite Hkc, <- Hid, list_ascii_of_string_of_list_ascii. reflexivity.
Qed.

(** X4: [getContentKey] returns a key exactly when the licence decodes,
    both base64 fields decode, the key check decrypts under the user key to
    the bytes of the licence identifier, and the encrypted content key
    decrypts under the user key; the key returned is that last plaintext. *)
Theorem getContentKey_Ok_iff (licenseFile : Reader) (userKey contentKey : bytes) :
  getContentKey json_Decode licenseFile userKey = Ok contentKey
  <-> exists license encryptedKeyCheck encryptedContentKey,
      json_Decode licenseFile = Ok license
      /\ base64_DecodeString (KeyCheck license) = Ok encryptedKeyCheck
      /\ decipherAES256CBC encryptedKeyCheck userKey
         = Ok (list_ascii_of_string (ID license))
      /\ base64_DecodeString (EncryptedValue license) = Ok encryptedContentKey
      /\ decipherAES256CBC encryptedContentKey userKey = Ok contentKey.
Proof.
  split; [apply getContentKey_Ok_inv|].
  unfold getContentKey.
  intros (license & ekc & eck & Hjson & Hekc & Hkc & Heck & Hck).
  rewrite Hjson. cbn [wrapErr obind]. rewrite Hekc. cbn [wrapErr obind].
  rewrite Hkc. cbn [wrapErr obind].
  rewrite string_of_list_ascii_of_string, String.eqb_refl. cbn [negb].
  rewrite Heck. cbn [wrapErr obind]. rewrite Hck. reflexivity.
Qed.

End KeyDerivation.

(** ** The transcoder, on success *)

Lemma Reader_Close_Ok (r : Reader) : Reader_Close r = Ok tt -> rdClose r = None.
Proof. unfold Reader_Close. destruct (rdClose r); [discriminate | reflexivity]. Qed.

Lemma io_ReadAll_Ok (r : Reader) (data : bytes) :
  io_ReadAll r = Ok data -> rdErr r = None /\ data = rdData r.
Proof.
  unfold io_ReadAll. destruct (rdErr r); [discriminate|].
  intros H. injection H as <-. split; reflexivity.
Qed.

Section Exact.

Variable zip_NewReader : bytes -> Z -> outcome zip_Reader.
Variable json_Decode : Reader -> outcome License.
Variable xml_Decode : Reader -> outcome Encryption.
Variable flate_NewReader : Reader -> Reader.

Lemma decryptFile_file_exact idx src key alg comp s s' :
  decryptFile flate_NewReader (fileWriter idx) src key alg comp s = (Ok tt, s') ->
  forall wr, outZip s = Some wr ->
  exists wr' decipherFunc data,
    decipherFor alg = Some decipherFunc
    /\ rdErr src = None
    /\ decipherFunc (rdData src) key = Ok data
    /\ rdErr (cleartextOf flate_NewReader comp data) = None
    /\ outZip s' = Some wr'
    /\ wDir wr' = appendBody (rdData (cleartextOf flate_NewReader comp data)) (wDir wr)
    /\ wOpen wr' = wOpen wr
    /\ sameArchive wr wr'
    /\ trace s' = trace s.
Proof.
  unfold decryptFile. intros H wr Hwr.
  apply bind_Ok in H as (encryptedData & s1 & H1 & H).
  apply lift_Ok in H1 as [Hread ->]. apply wrapErr_Ok, io_ReadAll_Ok in Hread as [Herr ->].
  apply bind_Ok in H as (decipherFunc & s1 & H1 & H).
  apply lift_Ok in H1 as [Hfunc ->].
  apply bind_Ok in H as (data & s1 & H1 & H).
  apply lift_Ok in H1 as [Hdata ->]. apply wrapErr_Ok in Hdata.
  apply wrapErrM_Ok in H.
  eapply io_Copy_file_Ok in H as (wr' & Hs' & Hdir & Hopen & Hsame & Htr & Hcerr);
    [|exact Hwr].
  exists wr', decipherFunc, data.
  split.
  { unfold decipherFor.
    destruct (String.eqb alg EncryptionAlgorithmAES256CBC); [congruence|].
    destruct (String.eqb alg EncryptionAlgorithmFontObfuscation);
      [congruence | discriminate Hfunc]. }
  repeat (split; [assumption|]). assumption.
Qed.

Lemma log_exact logger msg s s' :
  log logger msg s = (Ok tt, s') ->
  outZip s' = outZip s
  /\ trace s' = trace s ++ (if logger then [LogMsg msg] else []).
Proof.
  unfold log. destruct logger; intros H.
  - apply emit_Ok in H. exact H.
  - injection H as <-. rewrite app_nil_r. split; reflexivity.
Qed.

Lemma transcodeEntry_exact logger key m f s s' :
  transcodeEntry flate_NewReader logger key m f s = (Ok tt, s') ->
  if skipped (Name f) then s' = s
  else exists wr wr' e,
      outZip s = Some wr /\ outZip s' = Some wr'
      /\ wDir wr' = wDir wr ++ [e]
      /\ entryOf flate_NewReader key m f e
      /\ sameArchive wr wr'
      /\ trace s' = trace s ++ eventsOf logger m f.
Proof.
  unfold transcodeEntry, eventsOf. destruct (skipped (Name f)) eqn:Esk; intros H.
  { injection H as <-. reflexivity. }
  apply bind_Ok in H as ([] & s1 & Hlog & H).
  apply log_exact in Hlog as (Ho1 & Ht1).
  apply bind_Ok in H as (dstFile & s2 & Hcreate & H).
  apply wrapErrM_Ok in Hcreate. unfold Create in Hcreate.
  apply createHeader_Ok in Hcreate
    as (wr & wr2 & Hs1 & Hs2 & Hdir2 & Hopen2 & Hsame2 & Ht2 & Hdst).
  rewrite Ho1 in Hs1.
  unfold entryOf.
  destruct (strings_HasSuffix (Name f) "/") eqn:Edir.
  - injection H as <-.
    exists wr, wr2. eexists.
    split; [exact Hs1|]. split; [exact Hs2|]. split; [exact Hdir2|].
    split; [cbn; auto|]. split; [exact Hsame2|].
    rewrite Ht2, Ht1, app_nil_r. reflexivity.
  - apply bind_Ok in H as ([] & s3 & Hemit & H).
    apply emit_Ok in Hemit as [Ho3 Ht3].
    apply bind_Ok in H as (srcFile & s4 & Hopen & H).
    apply lift_Ok in Hopen as [Hopen ->]. apply wrapErr_Ok in Hopen.
    apply bind_Ok in H as ([] & s5 & Hcopy & H).
    apply lift_Ok in H as [Hclose ->]. apply wrapErr_Ok, Reader_Close_Ok in Hclose.
    apply wrapErrM_Ok in Hcopy. subst dstFile.
    rewrite <- Ho3 in Hs2.
    destruct (m !! Name f) as [fileEntry|] eqn:Elook.
    + apply bind_Ok in Hcopy as ([] & s6 & Hemit & Hcopy).
      apply emit_Ok in Hemit as [Ho6 Ht6].
      rewrite <- Ho6 in Hs2.
      eapply decryptFile_file_exact in Hcopy
        as (wr5 & decipherFunc & data & Hfor & Herr & Hdata & Hcerr & Hs5 & Hdir5
            & Hopen5 & Hsame5 & Ht5); [|exact Hs2].
      rewrite Hdir2, appendBody_last in Hdir5. cbn [hName hMethod body app] in Hdir5.
      exists wr, wr5. eexists.
      split; [exact Hs1|]. split; [exact Hs5|]. split; [exact Hdir5|].
      split.
      { cbn [hName hMethod body]. split; [reflexivity|]. split; [reflexivity|].
        exists srcFile. repeat (split; [assumption|]).
        exists decipherFunc, data. repeat (split; [assumption|]). reflexivity. }
      split; [eapply sameArchive_trans; eassumption|].
      rewrite Ht5, Ht6, Ht3, Ht2, Ht1, <- !app_assoc. reflexivity.
    + eapply io_Copy_file_Ok in Hcopy
        as (wr5 & Hs5 & Hdir5 & Hopen5 & Hsame5 & Ht5 & Herr); [|exact Hs2].
      rewrite Hdir2, appendBody_last in Hdir5. cbn [hName hMethod body app] in Hdir5.
      exists wr, wr5. eexists.
      split; [exact Hs1|]. split; [exact Hs5|]. split; [exact Hdir5|].
      split.
      { cbn [hName hMethod body]. split; [reflexivity|]. split; [reflexivity|].
        exists srcFile. repeat (split; [assumption|]). reflexivity. }
      split; [eapply sameArchive_trans; eassumption|].
      rewrite Ht5, Ht3, Ht2, Ht1, <- !app_assoc. reflexivity.
Qed.

Lemma transcode_exact logger key m files :
  forall s s' wr,
    transcode flate_NewReader logger key m files s = (Ok tt, s') ->
    outZip s = Some wr ->
    exists wr' es,
      outZip s' = Some wr'
      /\ wDir wr' = wDir wr ++ es
      /\ Forall2 (entryOf flate_NewReader key m) (List.filter notSkipped files) es
      /\ sameArchive wr wr'
      /\ trace s' = trace s ++ List.concat (List.map (eventsOf logger m) files).
Proof.
  induction files as [|f files IH]; intros s s' wr H Hwr.
  - injection H as <-. exists wr, []. cbn [List.map List.concat].
    rewrite !app_nil_r.
    split; [exact Hwr|]. split; [reflexivity|]. split; [constructor|].
    split; [apply sameArchive_refl | reflexivity].
  - cbn [transcode] in H.
    apply bind_Ok in H as ([] & s1 & Hentry & H).
    apply transcodeEntry_exact in Hentry.
    cbn [List.filter List.map List.concat]. unfold notSkipped at 1.
    unfold eventsOf at 1.
    destruct (skipped (Name f)) eqn:Esk; cbn [negb].
    + subst s1. cbn [app]. eapply IH; eassumption.
    + destruct Hentry as (wr0 & wr1 & e & Hs & Hs1 & Hdir1 & Hent & Hsame1 & Ht1).
      rewrite Hwr in Hs. injection Hs as <-.
      destruct (IH s1 s' wr1 H Hs1) as (wr' & es & Hs' & Hdir' & Hall & Hsame' & Ht').
      exists wr', (e :: es).
      split; [exact Hs'|].
      split; [rewrite Hdir', Hdir1, <- app_assoc; reflexivity|].
      split; [constructor; assumption|].
      split; [eapply sameArchive_trans; eassumption|].
      rewrite Ht', Ht1. unfold eventsOf at 1. rewrite Esk, <- !app_assoc. reflexivity.
Qed.

Lemma writeArchive_exact out logger inFile key encryptedFiles w :
  writeArchive flate_NewReader out logger inFile key encryptedFiles empty_world
    = (Ok tt, w) ->
  exists wr es,
    outZip w = Some wr
    /\ wDir wr = mimetypeEntry :: es
    /\ Forall2 (entryOf flate_NewReader key (groupFileEntriesByPath encryptedFiles))
               (List.filter notSkipped (File inFile)) es
    /\ trace w
       = List.concat (List.map (eventsOf logger (groupFileEntriesByPath encryptedFiles))
                               (File inFile))
         ++ (if logger then [LogMsg "Decrypted ePUB"] else []).
Proof.
  unfold writeArchive. intros H.
  apply bind_Ok in H as ([] & s1 & Hnew & H).
  unfold zip_NewWriter, putWriter, empty_world in Hnew. cbn [trace] in Hnew.
  injection Hnew as <-.
  apply bind_Ok in H as ([] & s2 & Hcomment & H).
  apply wrapErrM_Ok, SetComment_Ok in Hcomment
    as (wr1 & wr2 & Hs1 & Hs2 & Hc2 & Hdir2 & Hopen2 & Hclosed2 & Ht2).
  cbn [outZip] in Hs1. injection Hs1 as <-. cbn in Hdir2, Hopen2, Hclosed2, Ht2.
  apply bind_Ok in H as (mimetype & s3 & Hcreate & H).
  unfold CreateHeader in Hcreate.
  destruct (createHeader "mimetype" Store s2) as [[h|e|p] s3'] eqn:Ech;
    try discriminate; injection Hcreate as <- <-; cbn [fst] in H.
  2:{ apply bind_Ok in H as ([] & s4 & Hw & _). discriminate. }
  apply createHeader_Ok in Ech
    as (wr2' & wr3 & Hs2' & Hs3 & Hdir3 & Hopen3 & Hsame3 & Ht3 & Hh).
  rewrite Hs2 in Hs2'. injection Hs2' as <-.
  change (strings_HasSuffix "mimetype" "/") with false in Hdir3, Hh.
  subst h. rewrite Hdir2 in Hdir3. cbn [app] in Hdir3.
  apply bind_Ok in H as ([] & s4 & Hw & H).
  apply wrapErrM_Ok in Hw. unfold io_WriteString in Hw.
  apply Write_file_Ok in Hw as (wr3' & wr4 & Hs3' & Hs4 & Hdir4 & Hopen4 & Hsame4 & Ht4).
  rewrite Hs3 in Hs3'. injection Hs3' as <-.
  rewrite Hdir3 in Hdir4. cbn [appendBody hName hMethod body app] in Hdir4.
  apply bind_Ok in H as ([] & s5 & Htrans & H).
  destruct (transcode_exact _ _ _ _ _ _ _ Htrans Hs4)
    as (wr5 & es & Hs5 & Hdir5 & Hall & Hsame5 & Ht5).
  apply bind_Ok in H as ([] & s6 & Hclose & H).
  apply wrapErrM_Ok, Close_Ok in Hclose
    as (wr5' & wr6 & Hs5' & Hs6 & Hdir6 & Hc6 & Hclosed6 & Ht6).
  rewrite Hs5 in Hs5'. injection Hs5' as <-.
  apply log_exact in H as (Ho & Htl).
  exists wr6, es.
  split; [congruence|].
  split; [rewrite Hdir6, Hdir5, Hdir4; reflexivity|].
  split; [exact Hall|].
  rewrite Htl, Ht6, Ht5, Ht4, Ht3, Ht2. reflexivity.
Qed.

Lemma Decrypt_exact out inp inSize userKeyHex licenseFile logger w :
  Decrypt zip_NewReader json_Decode xml_Decode flate_NewReader
          out inp inSize userKeyHex licenseFile logger empty_world = (Ok tt, w) ->
  exists userKey inFile lic contentKey encryptedFiles wr es,
    hex_DecodeString userKeyHex = Ok userKey
    /\ zip_NewReader inp inSize = Ok inFile
    /\ licenseSource inFile licenseFile = Ok lic
    /\ getContentKey json_Decode lic userKey = Ok contentKey
    /\ listEncryptedFiles xml_Decode inFile = Ok encryptedFiles
    /\ outZip w = Some wr
    /\ wDir wr = mimetypeEntry :: es
    /\ Forall2 (entryOf flate_NewReader contentKey
                        (groupFileEntriesByPath encryptedFiles))
               (List.filter notSkipped (File inFile)) es
    /\ trace w
       = List.concat (List.map (eventsOf logger (groupFileEntriesByPath encryptedFiles))
                               (File inFile))
         ++ (if logger then [LogMsg "Decrypted ePUB"] else []).
Proof.
  intros Hrun.
  destruct (Decrypt_before_writer _ _ _ _ _ _ _ _ _ _ _ _ Hrun)
    as [[Hne _] | (userKey & inFile & lic & contentKey & encryptedFiles
                   & _ & Hhex & Hzip & Hlic & Hck & Hlist & Hwrite)].
  { exfalso. apply Hne. reflexivity. }
  apply writeArchive_exact in Hwrite as (wr & es & Hw & Hdir & Hall & Htr).
  exists userKey, inFile, lic, contentKey, encryptedFiles, wr, es. tauto.
Qed.

End Exact.

Lemma listEncryptedFiles_Ok_iff_witness :
  listEncryptedFiles Book.xml_Decode Book.archive = Ok Book.fileEntries
  /\ Forall2 parsedAs (EncryptedData_ Book.manifest) Book.fileEntries.
Proof.
  assert (H : listEncryptedFiles Book.xml_Decode Book.archive = Ok Book.fileEntries)
    by (vm_compute; reflexivity).
  split; [exact H|].
  apply (listEncryptedFiles_Ok_iff Book.xml_Decode Book.archive
           (bytes_NewReader Book.manifestText) Book.manifest Book.fileEntries
           ltac:(vm_compute; reflexivity) ltac:(vm_compute; reflexivity)).
  exact H.
Defined.

Lemma getContentKey_Ok_iff_witness :
  getContentKey Sample.json_Decode (bytes_NewReader Sample.licenseText)
                (hx Sample.userKeyHex) = Ok Sample.contentKey
  /\ exists license encryptedKeyCheck,
      Sample.json_Decode (bytes_NewReader Sample.licenseText) = Ok license
      /\ base64_DecodeString (KeyCheck license) = Ok encryptedKeyCheck
      /\ decipherAES256CBC encryptedKeyCheck (hx Sample.userKeyHex)
         = Ok (list_ascii_of_string (ID license)).
Proof.
  assert (H : getContentKey Sample.json_Decode (bytes_NewReader Sample.licenseText)
                            (hx Sample.userKeyHex) = Ok Sample.contentKey)
    by (vm_compute; reflexivity).
  split; [exact H|].
  destruct (proj1 (getContentKey_Ok_iff Sample.json_Decode _ _ _) H)
    as (license & ekc & _ & Hjson & Hekc & Hkc & _).
  exists license, ekc. repeat split; assumption.
Defined.

(** ** What a successful [Decrypt] has done *)

Lemma decipherFor_AES f :
  decipherFor EncryptionAlgorithmAES256CBC = Some f -> f = decipherAES256CBC.
Proof. intros H. injection H as <-. reflexivity. Qed.

Lemma decipherFor_Font f :
  decipherFor EncryptionAlgorithmFontObfuscation = Some f -> f = decipherFontObfuscation.
Proof. intros H. injection H as <-. reflexivity. Qed.

Lemma decipherFor_supported alg :
  supportedAlgorithm alg = true -> exists f, decipherFor alg = Some f.
Proof.
  unfold supportedAlgorithm, decipherFor.
  destruct (String.eqb alg EncryptionAlgorithmAES256CBC); [eexists; reflexivity|].
  destruct (String.eqb alg EncryptionAlgorithmFontObfuscation);
    [eexists; reflexivity | discriminate].
Qed.

Lemma group_lookup_In (l : list FileEntry) (k : string) (fe : FileEntry) :
  groupFileEntriesByPath l !! k = Some fe -> In fe l /\ Path fe = k.
Proof.
  rewrite group_lookup_last.
  intros H. apply last_Some_elem_of, list_elem_of_In, List.filter_In in H as [Hin Hp].
  split; [exact Hin | apply String.eqb_eq; exact Hp].
Qed.

Section Success.

Variable zip_NewReader : bytes -> Z -> outcome zip_Reader.
Variable json_Decode : Reader -> outcome License.
Variable xml_Decode : Reader -> outcome Encryption.
Variable flate_NewReader : Reader -> Reader.

(** X5: on success, a source entry that is not skipped, is not a directory
    marker and is listed in the manifest under the AES-256-CBC algorithm is
    found in the destination, one place further, holding the plaintext
    [decipherAES256CBC] gives for its bytes under the content key of the
    licence, inflated when the manifest marks it compressed. *)
Theorem Decrypt_aes_entries_decrypted out inp inSize userKeyHex licenseFile logger w :
  Decrypt zip_NewReader json_Decode xml_Decode flate_NewReader
          out inp inSize userKeyHex licenseFile logger empty_world = (Ok tt, w) ->
  exists userKey inFile lic contentKey encryptedFiles wr,
    hex_DecodeString userKeyHex = Ok userKey
    /\ zip_NewReader inp inSize = Ok inFile
    /\ licenseSource inFile licenseFile = Ok lic
    /\ getContentKey json_Decode lic userKey = Ok contentKey
    /\ listEncryptedFiles xml_Decode inFile = Ok encryptedFiles
    /\ outZip w = Some wr
    /\ forall (i : nat) (f : zip_File) (fe : FileEntry),
        List.filter (fun f => negb (skipped (Name f))) (File inFile) !! i = Some f ->
        strings_HasSuffix (Name f) "/" = false ->
        groupFileEntriesByPath encryptedFiles !! Name f = Some fe ->
        EncryptionAlgorithm_ fe = EncryptionAlgorithmAES256CBC ->
        exists src data,
          fOpen f = Ok src
          /\ decipherAES256CBC (rdData src) contentKey = Ok data
          /\ wDir wr !! S i
             = Some {| hName := Name f; hMethod := Deflate;
                       body := rdData (if IsCompressed fe
                                       then flate_NewReader (bytes_NewReader data)
                                       else bytes_NewReader data) |}.
Proof.
  intros Hrun.
  apply Decrypt_exact in Hrun
    as (userKey & inFile & lic & contentKey & encryptedFiles & wr & es
        & Hhex & Hzip & Hlic & Hck & Hlist & Hw & Hdir & Hall & _).
  exists userKey, inFile, lic, contentKey, encryptedFiles, wr.
  repeat (split; [assumption|]).
  intros i f fe Hi Hfile Hfe Halg.
  destruct (Forall2_lookup_l _ _ _ _ _ Hall Hi) as (e & He & Hn & Hf).
  rewrite Hfile in Hf. destruct Hf as (Hm & src & Hopen & _ & _ & Hbody).
  rewrite Hfe in Hbody. destruct Hbody as (decipherFunc & data & Hfor & Hdata & _ & Hbody).
  rewrite Halg in Hfor. apply decipherFor_AES in Hfor. subst decipherFunc.
  exists src, data. split; [exact Hopen|]. split; [exact Hdata|].
  rewrite Hdir. change ((mimetypeEntry :: es) !! S i) with (es !! i).
  rewrite He. f_equal. destruct e as [n m b]. cbn in *.
  unfold cleartextOf in Hbody. congruence.
Qed.

(** X6: on success, a source entry listed in the manifest under the
    font-obfuscation algorithm is not deobfuscated: the destination entry
    holds the source bytes as they are (inflated when the manifest marks the
    entry compressed). *)
Theorem Decrypt_font_entries_kept out inp inSize userKeyHex licenseFile logger w :
  Decrypt zip_NewReader json_Decode xml_Decode flate_NewReader
          out inp inSize userKeyHex licenseFile logger empty_world = (Ok tt, w) ->
  exists inFile encryptedFiles wr,
    zip_NewReader inp inSize = Ok inFile
    /\ listEncryptedFiles xml_Decode inFile = Ok encryptedFiles
    /\ outZip w = Some wr
    /\ forall (i : nat) (f : zip_File) (fe : FileEntry),
        List.filter (fun f => negb (skipped (Name f))) (File inFile) !! i = Some f ->
        strings_HasSuffix (Name f) "/" = false ->
        groupFileEntriesByPath encryptedFiles !! Name f = Some fe ->
        EncryptionAlgorithm_ fe = EncryptionAlgorithmFontObfuscation ->
        exists src,
          fOpen f = Ok src
          /\ wDir wr !! S i
             = Some {| hName := Name f; hMethod := Deflate;
                       body := rdData (if IsCompressed fe
                                       then flate_NewReader (bytes_NewReader (rdData src))
                                       else src) |}.
Proof.
  intros Hrun.
  apply Decrypt_exact in Hrun
    as (userKey & inFile & lic & contentKey & encryptedFiles & wr & es
        & Hhex & Hzip & Hlic & Hck & Hlist & Hw & Hdir & Hall & _).
  exists inFile, encryptedFiles, wr.
  repeat (split; [assumption|]).
  intros i f fe Hi Hfile Hfe Halg.
  destruct (Forall2_lookup_l _ _ _ _ _ Hall Hi) as (e & He & Hn & Hf).
  rewrite Hfile in Hf. destruct Hf as (Hm & src & Hopen & _ & _ & Hbody).
  rewrite Hfe in Hbody. destruct Hbody as (decipherFunc & data & Hfor & Hdata & _ & Hbody).
  rewrite Halg in Hfor. apply decipherFor_Font in Hfor. subst decipherFunc.
  injection Hdata as <-.
  exists src. split; [exact Hopen|].
  rewrite Hdir. change ((mimetypeEntry :: es) !! S i) with (es !! i).
  rewrite He. f_equal. destruct e as [n m b]. cbn in *.
  unfold cleartextOf in Hbody. destruct (IsCompressed fe); cbn in *; congruence.
Qed.

(** X7: on success the run has opened, through the entry list, exactly the
    source entries that are neither skipped nor directory markers, each once
    and in archive order, has handed exactly those listed in the manifest to
    the decryption pipeline, and has logged (when a logger was given, and
    only then) one line per entry that is not skipped and a last line. *)
Theorem Decrypt_trace out inp inSize userKeyHex licenseFile logger w :
  Decrypt zip_NewReader json_Decode xml_Decode flate_NewReader
          out inp inSize userKeyHex licenseFile logger empty_world = (Ok tt, w) ->
  exists inFile encryptedFiles,
    zip_NewReader inp inSize = Ok inFile
    /\ listEncryptedFiles xml_Decode inFile = Ok encryptedFiles
    /\ trace w
       = List.concat
           (List.map
              (fun f =>
                 if skipped (Name f) then []
                 else
                   (if logger then [LogMsg ("Processing file " ++ Name f ++ "...")]
                    else [])
                   ++ (if strings_HasSuffix (Name f) "/" then []
                       else SrcOpen (Name f)
                            :: match groupFileEntriesByPath encryptedFiles !! Name f with
                               | Some fe =>
                                   [DecryptFile (Name f) (EncryptionAlgorithm_ fe)]
                               | None => []
                               end))
              (File inFile))
         ++ (if logger then [LogMsg "Decrypted ePUB"] else []).
Proof.
  intros Hrun.
  apply Decrypt_exact in Hrun
    as (userKey & inFile & lic & contentKey & encryptedFiles & wr & es
        & Hhex & Hzip & Hlic & Hck & Hlist & Hw & Hdir & Hall & Htr).
  exists inFile, encryptedFiles.
  split; [exact Hzip|]. split; [exact Hlist|]. exact Htr.
Qed.

(** X8: [Decrypt] succeeds only with a user key that passes the key check:
    on success the licence it read (the one given, or the archive's) decodes,
    and its key check decrypts under the hex-decoded user key to the bytes of
    the licence identifier. *)
Theorem Decrypt_Ok_key_checked out inp inSize userKeyHex licenseFile logger w :
  Decrypt zip_NewReader json_Decode xml_Decode flate_NewReader
          out inp inSize userKeyHex licenseFile logger empty_world = (Ok tt, w) ->
  exists userKey inFile lic license encryptedKeyCheck,
    userKeyHex <> EmptyString
    /\ hex_DecodeString userKeyHex = Ok userKey
    /\ zip_NewReader inp inSize = Ok inFile
    /\ licenseSource inFile licenseFile = Ok lic
    /\ json_Decode lic = Ok license
    /\ base64_DecodeString (KeyCheck license) = Ok encryptedKeyCheck
    /\ decipherAES256CBC encryptedKeyCheck userKey
       = Ok (list_ascii_of_string (ID license)).
Proof.
  intros Hrun.
  destruct (Decrypt_before_writer _ _ _ _ _ _ _ _ _ _ _ _ Hrun)
    as [[Hne _] | (userKey & inFile & lic & contentKey & encryptedFiles
                   & Hkey & Hhex & Hzip & Hlic & Hck & _)].
  { exfalso. apply Hne. reflexivity. }
  apply getContentKey_Ok_inv in Hck as (license & ekc & _ & Hjson & Hekc & Hkc & _).
  exists userKey, inFile, lic, license, ekc.
  split; [intros ->; discriminate Hkey|].
  repeat (split; [assumption|]). assumption.
Qed.

(** X9: the [default] branch of the switch of [decryptFile] cannot be
    reached from the manifest parser: every entry of the lookup built from
    what [listEncryptedFiles] returns has one of the two known algorithms,
    and for such an algorithm [decryptFile] never returns its
    invalid-algorithm error. *)
Theorem decryptFile_default_unreachable (epubRoot : zip_Reader)
        (encryptedFiles : list FileEntry) (name : string) (fe : FileEntry) :
  listEncryptedFiles xml_Decode epubRoot = Ok encryptedFiles ->
  groupFileEntriesByPath encryptedFiles !! name = Some fe ->
  supportedAlgorithm (EncryptionAlgorithm_ fe) = true
  /\ forall dst src contentKey s msg,
      fst (decryptFile flate_NewReader dst src contentKey
             (EncryptionAlgorithm_ fe) (IsCompressed fe) s) <> Err (Errorf msg).
Proof.
  intros Hlist Hfe.
  assert (Hsup : supportedAlgorithm (EncryptionAlgorithm_ fe) = true).
  { apply group_lookup_In in Hfe as [Hin _].
    unfold listEncryptedFiles in Hlist.
    destruct (Open epubRoot "META-INF/encryption.xml") as [encFile|e|p];
      try discriminate Hlist.
    cbn [wrapErr obind] in Hlist.
    destruct (xml_Decode encFile) as [enc|e|p]; try discriminate Hlist.
    cbn [wrapErr obind] in Hlist.
    apply listLoop_Ok_iff in Hlist as (fes & -> & Hall). cbn [app] in Hin.
    apply list_elem_of_In, list_elem_of_lookup in Hin as [i Hi].
    destruct (Forall2_lookup_r _ _ _ _ _ Hall Hi) as (d & _ & _ & -> & Hs & _).
    exact Hs. }
  split; [exact Hsup|].
  intros dst src contentKey s msg.
  unfold decryptFile, bind, lift, wrapErrM.
  destruct (io_ReadAll src) as [encryptedData|e|p]; cbn [wrapErr fst];
    try discriminate.
  unfold supportedAlgorithm in Hsup.
  destruct (String.eqb (EncryptionAlgorithm_ fe) EncryptionAlgorithmAES256CBC).
  - destruct (decipherAES256CBC encryptedData contentKey) as [data|e|p];
      cbn [wrapErr fst]; try discriminate.
    destruct (io_Copy dst _ s) as [[[]|e|p] s']; cbn [wrapErr fst]; discriminate.
  - destruct (String.eqb (EncryptionAlgorithm_ fe) EncryptionAlgorithmFontObfuscation);
      [|discriminate Hsup].
    cbn [decipherFontObfuscation wrapErr].
    destruct (io_Copy dst _ s) as [[[]|e|p] s']; cbn [wrapErr fst]; discriminate.
Qed.

End Success.

(** ** The statements at the second sample book *)

Lemma Book_run_Ok logger : fst (Book.run logger) = Ok tt.
Proof. destruct logger; vm_compute; reflexivity. Qed.

Lemma Book_run_eq logger :
  Decrypt Book.zip_NewReader Sample.json_Decode Book.xml_Decode Book.flate_NewReader
          Sample.neverFails Book.epub 3 Sample.userKeyHex None logger empty_world
  = (Ok tt, snd (Book.run logger)).
Proof. destruct logger; vm_compute; reflexivity. Qed.

Lemma Book_parsed :
  Book.zip_NewReader Book.epub 3 = Ok Book.archive
  /\ listEncryptedFiles Book.xml_Decode Book.archive = Ok Book.fileEntries.
Proof. split; vm_compute; reflexivity. Qed.

Lemma Decrypt_aes_entries_decrypted_witness :
  fst (Book.run true) = Ok tt
  /\ exists wr,
      outZip (snd (Book.run true)) = Some wr
      /\ wDir wr !! 2%nat = Some {| hName := "OEBPS/ch1.xhtml"; hMethod := Deflate;
                                    body := list_ascii_of_string "<p>Hi</p>" |}.
Proof.
  split; [apply Book_run_Ok|].
  destruct (Decrypt_aes_entries_decrypted _ _ _ _ _ _ _ _ _ _ _ (Book_run_eq true))
    as (userKey & inFile & lic & contentKey & encryptedFiles & wr
        & Hhex & Hzip & Hlic & Hck & Hlist & Hw & Hentries).
  destruct Book_parsed as [Hz Hl].
  rewrite Hz in Hzip. injection Hzip as <-.
  rewrite Hl in Hlist. injection Hlist as <-.
  assert (Hu : userKey = hx Sample.userKeyHex).
  { assert (Hh : hex_DecodeString Sample.userKeyHex = Ok (hx Sample.userKeyHex))
      by (vm_compute; reflexivity).
    rewrite Hh in Hhex. injection Hhex as <-. reflexivity. }
  subst userKey.
  assert (Hl' : lic = bytes_NewReader Sample.licenseText).
  { vm_compute in Hlic. injection Hlic as <-. reflexivity. }
  subst lic.
  assert (Hc : contentKey = Sample.contentKey).
  { assert (Hg : getContentKey Sample.json_Decode (bytes_NewReader Sample.licenseText)
                               (hx Sample.userKeyHex) = Ok Sample.contentKey)
      by (vm_compute; reflexivity).
    rewrite Hg in Hck. injection Hck as <-. reflexivity. }
  subst contentKey.
  destruct (Hentries 1%nat (Sample.file "OEBPS/ch1.xhtml" Book.compressedChapter)
                     {| Path := "OEBPS/ch1.xhtml"; IsCompressed := true;
                        EncryptionAlgorithm_ := EncryptionAlgorithmAES256CBC |})
    as (src & data & Hopen & Hdata & Hentry).
  - vm_compute. reflexivity.
  - vm_compute. reflexivity.
  - vm_compute. reflexivity.
  - reflexivity.
  - injection Hopen as <-.
    assert (Hd : decipherAES256CBC Book.compressedChapter Sample.contentKey
                 = Ok (hx "010900f6ff3c703e48693c2f703e"))
      by (vm_compute; reflexivity).
    cbn [rdData bytes_NewReader] in Hdata. rewrite Hd in Hdata. injection Hdata as <-.
    exists wr. split; [exact Hw | exact Hentry].
Defined.

Lemma Decrypt_font_entries_kept_witness :
  fst (Book.run true) = Ok tt
  /\ exists wr,
      outZip (snd (Book.run true)) = Some wr
      /\ wDir wr !! 3%nat = Some {| hName := "OEBPS/fonts/a b.otf"; hMethod := Deflate;
                                    body := Book.font |}.
Proof.
  split; [apply Book_run_Ok|].
  destruct (Decrypt_font_entries_kept _ _ _ _ _ _ _ _ _ _ _ (Book_run_eq true))
    as (inFile & encryptedFiles & wr & Hzip & Hlist & Hw & Hentries).
  destruct Book_parsed as [Hz Hl].
  rewrite Hz in Hzip. injection Hzip as <-.
  rewrite Hl in Hlist. injection Hlist as <-.
  destruct (Hentries 2%nat (Sample.file "OEBPS/fonts/a b.otf" Book.font)
                     {| Path := "OEBPS/fonts/a b.otf"; IsCompressed := false;
                        EncryptionAlgorithm_ := EncryptionAlgorithmFontObfuscation |})
    as (src & Hopen & Hentry).
  - vm_compute. reflexivity.
  - vm_compute. reflexivity.
  - vm_compute. reflexivity.
  - reflexivity.
  - injection Hopen as <-. exists wr. split; [exact Hw | exact Hentry].
Defined.

Lemma Decrypt_trace_witness :
  fst (Book.run false) = Ok tt
  /\ trace (snd (Book.run false))
     = [ SrcOpen "OEBPS/ch1.xhtml";
         DecryptFile "OEBPS/ch1.xhtml" EncryptionAlgorithmAES256CBC;
         SrcOpen "OEBPS/fonts/a b.otf";
         DecryptFile "OEBPS/fonts/a b.otf" EncryptionAlgorithmFontObfuscation;
         SrcOpen "OEBPS/style.css" ].
Proof.
  split; [apply Book_run_Ok|].
  destruct (Decrypt_trace _ _ _ _ _ _ _ _ _ _ _ (Book_run_eq false))
    as (inFile & encryptedFiles & Hzip & Hlist & Htr).
  destruct Book_parsed as [Hz Hl].
  rewrite Hz in Hzip. injection Hzip as <-.
  rewrite Hl in Hlist. injection Hlist as <-.
  rewrite Htr. vm_compute. reflexivity.
Defined.

Lemma Decrypt_Ok_key_checked_witness :
  fst (Book.run true) = Ok tt
  /\ exists license encryptedKeyCheck,
      base64_DecodeString (KeyCheck license) = Ok encryptedKeyCheck
      /\ decipherAES256CBC encryptedKeyCheck (hx Sample.userKeyHex)
         = Ok (list_ascii_of_string (ID license)).
Proof.
  split; [apply Book_run_Ok|].
  destruct (Decrypt_Ok_key_checked _ _ _ _ _ _ _ _ _ _ _ (Book_run_eq true))
    as (userKey & inFile & lic & license & ekc & _ & Hhex & _ & _ & _ & Hekc & Hkc).
  assert (Hh : hex_DecodeString Sample.userKeyHex = Ok (hx Sample.userKeyHex))
    by (vm_compute; reflexivity).
  rewrite Hh in Hhex. injection Hhex as <-.
  exists license, ekc. split; assumption.
Defined.

Lemma decryptFile_default_unreachable_witness :
  listEncryptedFiles Book.xml_Decode Book.archive = Ok Book.fileEntries
  /\ supportedAlgorithm EncryptionAlgorithmFontObfuscation = true
  /\ fst (decryptFile Book.flate_NewReader (fileWriter 0) (bytes_NewReader Book.font)
            Sample.contentKey EncryptionAlgorithmFontObfuscation false
            (Sample.beforeMimetype Sample.neverFails))
     <> Err (Errorf ("invalid encryption algorithm: "
                     ++ EncryptionAlgorithmFontObfuscation)).
Proof.
  destruct Book_parsed as [_ Hl]. split; [exact Hl|].
  destruct (decryptFile_default_unreachable Book.xml_Decode Book.flate_NewReader
              Book.archive Book.fileEntries "OEBPS/fonts/a b.otf"
              {| Path := "OEBPS/fonts/a b.otf"; IsCompressed := false;
                 EncryptionAlgorithm_ := EncryptionAlgorithmFontObfuscation |}
              Hl ltac:(vm_compute; reflexivity)) as [Hsup Hnever].
  split; [exact Hsup|]. apply Hnever.
Defined.

(** ** Manifest records that name no archive entry *)

Lemma bind_ext {A B} (c : M A) (k k' : A -> M B) (s : world) :
  (forall a s', k a s' = k' a s') -> bind c k s = bind c k' s.
Proof.
  intros H. unfold bind. destruct (c s) as [[a|e|p] s']; [apply H | |]; reflexivity.
Qed.

Lemma bind_cong {A B} (c c' : M A) (k : A -> M B) (s : world) :
  c s = c' s -> bind c k s = bind c' k s.
Proof. intros H. unfold bind. rewrite H. reflexivity. Qed.

Section Absent.

Variable flate_NewReader : Reader -> Reader.

Lemma transcode_ext logger key (m m' : gmap string FileEntry) files :
  (forall f, In f files -> m !! Name f = m' !! Name f) ->
  forall s, transcode flate_NewReader logger key m files s
            = transcode flate_NewReader logger key m' files s.
Proof.
  induction files as [|f files IH]; intros Hagree s; [reflexivity|].
  cbn [transcode].
  assert (He : forall s0, transcodeEntry flate_NewReader logger key m f s0
                          = transcodeEntry flate_NewReader logger key m' f s0).
  { intros s0. unfold transcodeEntry.
    rewrite (Hagree f (or_introl eq_refl)). reflexivity. }
  rewrite (bind_cong _ _ _ _ (He s)).
  apply bind_ext. intros _ s'. apply IH.
  intros f' Hin. apply Hagree. right. exact Hin.
Qed.

(** X10: a manifest record whose path is the name of no entry of the
    source archive has no effect on the archive phase of [Decrypt]: with and
    without the record the same result and the same destination are
    produced; the presence of listed files in the archive is not checked. *)
Theorem writeArchive_ignores_absent_paths out logger (inFile : zip_Reader)
        (contentKey : bytes) (fes1 fes2 : list FileEntry) (fe : FileEntry) :
  (forall f, In f (File inFile) -> Name f <> Path fe) ->
  forall s,
    writeArchive flate_NewReader out logger inFile contentKey (fes1 ++ fe :: fes2) s
    = writeArchive flate_NewReader out logger inFile contentKey (fes1 ++ fes2) s.
Proof.
  intros Habsent s. unfold writeArchive.
  apply bind_ext. intros _ s1. apply bind_ext. intros _ s2. cbv zeta.
  apply bind_ext. intros mimetype s3. apply bind_ext. intros _ s4.
  apply bind_cong. apply transcode_ext.
  intros f Hin. specialize (Habsent f Hin).
  rewrite !group_lookup_last.
  rewrite !List.filter_app. cbn [List.filter].
  destruct (String.eqb_spec (Path fe) (Name f)) as [Heq|_]; [|reflexivity].
  exfalso. apply Habsent. symmetry. exact Heq.
Qed.

End Absent.

Lemma writeArchive_ignores_absent_paths_witness :
  (forall f, In f Book.files -> Name f <> "OEBPS/missing.xhtml")
  /\ writeArchive Book.flate_NewReader Sample.neverFails true Book.archive
       Sample.contentKey Book.fileEntries empty_world
     = writeArchive Book.flate_NewReader Sample.neverFails true Book.archive
         Sample.contentKey (firstn 2 Book.fileEntries) empty_world.
Proof.
  assert (Habsent : forall f, In f Book.files -> Name f <> "OEBPS/missing.xhtml").
  { intros f Hin. repeat (destruct Hin as [<- | Hin]; [discriminate|]). destruct Hin. }
  split; [exact Habsent|].
  exact (writeArchive_ignores_absent_paths Book.flate_NewReader Sample.neverFails true
           Book.archive Sample.contentKey (firstn 2 Book.fileEntries) []
           {| Path := "OEBPS/missing.xhtml"; IsCompressed := false;
              EncryptionAlgorithm_ := EncryptionAlgorithmAES256CBC |}
           Habsent empty_world).
Defined.

(** ** When [Decrypt] succeeds *)

Lemma appendBody_length p dir : length (appendBody p dir) = length dir.
Proof.
  induction dir as [|e [|e' rest] IH]; [reflexivity | reflexivity |].
  change (appendBody p (e :: e' :: rest)) with (e :: appendBody p (e' :: rest)).
  cbn [length] in *. rewrite IH. reflexivity.
Qed.

Lemma prepare_ready s o n :
  writerState s o n -> exists s', prepare s = (Ok tt, s') /\ writerState s' false n.
Proof.
  intros (wr & Hs & Hout & Hclosed & Hopen & Hlen).
  destruct s as [oz tr]. cbn [outZip] in Hs. subst oz.
  mops. cbn [outZip trace]. destruct (wOpen wr) eqn:Eo; cbn [outZip trace].
  - rewrite Hout. eexists. split; [reflexivity|].
    eexists. cbn. repeat split; assumption.
  - eexists. split; [reflexivity|].
    exists wr. cbn. repeat split; assumption.
Qed.

Lemma createHeader_ready name method s o n :
  writerState s o n ->
  (N.of_nat (String.length name) <= uint16max)%N ->
  exists s',
    createHeader name method s
    = (Ok (if strings_HasSuffix name "/" then dirWriter else fileWriter n), s')
    /\ writerState s' (negb (strings_HasSuffix name "/")) (S n).
Proof.
  intros Hst Hname. unfold createHeader.
  destruct (prepare_ready s o n Hst) as (s1 & Hprep & (wr & Hs & Hout & Hclosed & Hopen & Hlen)).
  unfold bind at 1. rewrite Hprep. clear Hprep Hst.
  destruct s1 as [oz tr]. cbn [outZip] in Hs. subst oz.
  mops. cbn [outZip trace wOut wTicks wDir].
  destruct (N.ltb_spec uint16max (N.of_nat (String.length name))); [lia|].
  cbn [outZip trace wOut wTicks wDir]. rewrite Hout, Hlen.
  eexists. split; [reflexivity|].
  eexists. cbn. repeat split; try assumption.
  cbn [wDir]. rewrite length_app, Hlen. cbn. lia.
Qed.

Lemma Write_ready idx p s :
  writerState s true (S idx) ->
  exists s', Write (fileWriter idx) p s = (Ok tt, s') /\ writerState s' true (S idx).
Proof.
  intros (wr & Hs & Hout & Hclosed & Hopen & Hlen).
  destruct s as [oz tr]. cbn [outZip] in Hs. subst oz.
  unfold Write. mops. cbn [outZip trace]. rewrite Hopen, Hlen, Nat.eqb_refl.
  cbn [andb outZip trace]. rewrite Hout.
  eexists. split; [reflexivity|].
  eexists. cbn. repeat split; try assumption.
  cbn [wDir]. rewrite appendBody_length. exact Hlen.
Qed.

Lemma io_Copy_ready idx src s :
  writerState s true (S idx) -> rdErr src = None ->
  exists s', io_Copy (fileWriter idx) src s = (Ok tt, s') /\ writerState s' true (S idx).
Proof.
  intros Hst Herr. unfold io_Copy. rewrite Herr.
  destruct (rdData src) as [|c p].
  - exists s. split; [reflexivity | exact Hst].
  - destruct (Write_ready idx (c :: p) s Hst) as (s' & Hw & Hst').
    exists s'. unfold bind. rewrite Hw. split; [reflexivity | exact Hst'].
Qed.

Lemma emit_ready ev s o n :
  writerState s o n -> exists s', emit ev s = (Ok tt, s') /\ writerState s' o n.
Proof.
  intros Hst. eexists. split; [reflexivity|]. exact Hst.
Qed.

Section Succeeds.

Variable zip_NewReader : bytes -> Z -> outcome zip_Reader.
Variable json_Decode : Reader -> outcome License.
Variable xml_Decode : Reader -> outcome Encryption.
Variable flate_NewReader : Reader -> Reader.

Lemma log_ready logger msg s o n :
  writerState s o n -> exists s', log logger msg s = (Ok tt, s') /\ writerState s' o n.
Proof.
  intros Hst. unfold log. destruct logger.
  - apply emit_ready. exact Hst.
  - exists s. split; [reflexivity | exact Hst].
Qed.

Lemma decryptFile_ready idx src key fe decipherFunc data s :
  writerState s true (S idx) ->
  rdErr src = None ->
  decipherFor (EncryptionAlgorithm_ fe) = Some decipherFunc ->
  decipherFunc (rdData src) key = Ok data ->
  rdErr (cleartextOf flate_NewReader (IsCompressed fe) data) = None ->
  exists s',
    decryptFile flate_NewReader (fileWriter idx) src key
      (EncryptionAlgorithm_ fe) (IsCompressed fe) s = (Ok tt, s')
    /\ writerState s' true (S idx).
Proof.
  intros Hst Herr Hfor Hdata Hclear.
  destruct (io_Copy_ready idx _ s Hst Hclear) as (s' & Hcopy & Hst').
  exists s'. split; [|exact Hst'].
  unfold decryptFile, io_ReadAll. rewrite Herr.
  unfold bind, lift. cbn [wrapErr].
  unfold decipherFor in Hfor.
  destruct (String.eqb (EncryptionAlgorithm_ fe) EncryptionAlgorithmAES256CBC).
  - injection Hfor as <-. rewrite Hdata. cbn [wrapErr].
    unfold wrapErrM. unfold cleartextOf in Hcopy. rewrite Hcopy. reflexivity.
  - destruct (String.eqb (EncryptionAlgorithm_ fe) EncryptionAlgorithmFontObfuscation);
      [|discriminate Hfor].
    injection Hfor as <-. rewrite Hdata. cbn [wrapErr].
    unfold wrapErrM. unfold cleartextOf in Hcopy. rewrite Hcopy. reflexivity.
Qed.

Lemma transcodeEntry_ready logger key m f s o n :
  writerState s o n ->
  (skipped (Name f) = false -> entryReady flate_NewReader key m f) ->
  exists s' o' n',
    transcodeEntry flate_NewReader logger key m f s = (Ok tt, s')
    /\ writerState s' o' n'.
Proof.
  intros Hst Hready. unfold transcodeEntry.
  destruct (skipped (Name f)).
  { exists s, o, n. split; [reflexivity | exact Hst]. }
  destruct (Hready eq_refl) as (Hname & Hfile).
  destruct (log_ready logger ("Processing file " ++ Name f ++ "...") s o n Hst)
    as (s1 & Hlog & Hst1).
  unfold bind at 1. rewrite Hlog.
  destruct (createHeader_ready (Name f) Deflate s1 o n Hst1 Hname) as (s2 & Hcreate & Hst2).
  unfold bind at 1. unfold wrapErrM at 1, Create. rewrite Hcreate. cbn [wrapErr].
  destruct (strings_HasSuffix (Name f) "/").
  { exists s2, false, (S n). split; [reflexivity | exact Hst2]. }
  cbn [negb] in Hst2.
  destruct (Hfile eq_refl) as (src & Hopen & Herr & Hclose & Hlisted).
  unfold bind at 1. unfold emit at 1.
  unfold bind at 1. unfold lift at 1. rewrite Hopen. cbn [wrapErr].
  assert (Hst3 : writerState {| outZip := outZip s2;
                                trace := trace s2 ++ [SrcOpen (Name f)] |} true (S n))
    by exact Hst2.
  destruct (m !! Name f) as [fe|] eqn:Elook.
  - destruct (Hlisted fe eq_refl) as (decipherFunc & data & Hfor & Hdata & Hclear).
    assert (Hst4 : writerState
                     {| outZip := outZip s2;
                        trace := (trace s2 ++ [SrcOpen (Name f)])
                                 ++ [DecryptFile (Name f) (EncryptionAlgorithm_ fe)] |}
                     true (S n)) by exact Hst2.
    destruct (decryptFile_ready n src key fe decipherFunc data _ Hst4 Herr Hfor Hdata Hclear)
      as (s5 & Hdec & Hst5).
    exists s5, true, (S n). split; [|exact Hst5].
    unfold bind at 1. unfold wrapErrM at 1. unfold bind at 1. unfold emit at 1.
    cbn [outZip trace]. rewrite Hdec. cbn [wrapErr].
    unfold lift, Reader_Close. rewrite Hclose. reflexivity.
  - destruct (io_Copy_ready n src _ Hst3 Herr) as (s5 & Hcopy & Hst5).
    exists s5, true, (S n). split; [|exact Hst5].
    unfold bind at 1. unfold wrapErrM at 1. rewrite Hcopy. cbn [wrapErr].
    unfold lift, Reader_Close. rewrite Hclose. reflexivity.
Qed.

Lemma transcode_ready logger key m files :
  Forall (fun f => skipped (Name f) = false -> entryReady flate_NewReader key m f)
         files ->
  forall s o n,
    writerState s o n ->
    exists s' o' n',
      transcode flate_NewReader logger key m files s = (Ok tt, s')
      /\ writerState s' o' n'.
Proof.
  induction 1 as [|f files Hf _ IH]; intros s o n Hst.
  - exists s, o, n. split; [reflexivity | exact Hst].
  - destruct (transcodeEntry_ready logger key m f s o n Hst Hf) as (s1 & o1 & n1 & He & Hst1).
    destruct (IH s1 o1 n1 Hst1) as (s' & o' & n' & Ht & Hst').
    exists s', o', n'. split; [|exact Hst'].
    cbn [transcode]. unfold bind. rewrite He. exact Ht.
Qed.

Lemma Close_ready s o n :
  writerState s o n -> exists s', Close s = (Ok tt, s').
Proof.
  intros Hst. unfold Close.
  destruct (prepare_ready s o n Hst) as (s1 & Hprep & (wr & Hs & Hout & Hclosed & _)).
  unfold bind at 1. rewrite Hprep. clear Hprep Hst.
  destruct s1 as [oz tr]. cbn [outZip] in Hs. subst oz.
  mops. cbn [outZip trace]. rewrite Hclosed. cbn [outZip trace wOut wTicks].
  rewrite Hout. eexists. reflexivity.
Qed.

(** X11: [Decrypt] returns without error whenever the key is valid hex,
    the archive opens, the licence is found and yields the content key, the
    manifest parses, the archive comment and the entry names fit a ZIP
    header, every entry that is neither skipped nor a directory marker
    opens, reads and closes without error and, when listed in the manifest,
    deciphers (and inflates) without error, and the destination never fails
    to accept a write. *)
Theorem Decrypt_succeeds out inp inSize userKeyHex licenseFile logger
        (userKey : bytes) (inFile : zip_Reader) (lic : Reader)
        (contentKey : bytes) (encryptedFiles : list FileEntry) :
  userKeyHex <> EmptyString ->
  hex_DecodeString userKeyHex = Ok userKey ->
  zip_NewReader inp inSize = Ok inFile ->
  licenseSource inFile licenseFile = Ok lic ->
  getContentKey json_Decode lic userKey = Ok contentKey ->
  listEncryptedFiles xml_Decode inFile = Ok encryptedFiles ->
  (N.of_nat (String.length (Comment inFile)) <= uint16max)%N ->
  (forall f, In f (File inFile) -> skipped (Name f) = false ->
             entryReady flate_NewReader contentKey
                        (groupFileEntriesByPath encryptedFiles) f) ->
  (forall k, out k = None) ->
  exists w,
    Decrypt zip_NewReader json_Decode xml_Decode flate_NewReader
            out inp inSize userKeyHex licenseFile logger empty_world = (Ok tt, w).
Proof.
  intros Hkey Hhex Hzip Hlic Hck Hlist Hcomment Hready Hout.
  unfold Decrypt.
  destruct (String.eqb_spec userKeyHex EmptyString); [contradiction|].
  unfold bind at 1. unfold lift at 1. rewrite Hhex. cbn [wrapErr].
  unfold bind at 1. unfold lift at 1. rewrite Hzip. cbn [wrapErr].
  unfold bind at 1. unfold lift at 1. rewrite Hlic.
  unfold bind at 1. unfold lift at 1. rewrite Hck. cbn [wrapErr].
  unfold bind at 1. unfold lift at 1. rewrite Hlist. cbn [wrapErr].
  unfold writeArchive.
  unfold bind at 1. unfold zip_NewWriter, putWriter, empty_world. cbn [trace].
  unfold bind at 1. unfold wrapErrM at 1, SetComment.
  unfold bind at 1. unfold getWriter at 1. cbn [outZip].
  destruct (N.ltb_spec uint16max (N.of_nat (String.length (Comment inFile)))); [lia|].
  unfold putWriter. cbn [wrapErr wOut wTicks wDir wOpen wClosed trace].
  set (s0 := {| outZip := Some {| wOut := out; wTicks := 0;
                                  wComment := Comment inFile; wDir := [];
                                  wOpen := false; wClosed := false |};
                trace := [] |}).
  assert (Hst0 : writerState s0 false 0).
  { eexists. cbn. repeat split; try reflexivity. exact Hout. }
  destruct (createHeader_ready "mimetype" Store s0 false 0 Hst0
              ltac:(vm_compute; discriminate)) as (s1 & Hcreate & Hst1).
  change (strings_HasSuffix "mimetype" "/") with false in Hcreate, Hst1.
  cbn [negb] in Hst1.
  unfold bind at 1. unfold CreateHeader. rewrite Hcreate. cbn [fst].
  destruct (Write_ready 0 (list_ascii_of_string "application/epub+zip") s1 Hst1)
    as (s2 & Hwrite & Hst2).
  unfold bind at 1. unfold wrapErrM at 1, io_WriteString. rewrite Hwrite. cbn [wrapErr].
  destruct (transcode_ready logger contentKey (groupFileEntriesByPath encryptedFiles)
              (File inFile) ltac:(apply List.Forall_forall; exact Hready) s2 true 1 Hst2)
    as (s3 & o3 & n3 & Htrans & Hst3).
  unfold bind at 1. rewrite Htrans.
  destruct (Close_ready s3 o3 n3 Hst3) as (s4 & Hclose).
  unfold bind at 1. unfold wrapErrM at 1. rewrite Hclose. cbn [wrapErr].
  unfold log. destruct logger; eexists; reflexivity.
Qed.

End Succeeds.

Lemma Book_entries_ready :
  forall f, In f (File Book.archive) -> skipped (Name f) = false ->
            entryReady Book.flate_NewReader Sample.contentKey
                       (groupFileEntriesByPath Book.fileEntries) f.
Proof.
  intros f Hin Hskip. cbn [File Book.archive Book.files] in Hin.
  destruct Hin as [<- | [<- | [<- | [<- | [<- | [<- | [<- | []]]]]]]];
    try discriminate Hskip; (split; [vm_compute; discriminate|]); intros Hfile;
    try discriminate Hfile.
  - exists (bytes_NewReader Book.compressedChapter).
    repeat (split; [reflexivity|]).
    intros fe Hfe. vm_compute in Hfe. injection Hfe as <-.
    exists decipherAES256CBC, (hx "010900f6ff3c703e48693c2f703e").
    split; [reflexivity|]. split; vm_compute; reflexivity.
  - exists (bytes_NewReader Book.font).
    repeat (split; [reflexivity|]).
    intros fe Hfe. vm_compute in Hfe. injection Hfe as <-.
    exists decipherFontObfuscation, Book.font.
    split; [reflexivity|]. split; reflexivity.
  - exists (bytes_NewReader (list_ascii_of_string "p{}")).
    repeat (split; [reflexivity|]).
    intros fe Hfe. vm_compute in Hfe. discriminate Hfe.
Qed.

Lemma Decrypt_succeeds_witness :
  (forall k, Sample.neverFails k = None)
  /\ exists w,
      Decrypt Book.zip_NewReader Sample.json_Decode Book.xml_Decode Book.flate_NewReader
              Sample.neverFails Book.epub 3 Sample.userKeyHex None false empty_world
      = (Ok tt, w).
Proof.
  split; [reflexivity|].
  apply (Decrypt_succeeds Book.zip_NewReader Sample.json_Decode Book.xml_Decode
           Book.flate_NewReader Sample.neverFails Book.epub 3%Z Sample.userKeyHex
           None false (hx Sample.userKeyHex) Book.archive
           (bytes_NewReader Sample.licenseText) Sample.contentKey Book.fileEntries).
  - discriminate.
  - vm_compute. reflexivity.
  - vm_compute. reflexivity.
  - vm_compute. reflexivity.
  - vm_compute. reflexivity.
  - vm_compute. reflexivity.
  - vm_compute. discriminate.
  - exact Book_entries_ready.
  - reflexivity.
Defined.

(** ** The wasm bridge *)



(** X13: [freeBytes] unregisters its pointer and nothing else: afterwards
    [bytesSize] of that pointer is 0 and every other handle is as it was;
    freeing nil, an unknown pointer, or the same pointer twice changes
    nothing further. *)
Theorem freeBytes_bytesSize (p : Wasm.ptr) (handles : gmap Wasm.ptr bytes) :
  Wasm.bytesSize p (Wasm.freeBytes p handles) = 0%Z
  /\ (forall q, q <> p ->
        Wasm.bytesSize q (Wasm.freeBytes p handles) = Wasm.bytesSize q handles)
  /\ (handles !! p = None -> Wasm.freeBytes p handles = handles)
  /\ Wasm.freeBytes p (Wasm.freeBytes p handles) = Wasm.freeBytes p handles.
Proof.
  unfold Wasm.freeBytes, Wasm.bytesSize. split; [|split; [|split]].
  - rewrite lookup_delete_eq. reflexivity.
  - intros q Hq. rewrite lookup_delete_ne by congruence. reflexivity.
  - apply delete_id.
  - apply delete_id. apply lookup_delete_eq.
Qed.

(** X14: the table stays well formed (nil is never a key, no registered
    buffer is empty) under [newHandle], [newBytes] and [freeBytes], and in a
    well-formed table [bytesSize] is 0 exactly for the pointers that are not
    registered, nil among them. *)
Theorem handles_wellFormed (handles : gmap Wasm.ptr bytes) :
  Wasm.wellFormed handles ->
  (forall addr b, Wasm.wellFormed (snd (Wasm.newHandle addr b handles)))
  /\ (forall addr size p handles',
        Wasm.newBytes addr size handles = Ok (p, handles') -> Wasm.wellFormed handles')
  /\ (forall p, Wasm.wellFormed (Wasm.freeBytes p handles))
  /\ (forall p, Wasm.bytesSize p handles = 0%Z <-> handles !! p = None)
  /\ Wasm.bytesSize None handles = 0%Z.
Proof.
  intros [Hnil Hne].
  assert (Hnew : forall addr b, Wasm.wellFormed (snd (Wasm.newHandle addr b handles))).
  { intros addr b. unfold Wasm.newHandle. destruct b as [|c r]; [split; assumption|].
    cbn [snd]. split.
    - rewrite lookup_insert_ne by discriminate. exact Hnil.
    - intros p b Hp. destruct (decide (Some addr = p)) as [<-|Hq].
      + rewrite lookup_insert_eq in Hp. injection Hp as <-. discriminate.
      + rewrite lookup_insert_ne in Hp by exact Hq. exact (Hne p b Hp). }
  split; [exact Hnew|]. split; [|split; [|split]].
  - intros addr size p handles' H. unfold Wasm.newBytes in H.
    destruct (Z.eqb size 0).
    { injection H as <- <-. split; assumption. }
    destruct (Z.ltb size 0); [discriminate H|].
    injection H as H. rewrite (surjective_pairing (Wasm.newHandle _ _ _)) in H.
    injection H as _ <-. apply Hnew.
  - intros p. unfold Wasm.freeBytes. split.
    + destruct (decide (p = None)) as [->|Hp].
      * apply lookup_delete_eq.
      * rewrite lookup_delete_ne by exact Hp. exact Hnil.
    + intros q b Hq. destruct (decide (p = q)) as [->|Hp].
      * rewrite lookup_delete_eq in Hq. discriminate Hq.
      * rewrite lookup_delete_ne in Hq by exact Hp. exact (Hne q b Hq).
  - intros p. unfold Wasm.bytesSize. destruct (handles !! p) as [b|] eqn:E.
    + split; [|discriminate]. change (default [] (Some b)) with b. intros Hz.
      destruct b as [|c r]; [exfalso; exact (Hne p [] E eq_refl) | cbn in Hz; lia].
    + split; reflexivity.
  - unfold Wasm.bytesSize. rewrite Hnil. reflexivity.
Qed.

Lemma handles_wellFormed_witness :
  Wasm.wellFormed ∅
  /\ Wasm.wellFormed (Wasm.freeBytes (Some 7%positive) ∅)
  /\ Wasm.bytesSize None ∅ = 0%Z.
Proof.
  assert (H0 : Wasm.wellFormed (∅ : gmap Wasm.ptr bytes)).
  { split; [apply lookup_empty|]. intros p b Hp. rewrite lookup_empty in Hp.
    discriminate Hp. }
  split; [exact H0|].
  destruct (handles_wellFormed ∅ H0) as (_ & _ & Hfree & _ & Hnil).
  split; [apply Hfree | exact Hnil].
Defined.


(** ** The command-line program *)

Lemma Decrypt_empty_key zip_NewReader json_Decode xml_Decode flate_NewReader
    out inp inSize licenseFile logger w :
  Decrypt zip_NewReader json_Decode xml_Decode flate_NewReader
          out inp inSize EmptyString licenseFile logger w
  = (Err (Errorf "user key not specified"), w).
Proof. reflexivity. Qed.

Lemma Decrypt_license_undecodable zip_NewReader json_Decode xml_Decode flate_NewReader
    out inp inSize userKeyHex userKey inFile lic logger e w :
  String.eqb userKeyHex EmptyString = false ->
  hex_DecodeString userKeyHex = Ok userKey ->
  zip_NewReader inp inSize = Ok inFile ->
  json_Decode lic = Err e ->
  Decrypt zip_NewReader json_Decode xml_Decode flate_NewReader
          out inp inSize userKeyHex (Some lic) logger w
  = (Err (Wrap "error getting content key" (Wrap "error decoding json" e)), w).
Proof.
  intros Hkey Hhex Hzip Hjson. unfold Decrypt. rewrite Hkey, Hhex, Hzip.
  unfold bind, lift. cbn [wrapErr licenseSource].
  unfold getContentKey. rewrite Hjson. reflexivity.
Qed.

Lemma Decrypt_archive_unreadable zip_NewReader json_Decode xml_Decode flate_NewReader
    out inp inSize userKeyHex userKey licenseFile logger e w :
  String.eqb userKeyHex EmptyString = false ->
  hex_DecodeString userKeyHex = Ok userKey ->
  zip_NewReader inp inSize = Err e ->
  Decrypt zip_NewReader json_Decode xml_Decode flate_NewReader
          out inp inSize userKeyHex licenseFile logger w
  = (Err (Wrap "error opening input file" e), w).
Proof.
  intros Hkey Hhex Hzip. unfold Decrypt. rewrite Hkey, Hhex, Hzip. reflexivity.
Qed.

Lemma eqb_false_of_neq (s t : string) : s <> t -> String.eqb s t = false.
Proof. intros H. apply String.eqb_neq. exact H. Qed.

Section CommandLine.

Variable zip_NewReader : bytes -> Z -> outcome zip_Reader.
Variable json_Decode : Reader -> outcome License.
Variable xml_Decode : Reader -> outcome Encryption.
Variable flate_NewReader : Reader -> Reader.


(** X16.  The user key is looked at only after the output file was created:
    with an empty [-userKey], an input file that can be opened and a licence
    file that can be opened (or none named), [run] fails with "user key not
    specified" and the output path is removed, also when a file was there
    before; nothing is written. *)
Theorem run_empty_user_key_removes_output env licenseFileName inFilename outFilename fs :
  inFilename <> EmptyString ->
  outFilename <> EmptyString ->
  Cli.os_Open env fs inFilename = None ->
  Cli.statErr env = None ->
  Cli.createErr env outFilename = None ->
  (licenseFileName = EmptyString
   \/ Cli.os_Open env (<[outFilename := []]> fs) licenseFileName = None) ->
  Cli.removeFails env = false ->
  Cli.run zip_NewReader json_Decode xml_Decode flate_NewReader
          env EmptyString licenseFileName inFilename outFilename fs
  = (Err (Wrap "error decrypting file" (Errorf "user key not specified")),
     delete outFilename fs, empty_world).
Proof.
  intros Hin Hout Hopen Hstat Hcreate Hlic Hremove.
  unfold Cli.run.
  rewrite (eqb_false_of_neq _ _ Hin), (eqb_false_of_neq _ _ Hout).
  rewrite Hopen, Hstat, Hcreate. cbv zeta.
  assert (Hdel : delete outFilename (<[outFilename := []]> fs) = delete outFilename fs)
    by apply delete_insert_eq.
  destruct (String.eqb licenseFileName EmptyString) eqn:Elic.
  - rewrite Decrypt_empty_key, Hremove, Hdel. reflexivity.
  - destruct Hlic as [-> | Hlic]; [discriminate Elic|].
    rewrite Hlic, Decrypt_empty_key, Hremove, Hdel. reflexivity.
Qed.

(** X17.  Without [-licenseFile], [run] hands [Decrypt] a nil [*os.File] as
    its [io.Reader], which is not a nil reader: the licence inside the book
    is not looked for.  With a JSON decoder that fails on that reader, [run]
    never succeeds; and when the key is hexadecimal and the book is a
    readable archive, the failure is the decoder's, under "error getting
    content key", whatever the book holds. *)
Theorem run_without_license_flag env userKeyHex inFilename outFilename fs e :
  json_Decode Cli.nilFile = Err e ->
  forall r fs' w,
    Cli.run zip_NewReader json_Decode xml_Decode flate_NewReader
            env userKeyHex EmptyString inFilename outFilename fs = (r, fs', w) ->
    r <> Ok tt
    /\ (forall userKey inFile,
          inFilename <> EmptyString ->
          outFilename <> EmptyString ->
          Cli.os_Open env fs inFilename = None ->
          Cli.statErr env = None ->
          Cli.createErr env outFilename = None ->
          userKeyHex <> EmptyString ->
          hex_DecodeString userKeyHex = Ok userKey ->
          zip_NewReader (Cli.readFile (<[outFilename := []]> fs) inFilename)
                        (Z.of_nat (length (Cli.readFile fs inFilename))) = Ok inFile ->
          r = Err (Wrap "error decrypting file"
                     (Wrap "error getting content key" (Wrap "error decoding json" e)))
          /\ w = empty_world).
Proof.
  intros Hjson r fs' w Hrun. unfold Cli.run in Hrun.
  split.
  - destruct (String.eqb inFilename EmptyString);
      [injection Hrun as <- <- <-; discriminate|].
    destruct (String.eqb outFilename EmptyString);
      [injection Hrun as <- <- <-; discriminate|].
    destruct (Cli.os_Open env fs inFilename);
      [injection Hrun as <- <- <-; discriminate|].
    destruct (Cli.statErr env);
      [injection Hrun as <- <- <-; discriminate|].
    destruct (Cli.createErr env outFilename);
      [injection Hrun as <- <- <-; discriminate|].
    cbv zeta in Hrun. cbn [String.eqb] in Hrun.
    destruct (Decrypt _ _ _ _ _ _ _ _ _ _ _) as [[[]|e'|p] w0] eqn:Edec;
      [ | destruct (Cli.removeFails env); injection Hrun as <- <- <-; discriminate
        | injection Hrun as <- <- <-; discriminate ].
    exfalso.
    destruct (Decrypt_before_writer _ _ _ _ _ _ _ _ _ _ _ _ Edec)
      as [[Hne _] | (userKey & inFile & lic & contentKey & files
                     & _ & _ & _ & Hlic & Hck & _)].
    + apply Hne. reflexivity.
    + cbn [licenseSource] in Hlic. injection Hlic as <-.
      unfold getContentKey in Hck. rewrite Hjson in Hck. discriminate Hck.
  - intros userKey inFile Hin Hout Hopen Hstat Hcreate Hkey Hhex Hzip.
    rewrite (eqb_false_of_neq _ _ Hin), (eqb_false_of_neq _ _ Hout) in Hrun.
    rewrite Hopen, Hstat, Hcreate in Hrun. cbv zeta in Hrun.
    cbn [String.eqb] in Hrun.
    rewrite (Decrypt_license_undecodable _ _ _ _ _ _ _ _ userKey inFile _ _ e)
      in Hrun by (try apply eqb_false_of_neq; assumption).
    destruct (Cli.removeFails env); injection Hrun as <- <- <-; split; reflexivity.
Qed.

(** X18.  The licence file is opened after the output file was created, and
    a failure to open it does not remove the output: when [-licenseFile]
    names a file that cannot be opened, [run] fails with "error opening
    license file", [Decrypt] is not called, and the output path is left
    holding an empty file. *)
Theorem run_license_open_failure_keeps_output env userKeyHex licenseFileName
    inFilename outFilename fs e :
  inFilename <> EmptyString ->
  outFilename <> EmptyString ->
  Cli.os_Open env fs inFilename = None ->
  Cli.statErr env = None ->
  Cli.createErr env outFilename = None ->
  licenseFileName <> EmptyString ->
  Cli.os_Open env (<[outFilename := []]> fs) licenseFileName = Some e ->
  Cli.run zip_NewReader json_Decode xml_Decode flate_NewReader
          env userKeyHex licenseFileName inFilename outFilename fs
  = (Err (Wrap "error opening license file" e), <[outFilename := []]> fs, empty_world).
Proof.
  intros Hin Hout Hopen Hstat Hcreate Hlic Hfail.
  unfold Cli.run.
  rewrite (eqb_false_of_neq _ _ Hin), (eqb_false_of_neq _ _ Hout).
  rewrite Hopen, Hstat, Hcreate. cbv zeta.
  rewrite (eqb_false_of_neq _ _ Hlic), Hfail. reflexivity.
Qed.

(** X19.  The output file is created before the input is read: when the
    output path is the input path, [Decrypt] is given the emptied file
    together with the size the file had before.  With a key that is
    hexadecimal and an archive reader that rejects the empty file, [run]
    fails with "error opening input file" under "error decrypting file",
    and the book is gone from the file system. *)
Theorem run_in_place_loses_the_input env userKeyHex userKey licenseFileName name fs e :
  name <> EmptyString ->
  Cli.os_Open env fs name = None ->
  Cli.statErr env = None ->
  Cli.createErr env name = None ->
  (licenseFileName = EmptyString
   \/ Cli.os_Open env (<[name := []]> fs) licenseFileName = None) ->
  Cli.removeFails env = false ->
  userKeyHex <> EmptyString ->
  hex_DecodeString userKeyHex = Ok userKey ->
  zip_NewReader [] (Z.of_nat (length (Cli.readFile fs name))) = Err e ->
  Cli.run zip_NewReader json_Decode xml_Decode flate_NewReader
          env userKeyHex licenseFileName name name fs
  = (Err (Wrap "error decrypting file" (Wrap "error opening input file" e)),
     delete name fs, empty_world).
Proof.
  intros Hname Hopen Hstat Hcreate Hlic Hremove Hkey Hhex Hzip.
  unfold Cli.run.
  rewrite (eqb_false_of_neq _ _ Hname). rewrite Hopen, Hstat, Hcreate. cbv zeta.
  assert (Hread : Cli.readFile (<[name := []]> fs) name = [])
    by (unfold Cli.readFile; rewrite lookup_insert_eq; reflexivity).
  assert (Hdel : delete name (<[name := []]> fs) = delete name fs)
    by apply delete_insert_eq.
  rewrite Hread.
  destruct (String.eqb licenseFileName EmptyString) eqn:Elic.
  - rewrite (Decrypt_archive_unreadable _ _ _ _ _ _ _ _ userKey _ _ e)
      by (try apply eqb_false_of_neq; assumption).
    rewrite Hremove, Hdel. reflexivity.
  - destruct Hlic as [-> | Hlic]; [discriminate Elic|].
    rewrite Hlic.
    rewrite (Decrypt_archive_unreadable _ _ _ _ _ _ _ _ userKey _ _ e)
      by (try apply eqb_false_of_neq; assumption).
    rewrite Hremove, Hdel. reflexivity.
Qed.

End CommandLine.



Lemma run_empty_user_key_removes_output_witness :
  Cli.disk !! "out.epub" = Some (list_ascii_of_string "an older output")
  /\ Cli.runSample EmptyString "book.lcpl"
     = (Err (Wrap "error decrypting file" (Errorf "user key not specified")),
        delete "out.epub" Cli.disk, empty_world).
Proof.
  split; [vm_compute; reflexivity|].
  apply (run_empty_user_key_removes_output Book.zip_NewReader Cli.json_Decode
           Book.xml_Decode Book.flate_NewReader Cli.permissive "book.lcpl"
           "book.epub" "out.epub" Cli.disk).
  - discriminate.
  - discriminate.
  - vm_compute; reflexivity.
  - reflexivity.
  - reflexivity.
  - right. vm_compute; reflexivity.
  - reflexivity.
Defined.

Lemma run_without_license_flag_witness :
  (Cli.runSample Sample.userKeyHex EmptyString).1.1
  = Err (Wrap "error decrypting file"
           (Wrap "error getting content key"
              (Wrap "error decoding json" (LibError "os" "invalid argument")))).
Proof.
  destruct (run_without_license_flag Book.zip_NewReader Cli.json_Decode Book.xml_Decode
              Book.flate_NewReader Cli.permissive Sample.userKeyHex
              "book.epub" "out.epub" Cli.disk (LibError "os" "invalid argument")
              eq_refl
              (Cli.runSample Sample.userKeyHex EmptyString).1.1
              (Cli.runSample Sample.userKeyHex EmptyString).1.2
              (Cli.runSample Sample.userKeyHex EmptyString).2)
    as [_ H].
  - unfold Cli.runSample.
    destruct (Cli.run _ _ _ _ _ _ _ _ _ _) as [[r fs'] w]. reflexivity.
  - eapply proj1. eapply (H _ Book.archive); try discriminate; vm_compute; reflexivity.
Defined.

Lemma run_license_open_failure_keeps_output_witness :
  Cli.runSample Sample.userKeyHex "nope.lcpl"
  = (Err (Wrap "error opening license file"
            (LibError "os" "no such file or directory")),
     <["out.epub" := []]> Cli.disk, empty_world).
Proof.
  apply (run_license_open_failure_keeps_output Book.zip_NewReader Cli.json_Decode
           Book.xml_Decode Book.flate_NewReader Cli.permissive Sample.userKeyHex
           "nope.lcpl" "book.epub" "out.epub" Cli.disk).
  - discriminate.
  - discriminate.
  - vm_compute; reflexivity.
  - reflexivity.
  - reflexivity.
  - discriminate.
  - vm_compute; reflexivity.
Defined.

Lemma run_in_place_loses_the_input_witness :
  Cli.run Book.zip_NewReader Cli.json_Decode Book.xml_Decode Book.flate_NewReader
          Cli.permissive Sample.userKeyHex "book.lcpl" "book.epub" "book.epub" Cli.disk
  = (Err (Wrap "error decrypting file"
            (Wrap "error opening input file" (LibError "zip" "malformed document"))),
     delete "book.epub" Cli.disk, empty_world).
Proof.
  apply (run_in_place_loses_the_input Book.zip_NewReader Cli.json_Decode
           Book.xml_Decode Book.flate_NewReader Cli.permissive Sample.userKeyHex
           (hx Sample.userKeyHex) "book.lcpl" "book.epub" Cli.disk).
  - discriminate.
  - vm_compute; reflexivity.
  - reflexivity.
  - reflexivity.
  - right. vm_compute; reflexivity.
  - reflexivity.
  - discriminate.
  - vm_compute; reflexivity.
  - vm_compute; reflexivity.
Defined.


(** ** The first program *)

Lemma stringSet_fold_lookup (strs : list string) (s : string) :
  forall m : gmap string unit,
    fold_left (fun res s => <[s := tt]> res) strs m !! s
    = if existsb (String.eqb s) strs then Some tt else m !! s.
Proof.
  induction strs as [|x strs IH]; intros m; [reflexivity|].
  cbn [fold_left existsb]. rewrite IH.
  destruct (existsb (String.eqb s) strs); [rewrite orb_true_r; reflexivity|].
  rewrite orb_false_r.
  destruct (String.eqb_spec s x) as [->|Hne].
  - apply lookup_insert_eq.
  - apply lookup_insert_ne. congruence.
Qed.

(** X20.  The set built by [stringSet] has a key exactly for the strings of
    the list: the test [_, ok := set[name]] of the first program succeeds
    for the names that occur in the list and for no other. *)
Theorem stringSet_member (strs : list string) (s : string) :
  is_Some (Main.stringSet strs !! s) <-> In s strs.
Proof.
  unfold Main.stringSet. rewrite stringSet_fold_lookup.
  destruct (existsb (String.eqb s) strs) eqn:E.
  - split; [intros _ | intros _; eexists; reflexivity].
    apply existsb_exists in E as (x & Hin & Hx). apply String.eqb_eq in Hx.
    subst x. exact Hin.
  - split.
    + intros [u Hu]. rewrite lookup_empty in Hu. discriminate Hu.
    + intros Hin. exfalso.
      assert (Ht : existsb (String.eqb s) strs = true).
      { apply existsb_exists. exists s. split; [exact Hin | apply String.eqb_refl]. }
      rewrite Ht in E. discriminate E.
Qed.

Section TwoPrograms.

Variable json_Decode : Reader -> outcome License.

(** X21.  The first program and the library derive the same content key
    from the licence inside the book: one returns a key exactly when the
    other returns it, one panics exactly when the other does, and when the
    library fails the first program fails with the same error, except that
    it drops the cause of a key check that does not decrypt. *)
Theorem getContentKey_two_programs (inFile : zip_Reader) (userKey : bytes) :
  (forall k, Main.getContentKey json_Decode inFile userKey = Ok k
             <-> embeddedKey json_Decode inFile userKey = Ok k)
  /\ (forall p, Main.getContentKey json_Decode inFile userKey = Panic p
                <-> embeddedKey json_Decode inFile userKey = Panic p)
  /\ (forall e, embeddedKey json_Decode inFile userKey = Err e ->
        Main.getContentKey json_Decode inFile userKey = Err e
        \/ exists cause,
             e = Wrap "error decrypting key check" cause
             /\ Main.getContentKey json_Decode inFile userKey
                = Err (Errorf "error decrypting key check")).
Proof.
  unfold embeddedKey, Main.getContentKey, getContentKey, licenseSource.
  change decipher with decipherAES256CBC.
  destruct (Open inFile "META-INF/license.lcpl") as [lic|e0|p0]; cbn [wrapErr obind];
    [ | repeat split; try tauto; intros e He; left; exact He
      | repeat split; try tauto; intros e He; discriminate He ].
  destruct (json_Decode lic) as [license|e0|p0]; cbn [wrapErr obind];
    [ | repeat split; try tauto; intros e He; left; exact He
      | repeat split; try tauto; intros e He; discriminate He ].
  destruct (base64_DecodeString (KeyCheck license)) as [ekc|e0|p0]; cbn [wrapErr obind];
    [ | repeat split; try tauto; intros e He; left; exact He
      | repeat split; try tauto; intros e He; discriminate He ].
  destruct (decipherAES256CBC ekc userKey) as [kc|e0|p0]; cbn [wrapErr obind].
  - repeat split; try tauto; intros e He; left; exact He.
  - repeat split; try (intros H; discriminate H).
    intros e He. right. exists e0. injection He as <-. split; reflexivity.
  - repeat split; try tauto; intros e He; discriminate He.
Qed.

End TwoPrograms.


Lemma groupFileEntriesByPath_last_wins_witness :
  groupFileEntriesByPath Book.fileEntries !! "OEBPS/cover.jpg" = None
  /\ groupFileEntriesByPath
       (Book.fileEntries
          ++ [{| Path := "OEBPS/ch1.xhtml"; IsCompressed := false;
                 EncryptionAlgorithm_ := EncryptionAlgorithmFontObfuscation |}])
     !! "OEBPS/ch1.xhtml"
     = Some {| Path := "OEBPS/ch1.xhtml"; IsCompressed := false;
               EncryptionAlgorithm_ := EncryptionAlgorithmFontObfuscation |}.
Proof.
  split.
  - apply (proj1 (proj2 (groupFileEntriesByPath_last_wins Book.fileEntries
                           "OEBPS/cover.jpg"))).
    intros fe Hin. cbn in Hin.
    destruct Hin as [<- | [<- | [<- | []]]]; discriminate.
  - exact (proj2 (proj2 (groupFileEntriesByPath_last_wins Book.fileEntries EmptyString))
             {| Path := "OEBPS/ch1.xhtml"; IsCompressed := false;
                EncryptionAlgorithm_ := EncryptionAlgorithmFontObfuscation |}).
Defined.

Lemma freeBytes_bytesSize_witness :
  Wasm.bytesSize (Some 7%positive)
    (Wasm.freeBytes (Some 7%positive)
       (<[Some 7%positive := list_ascii_of_string "abc"]> ∅)) = 0%Z
  /\ Wasm.freeBytes (Some 9%positive)
       (<[Some 7%positive := list_ascii_of_string "abc"]> ∅)
     = <[Some 7%positive := list_ascii_of_string "abc"]> ∅.
Proof.
  split.
  - exact (proj1 (freeBytes_bytesSize (Some 7%positive)
                    (<[Some 7%positive := list_ascii_of_string "abc"]> ∅))).
  - apply (proj1 (proj2 (proj2 (freeBytes_bytesSize (Some 9%positive)
                    (<[Some 7%positive := list_ascii_of_string "abc"]> ∅))))).
    vm_compute; reflexivity.
Defined.

Lemma stringSet_member_witness :
  is_Some (Main.stringSet ["OEBPS/ch1.xhtml"; "OEBPS/ch2.xhtml"] !! "OEBPS/ch2.xhtml")
  /\ ~ is_Some (Main.stringSet ["OEBPS/ch1.xhtml"; "OEBPS/ch2.xhtml"] !! "OEBPS/ch3.xhtml").
Proof.
  split.
  - apply (proj2 (stringSet_member ["OEBPS/ch1.xhtml"; "OEBPS/ch2.xhtml"]
                    "OEBPS/ch2.xhtml")).
    right. left. reflexivity.
  - intros H.
    apply (proj1 (stringSet_member ["OEBPS/ch1.xhtml"; "OEBPS/ch2.xhtml"]
                    "OEBPS/ch3.xhtml")) in H.
    destruct H as [H | [H | []]]; discriminate H.
Defined.

Lemma getContentKey_two_programs_witness :
  Main.getContentKey Sample.json_Decode Book.archive (hx Sample.userKeyHex)
  = Ok Sample.contentKey.
Proof.
  apply (proj1 (getContentKey_two_programs Sample.json_Decode Book.archive
                  (hx Sample.userKeyHex))).
  vm_compute; reflexivity.
Defined.
